(** * flask_auto_healer: detection, diagnosis and healing of Flask projects

    A shallow embedding of the three core modules of the package,
    [core/detector.py], [core/diagnostic.py] and [core/healing.py], and the
    properties of the pipeline stated over it.

    Conventions of the embedding.
    - Python [str] is [string]; the model is exact on 8-bit text (the
      character classes of [re] are given for code points below 256).
    - A file-system path ([pathlib.Path] or its [str]) is the list of its
      components; the project tree that [os.walk] visits is an inductive
      [tree]; the files that diagnosis and healing read and write are a
      finite map from paths to contents.
    - A Python [dict] with a ['type'] tag (issues, fixes) is a tagged union.
    - [ast.parse] and [difflib.SequenceMatcher] belong to the Python
      standard library, not to the package: they are parameters of the
      sections that use them, and are instantiated where a run is
      evaluated.
    - Every [try: ... except Exception] of the source is a [try_] of the
      healing monad: the state reached when the exception was raised is
      kept and the loop goes on with the next issue. *)

From Stdlib Require Import Ascii ZArith QArith Lia.
From stdpp Require Import base gmap strings list pretty.

Set Warnings "-register-all".
Local Open Scope nat_scope.

(** ** Text: the operations of Python [str] and [list] the package uses *)

Module Text.

Definition nl : ascii := "010"%char.
Definition squote : ascii := "'"%char.
Definition dquote : ascii := "034"%char.

(** The accented letters of the package's messages, by code point. *)
Definition a_acute : string := String "225"%char EmptyString.
Definition a_tilde : string := String "227"%char EmptyString.
Definition c_cedilla : string := String "231"%char EmptyString.
Definition e_acute : string := String "233"%char EmptyString.

(** [s.startswith(p)] *)
Definition startswith (p s : string) : bool := String.prefix p s.

(** [needle in hay] *)
Fixpoint contains (needle hay : string) : bool :=
  String.prefix needle hay ||
  match hay with
  | EmptyString => false
  | String _ t => contains needle t
  end.

(** [s.split('\n')] *)
Fixpoint split_lines (s : string) : list string :=
  match s with
  | EmptyString => [EmptyString]
  | String c t =>
      if Ascii.eqb c nl then EmptyString :: split_lines t
      else match split_lines t with
           | l :: ls => String c l :: ls
           | [] => [String c EmptyString]
           end
  end.

(** ['\n'.join(ls)] *)
Fixpoint join_lines (ls : list string) : string :=
  match ls with
  | [] => EmptyString
  | [l] => l
  | l :: ls' => l +:+ String nl (join_lines ls')
  end.

(** [s.count('\n')] *)
Fixpoint count_nl (s : string) : nat :=
  match s with
  | EmptyString => 0
  | String c t => (if Ascii.eqb c nl then 1 else 0) + count_nl t
  end.

Fixpoint rev_string (s acc : string) : string :=
  match s with
  | EmptyString => acc
  | String c t => rev_string t (String c acc)
  end.

(** [s.endswith(p)] *)
Definition endswith (p s : string) : bool :=
  String.prefix (rev_string p EmptyString) (rev_string s EmptyString).

(** [s[:-1]] *)
Fixpoint drop_last (s : string) : string :=
  match s with
  | EmptyString => EmptyString
  | String c EmptyString => EmptyString
  | String c t => String c (drop_last t)
  end.

(** [s[n:]] and [s[:n]] for [n >= 0] *)
Fixpoint sdrop (n : nat) (s : string) : string :=
  match n, s with
  | S n', String _ t => sdrop n' t
  | _, _ => s
  end.

Fixpoint stake (n : nat) (s : string) : string :=
  match n, s with
  | S n', String c t => String c (stake n' t)
  | _, _ => EmptyString
  end.

(** The characters [str.strip()] removes and [\s] matches, among the
    code points below 256 that are whitespace for [str.isspace]. *)
Definition is_space (c : ascii) : bool :=
  let n := nat_of_ascii c in
  ((9 <=? n) && (n <=? 13)) || ((28 <=? n) && (n <=? 32)) || (n =? 133) || (n =? 160).

(** [\w]: the underscore and the code points below 256 that are
    alphanumeric for [str.isalnum]. *)
Definition is_word (c : ascii) : bool :=
  let n := nat_of_ascii c in
  ((48 <=? n) && (n <=? 57)) || ((65 <=? n) && (n <=? 90)) ||
  ((97 <=? n) && (n <=? 122)) || (n =? 95) ||
  (n =? 170) || (n =? 178) || (n =? 179) || (n =? 181) || (n =? 185) ||
  (n =? 186) || ((188 <=? n) && (n <=? 190)) ||
  ((192 <=? n) && (n <=? 214)) || ((216 <=? n) && (n <=? 246)) ||
  ((248 <=? n) && (n <=? 255)).

Fixpoint lstrip (s : string) : string :=
  match s with
  | String c t => if is_space c then lstrip t else s
  | EmptyString => EmptyString
  end.

(** [s.strip()] *)
Definition strip (s : string) : string :=
  rev_string (lstrip (rev_string (lstrip s) EmptyString)) EmptyString.

(** The leading whitespace of a line: what the healing engine reads with
    [re.match] to find the indentation of a definition. *)
Fixpoint leading_space (s : string) : string :=
  match s with
  | String c t => if is_space c then String c (leading_space t) else EmptyString
  | EmptyString => EmptyString
  end.

(** [s.split(sep)] for a non-empty separator: [skip] counts the characters
    of a separator occurrence still to pass over, [cur] is the piece being
    read, in reverse. *)
Fixpoint split_go (sep s : string) (skip : nat) (cur : string) : list string :=
  match s with
  | EmptyString => [rev_string cur EmptyString]
  | String c t =>
      match skip with
      | S k => split_go sep t k cur
      | 0 =>
          if String.prefix sep s
          then rev_string cur EmptyString :: split_go sep t (String.length sep - 1) EmptyString
          else split_go sep t 0 (String c cur)
      end
  end.

Definition split (sep s : string) : list string := split_go sep s 0 EmptyString.

(** [sep.join(ls)] *)
Fixpoint join (sep : string) (ls : list string) : string :=
  match ls with
  | [] => EmptyString
  | [l] => l
  | l :: ls' => l +:+ sep +:+ join sep ls'
  end.

(** [s.replace(old, new)] for a non-empty [old]: every occurrence, left to
    right, without overlap. *)
Fixpoint replace_go (old new s : string) (skip : nat) : string :=
  match s with
  | EmptyString => EmptyString
  | String c t =>
      match skip with
      | S k => replace_go old new t k
      | 0 =>
          if String.prefix old s
          then new +:+ replace_go old new t (String.length old - 1)
          else String c (replace_go old new t 0)
      end
  end.

Definition replace (old new s : string) : string := replace_go old new s 0.

(** [l.insert(i, x)] for [i >= 0]: an index past the end appends. *)
Definition list_insert_at {A} (i : nat) (x : A) (l : list A) : list A :=
  take i l ++ x :: drop i l.

(** [l.pop(i)] for an index in range. *)
Definition list_pop {A} (i : nat) (l : list A) : list A :=
  take i l ++ drop (S i) l.

(** [l[a:b]] for [0 <= a] *)
Definition slice {A} (a b : nat) (l : list A) : list A :=
  take (b - a) (drop a l).

End Text.

(** ** Re: the fragment of Python's [re] the package's patterns are written in

    A pattern is a sequence of literals, character classes, greedy
    repetitions of a class, optional groups and capturing groups.  The
    matcher is the backtracking matcher of [re]: alternatives are tried in
    order, a repetition takes as many characters as it can and gives them
    back one at a time.  None of the package's patterns matches the empty
    string. *)

Module Re.

Inductive regex : Type :=
| Chr (p : ascii -> bool)            (* one character of a class *)
| Lit (l : string)                   (* literal text *)
| LitI (l : string)                  (* literal text under [re.IGNORECASE] *)
| Rep (p : ascii -> bool) (n : nat)  (* [n] or more characters of a class *)
| Opt (r : regex)                    (* an optional non-capturing group *)
| Seq (r1 r2 : regex)
| Alt (r1 r2 : regex)                (* [r1|r2], [r1] tried first *)
| Grp (r : regex).                   (* a capturing group *)

Definition lower (c : ascii) : ascii :=
  let n := nat_of_ascii c in
  if (65 <=? n) && (n <=? 90) then ascii_of_nat (n + 32) else c.

(** [strip_prefix ci l s]: the rest of [s] after the literal [l], compared
    up to the case of letters when [ci] is set. *)
Fixpoint strip_prefix (ci : bool) (l s : string) : option string :=
  match l, s with
  | EmptyString, _ => Some s
  | String a l', String b s' =>
      if (if ci then Ascii.eqb (lower a) (lower b) else Ascii.eqb a b)
      then strip_prefix ci l' s' else None
  | String _ _, EmptyString => None
  end.

(** Greedy [p{n,}] followed by the continuation [k]. *)
Fixpoint rep {R} (p : ascii -> bool) (n : nat) (s : string)
    (k : string -> option R) : option R :=
  match s with
  | String c t =>
      if p c then
        match rep p (pred n) t k with
        | Some x => Some x
        | None => if n =? 0 then k s else None
        end
      else if n =? 0 then k s else None
  | EmptyString => if n =? 0 then k s else None
  end.

(** [run r s caps k]: match [r] at the start of [s], then go on with [k] on
    the rest of the text and the groups captured so far. *)
Fixpoint run {R} (r : regex) (s : string) (caps : list string)
    (k : string -> list string -> option R) : option R :=
  match r with
  | Chr p =>
      match s with
      | String c t => if p c then k t caps else None
      | EmptyString => None
      end
  | Lit l => match strip_prefix false l s with Some t => k t caps | None => None end
  | LitI l => match strip_prefix true l s with Some t => k t caps | None => None end
  | Rep p n => rep p n s (fun t => k t caps)
  | Opt r' =>
      match run r' s caps k with
      | Some x => Some x
      | None => k s caps
      end
  | Seq r1 r2 => run r1 s caps (fun t caps' => run r2 t caps' k)
  | Alt r1 r2 =>
      match run r1 s caps k with
      | Some x => Some x
      | None => run r2 s caps k
      end
  | Grp r' =>
      run r' s caps (fun t caps' =>
        k t (caps' ++ [Text.stake (String.length s - String.length t) s]))
  end.

(** [pattern.match(s)]: the rest of the text after the match and the
    captured groups. *)
Definition match_at (r : regex) (s : string) : option (string * list string) :=
  run r s [] (fun t caps => Some (t, caps)).

(** [re.search(r, s)]: the leftmost match, as (start offset, matched text,
    groups). *)
Fixpoint search_from (r : regex) (s : string) (pos : nat)
    : option (nat * string * list string) :=
  match match_at r s with
  | Some (t, caps) => Some (pos, Text.stake (String.length s - String.length t) s, caps)
  | None =>
      match s with
      | String _ s' => search_from r s' (S pos)
      | EmptyString => None
      end
  end.

Definition search (r : regex) (s : string) : option (nat * string * list string) :=
  search_from r s 0.

(** [re.finditer(r, s)]: the matches from left to right without overlap;
    [skip] counts the characters of the last match still to pass over. *)
Fixpoint finditer_go (r : regex) (s : string) (pos skip : nat)
    : list (nat * string * list string) :=
  let here :=
    match skip with
    | 0 => match match_at r s with
           | Some (t, caps) =>
               Some (String.length s - String.length t, caps)
           | None => None
           end
    | S _ => None
    end in
  match s with
  | EmptyString =>
      match here with
      | Some (n, caps) => [(pos, Text.stake n s, caps)]
      | None => []
      end
  | String _ s' =>
      match here with
      | Some (n, caps) => (pos, Text.stake n s, caps) :: finditer_go r s' (S pos) (n - 1)
      | None => finditer_go r s' (S pos) (skip - 1)
      end
  end.

Definition finditer (r : regex) (s : string) : list (nat * string * list string) :=
  finditer_go r s 0 0.

(** [re.findall(r, s)] for a pattern with one group: the text of the group
    in each match. *)
Definition findall1 (r : regex) (s : string) : list string :=
  omap (fun m => head (snd m)) (finditer r s).

(** [re.sub(r, repl, s)] for a replacement text without escapes. *)
Fixpoint sub_go (r : regex) (repl s : string) (skip : nat) : string :=
  match skip with
  | S k =>
      match s with
      | String _ s' => sub_go r repl s' k
      | EmptyString => EmptyString
      end
  | 0 =>
      match match_at r s with
      | Some (t, _) =>
          repl +:+
          match s with
          | String c s' =>
              match String.length s - String.length t with
              | 0 => String c (sub_go r repl s' 0)
              | S n => sub_go r repl s' n
              end
          | EmptyString => EmptyString
          end
      | None =>
          match s with
          | String c s' => String c (sub_go r repl s' 0)
          | EmptyString => EmptyString
          end
      end
  end.

Definition sub (r : regex) (repl s : string) : string := sub_go r repl s 0.

(** Character classes. *)
Definition quote (c : ascii) : bool :=
  Ascii.eqb c Text.squote || Ascii.eqb c Text.dquote.
Definition not_quote (c : ascii) : bool := negb (quote c).

Fixpoint seq (rs : list regex) : regex :=
  match rs with
  | [] => Lit EmptyString
  | [r] => r
  | r :: rs' => Seq r (seq rs')
  end.

End Re.

(** ** Ast: the shape of the trees of [ast.parse] that the package inspects

    A node is a function definition, a class definition, an assignment, a
    [return], or any other node ([if], [for], [try] and its handlers,
    expression statements, ...) with the nodes nested in it.  Expressions
    are kept as far as the package looks into them. *)

Module Ast.

Inductive expr : Type :=
| Name (id : string)
| Attribute (value : expr) (attr : string)
| Call (func : expr)
| OtherExpr.

Inductive node : Type :=
| FunctionDef (name : string) (decorator_list : list expr) (body : list node)
              (lineno end_lineno : nat)
| ClassDef (name : string) (body : list node) (lineno end_lineno : nat)
| Assign (targets : list expr) (value : expr) (lineno : nat)
| Return
| Other (children : list node).

Definition children (n : node) : list node :=
  match n with
  | FunctionDef _ _ body _ _ => body
  | ClassDef _ body _ _ => body
  | Other cs => cs
  | Assign _ _ _ | Return => []
  end.

Fixpoint size (n : node) : nat :=
  let sizes := fix sizes (ns : list node) : nat :=
    match ns with
    | [] => 0
    | m :: ns' => size m + sizes ns'
    end in
  match n with
  | FunctionDef _ _ body _ _ => S (sizes body)
  | ClassDef _ body _ _ => S (sizes body)
  | Other cs => S (sizes cs)
  | Assign _ _ _ | Return => 1
  end.

Definition sizes (ns : list node) : nat := foldr (fun n acc => size n + acc) 0 ns.

(** [ast.walk]: breadth first, a node before its children, the children
    in source order.  [fuel] bounds the number of nodes visited. *)
Fixpoint walk_go (fuel : nat) (queue : list node) : list node :=
  match fuel, queue with
  | S f, n :: q => n :: walk_go f (q ++ children n)
  | _, _ => []
  end.

(** The nodes of [ast.walk(tree)] below the module node. *)
Definition walk (module_body : list node) : list node :=
  walk_go (sizes module_body) module_body.

(** [ast.walk(node)] *)
Definition walk_node (n : node) : list node := walk_go (size n) [n].

Definition is_Return (n : node) : bool :=
  match n with Return => true | _ => false end.

End Ast.

Definition path : Type := list string.

(** ** Detector: [core/detector.py] *)

Module Detector.

(** The project tree as [os.walk] sees it: the sub-directories and the
    files of a directory, each in the order of the directory listing,
    every file with its text. *)
Inductive tree : Type :=
| Dir (dirs : list (string * tree)) (files : list (string * string)).

(** [open(root / rel).read()] *)
Fixpoint tree_read (t : tree) (rel : path) : option string :=
  match t, rel with
  | Dir _ files, [f] =>
      match list_find (fun nf => bool_decide (fst nf = f)) files with
      | Some (_, (_, content)) => Some content
      | None => None
      end
  | Dir dirs _, d :: rel' =>
      (fix find (ds : list (string * tree)) : option string :=
         match ds with
         | [] => None
         | (n, sub) :: ds' => if bool_decide (n = d) then tree_read sub rel' else find ds'
         end) dirs
  | _, [] => None
  end.

(** [p.relative_to(base)] *)
Fixpoint relative_to (base p : path) : option path :=
  match base, p with
  | [], _ => Some p
  | b :: base', c :: p' => if bool_decide (b = c) then relative_to base' p' else None
  | _ :: _, [] => None
  end.

(** A dictionary [{'file': ..., 'name': ..., 'line': ...}]. *)
Record entry : Type := Entry { e_file : path; e_name : string; e_line : nat }.

(** A dictionary [{'type': ..., 'file': ...}]. *)
Record kind_info : Type := KindInfo { k_type : string; k_file : option path }.

(** [detected_structure]: a key that is not set is [None] (and the empty
    list for the file lists, which [_build_structure_map] sets together). *)
Record Structure : Type := {
  st_pattern : option string;
  st_factory_function : option entry;
  st_app_instance : option entry;
  st_database : option kind_info;
  st_auth : option kind_info;
  st_project_path : path;
  st_app_files : list path;
  st_blueprint_files : list path;
  st_template_dirs : list path;
  st_static_dirs : list path;
  st_model_files : list path;
  st_route_files : list path;
  st_config_files : list path
}.

Record FlaskProjectDetector : Type := {
  project_path : path;
  app_files : list path;
  blueprint_files : list path;
  template_dirs : list path;
  static_dirs : list path;
  model_files : list path;
  route_files : list path;
  config_files : list path;
  app_instances : list entry;
  factory_functions : list entry;
  detected_structure : Structure;
  db_type : option string;
  auth_system : option string
}.

Definition empty_structure : Structure :=
  {| st_pattern := None; st_factory_function := None; st_app_instance := None;
     st_database := None; st_auth := None; st_project_path := [];
     st_app_files := []; st_blueprint_files := []; st_template_dirs := [];
     st_static_dirs := []; st_model_files := []; st_route_files := [];
     st_config_files := [] |}.

(** [FlaskProjectDetector.__init__] *)
Definition init (project_path : path) : FlaskProjectDetector :=
  {| project_path := project_path;
     app_files := []; blueprint_files := []; template_dirs := [];
     static_dirs := []; model_files := []; route_files := [];
     config_files := []; app_instances := []; factory_functions := [];
     detected_structure := empty_structure; db_type := None;
     auth_system := None |}.

Definition ignore_dirs : list string :=
  [".git"; ".github"; "venv"; "env"; ".venv"; ".env";
   "__pycache__"; "node_modules"; "migrations"; "tests"].

Definition cond_append {A} (b : bool) (x : A) (l : list A) : list A :=
  if b then l ++ [x] else l.

(** The body of the loop over [files] in [_find_flask_files]. *)
Definition find_file (root : path) (d : FlaskProjectDetector)
    (f : string * string) : FlaskProjectDetector :=
  let '(file, content) := f in
  if Text.endswith ".py" file then
    let file_path := root ++ [file] in
    if Text.contains "import Flask" content || Text.contains "from flask import" content
    then
      {| project_path := project_path d;
         app_files := app_files d ++ [file_path];
         blueprint_files :=
           cond_append (Text.contains "Blueprint(" content ||
                        Text.contains "Blueprint (" content)
                       file_path (blueprint_files d);
         template_dirs := template_dirs d;
         static_dirs := static_dirs d;
         model_files :=
           cond_append (Text.contains "db.Model" content ||
                        Text.contains "SQLAlchemy" content)
                       file_path (model_files d);
         route_files :=
           cond_append (Text.contains "@app.route" content ||
                        Text.contains "@blueprint.route" content ||
                        Text.contains ".route(" content)
                       file_path (route_files d);
         config_files :=
           cond_append (Text.contains "app.config" content ||
                        Text.contains "Config" content)
                       file_path (config_files d);
         app_instances := app_instances d;
         factory_functions := factory_functions d;
         detected_structure := detected_structure d;
         db_type := db_type d; auth_system := auth_system d |}
    else d
  else d.

Definition add_dirs (root : path) (names : list string)
    (d : FlaskProjectDetector) : FlaskProjectDetector :=
  {| project_path := project_path d;
     app_files := app_files d; blueprint_files := blueprint_files d;
     template_dirs :=
       cond_append (bool_decide ("templates" ∈ names)) (root ++ ["templates"])
                   (template_dirs d);
     static_dirs :=
       cond_append (bool_decide ("static" ∈ names)) (root ++ ["static"])
                   (static_dirs d);
     model_files := model_files d; route_files := route_files d;
     config_files := config_files d; app_instances := app_instances d;
     factory_functions := factory_functions d;
     detected_structure := detected_structure d;
     db_type := db_type d; auth_system := auth_system d |}.

Definition kept (name : string) : bool := bool_decide (name ∉ ignore_dirs).

(** [_find_flask_files]: the loop over [os.walk(self.project_path)], top
    down; the ignored directories are pruned from [dirs] before the walk
    descends. *)
Fixpoint find_flask_files_in (root : path) (t : tree)
    (d : FlaskProjectDetector) : FlaskProjectDetector :=
  match t with
  | Dir dirs files =>
      let d1 := foldl (find_file root) d files in
      let d2 := add_dirs root (filter (fun n => kept n) (fst <$> dirs)) d1 in
      (fix descend (ds : list (string * tree)) (d : FlaskProjectDetector) :=
         match ds with
         | [] => d
         | (n, sub) :: ds' =>
             if kept n then descend ds' (find_flask_files_in (root ++ [n]) sub d)
             else descend ds' d
         end) dirs d2
  end.

Definition _find_flask_files (t : tree) (d : FlaskProjectDetector)
    : FlaskProjectDetector :=
  find_flask_files_in (project_path d) t d.

Section Analysis.

(** [ast.parse]: the body of the module, or [None] for a
    [SyntaxError]. *)
Variable ast_parse : string -> option (list Ast.node).

(** [open(file_path).read()] on the tree under the project root. *)
Definition read (t : tree) (d : FlaskProjectDetector) (p : path) : option string :=
  relative_to (project_path d) p ≫= tree_read t.

(** [_is_flask_instance] on the value of an assignment, which the caller
    has checked to be a call. *)
Definition _is_flask_instance (e : Ast.expr) : bool :=
  match e with
  | Ast.Call (Ast.Name id) => bool_decide (id = "Flask")
  | Ast.Call (Ast.Attribute _ attr) => bool_decide (attr = "Flask")
  | _ => false
  end.

Definition factory_names : list string :=
  ["create_app"; "make_app"; "get_app"; "setup_app"; "init_app"].

(** [_is_factory_function(node, content)] for a [FunctionDef]. *)
Definition _is_factory_function (name : string) (lineno end_lineno : nat)
    (content : string) : bool :=
  if bool_decide (name ∈ factory_names) then true
  else
    let function_body :=
      Text.join_lines
        (Text.slice (lineno - 1) end_lineno (Text.split_lines content)) in
    Text.contains "Flask(" function_body && Text.contains "return" function_body.

(** The instances one node of the walk adds to [app_instances]. *)
Definition node_instances (file_path : path) (n : Ast.node) : list entry :=
  match n with
  | Ast.Assign targets value lineno =>
      omap (fun target =>
              match target with
              | Ast.Name id =>
                  if _is_flask_instance value
                  then Some (Entry file_path id lineno) else None
              | _ => None
              end) targets
  | _ => []
  end.

(** The factories one node of the walk adds to [factory_functions]. *)
Definition node_factories (file_path : path) (content : string)
    (n : Ast.node) : list entry :=
  match n with
  | Ast.FunctionDef name _ _ lineno end_lineno =>
      if _is_factory_function name lineno end_lineno content
      then [Entry file_path name lineno] else []
  | _ => []
  end.

(** What one file adds to [app_instances] and [factory_functions]; a
    file that cannot be read or parsed adds nothing. *)
Definition file_instances (t : tree) (d : FlaskProjectDetector)
    (file_path : path) : list entry :=
  match read t d file_path with
  | Some content =>
      match ast_parse content with
      | Some body => Ast.walk body ≫= node_instances file_path
      | None => []
      end
  | None => []
  end.

Definition file_factories (t : tree) (d : FlaskProjectDetector)
    (file_path : path) : list entry :=
  match read t d file_path with
  | Some content =>
      match ast_parse content with
      | Some body => Ast.walk body ≫= node_factories file_path content
      | None => []
      end
  | None => []
  end.

Definition set_analysis (d : FlaskProjectDetector)
    (instances factories : list entry) : FlaskProjectDetector :=
  {| project_path := project_path d;
     app_files := app_files d; blueprint_files := blueprint_files d;
     template_dirs := template_dirs d; static_dirs := static_dirs d;
     model_files := model_files d; route_files := route_files d;
     config_files := config_files d;
     app_instances := instances;
     factory_functions := factories;
     detected_structure := detected_structure d;
     db_type := db_type d; auth_system := auth_system d |}.

(** [_analyze_app_files]: the loop over [self.app_files]. *)
Definition _analyze_app_files (t : tree) (d : FlaskProjectDetector)
    : FlaskProjectDetector :=
  foldl (fun d' file_path =>
           set_analysis d'
             (app_instances d' ++ file_instances t d file_path)
             (factory_functions d' ++ file_factories t d file_path))
        d (app_files d).

Definition set_structure (d : FlaskProjectDetector) (st : Structure)
    : FlaskProjectDetector :=
  {| project_path := project_path d;
     app_files := app_files d; blueprint_files := blueprint_files d;
     template_dirs := template_dirs d; static_dirs := static_dirs d;
     model_files := model_files d; route_files := route_files d;
     config_files := config_files d;
     app_instances := app_instances d;
     factory_functions := factory_functions d;
     detected_structure := st;
     db_type := db_type d; auth_system := auth_system d |}.

Definition set_pattern (st : Structure) (pattern : string)
    (factory instance : option entry) : Structure :=
  {| st_pattern := Some pattern;
     st_factory_function :=
       match factory with Some f => Some f | None => st_factory_function st end;
     st_app_instance :=
       match instance with Some a => Some a | None => st_app_instance st end;
     st_database := st_database st; st_auth := st_auth st;
     st_project_path := st_project_path st;
     st_app_files := st_app_files st;
     st_blueprint_files := st_blueprint_files st;
     st_template_dirs := st_template_dirs st;
     st_static_dirs := st_static_dirs st;
     st_model_files := st_model_files st;
     st_route_files := st_route_files st;
     st_config_files := st_config_files st |}.

(** [_detect_project_pattern] *)
Definition _detect_project_pattern (d : FlaskProjectDetector)
    : FlaskProjectDetector :=
  let st := detected_structure d in
  match factory_functions d with
  | f :: _ => set_structure d (set_pattern st "factory" (Some f) None)
  | [] =>
      match app_instances d with
      | a :: _ =>
          match blueprint_files d with
          | _ :: _ => set_structure d (set_pattern st "modular" None (Some a))
          | [] => set_structure d (set_pattern st "monolithic" None (Some a))
          end
      | [] => set_structure d (set_pattern st "unknown" None None)
      end
  end.

(** The table [db_patterns], in the order of the dictionary. *)
Definition db_patterns : list (string * list Re.regex) :=
  [("sqlite", [Re.Lit "sqlite://"; Re.Lit "sqlite:///"; Re.Lit ".db"]);
   ("postgresql", [Re.Lit "postgresql://"; Re.Lit "postgres://"; Re.Lit "psycopg2"]);
   ("mysql", [Re.Lit "mysql://"; Re.Lit "pymysql"; Re.Lit "mysqlclient"]);
   ("mongodb", [Re.Lit "mongodb://"; Re.Lit "pymongo"; Re.Lit "MongoEngine"])].

(** The table [auth_patterns]. *)
Definition auth_patterns : list (string * list Re.regex) :=
  [("flask_login", [Re.Lit "flask_login"; Re.Lit "LoginManager"; Re.Lit "current_user"]);
   ("jwt", [Re.Lit "jwt"; Re.Lit "JWT"; Re.Lit "JWTManager"; Re.Lit "create_access_token"]);
   ("oauth", [Re.Lit "oauth"; Re.Lit "OAuth"; Re.Lit "OAuthlib"]);
   ("session", [Re.Lit "session["; Re.Lit "session."])].

(** The two inner loops of [_detect_database] and [_detect_auth_system]:
    the first kind of the table one of whose patterns is found. *)
Fixpoint first_kind (table : list (string * list Re.regex)) (content : string)
    : option string :=
  match table with
  | [] => None
  | (kind, patterns) :: table' =>
      if existsb (fun pattern => bool_decide (is_Some (Re.search pattern content)))
                 patterns
      then Some kind
      else first_kind table' content
  end.

(** The outer loop: the first file, in the order given, that can be read
    and has a kind. *)
Fixpoint scan_files (table : list (string * list Re.regex))
    (t : tree) (d : FlaskProjectDetector) (files : list path)
    : option kind_info :=
  match files with
  | [] => None
  | file_path :: files' =>
      match read t d file_path ≫= first_kind table with
      | Some kind => Some (KindInfo kind (Some file_path))
      | None => scan_files table t d files'
      end
  end.

Definition set_database (d : FlaskProjectDetector) (ty : option string)
    (info : kind_info) : FlaskProjectDetector :=
  let st := detected_structure d in
  {| project_path := project_path d;
     app_files := app_files d; blueprint_files := blueprint_files d;
     template_dirs := template_dirs d; static_dirs := static_dirs d;
     model_files := model_files d; route_files := route_files d;
     config_files := config_files d;
     app_instances := app_instances d;
     factory_functions := factory_functions d;
     detected_structure :=
       {| st_pattern := st_pattern st;
          st_factory_function := st_factory_function st;
          st_app_instance := st_app_instance st;
          st_database := Some info; st_auth := st_auth st;
          st_project_path := st_project_path st;
          st_app_files := st_app_files st;
          st_blueprint_files := st_blueprint_files st;
          st_template_dirs := st_template_dirs st;
          st_static_dirs := st_static_dirs st;
          st_model_files := st_model_files st;
          st_route_files := st_route_files st;
          st_config_files := st_config_files st |};
     db_type := ty; auth_system := auth_system d |}.

(** [_detect_database] *)
Definition _detect_database (t : tree) (d : FlaskProjectDetector)
    : FlaskProjectDetector :=
  match scan_files db_patterns t d (app_files d ++ config_files d) with
  | Some info => set_database d (Some (k_type info)) info
  | None =>
      match model_files d with
      | m :: _ => set_database d (Some "unknown_sql") (KindInfo "unknown_sql" (Some m))
      | [] => set_database d (db_type d) (KindInfo "none" None)
      end
  end.

Definition set_auth (d : FlaskProjectDetector) (ty : option string)
    (info : kind_info) : FlaskProjectDetector :=
  let st := detected_structure d in
  {| project_path := project_path d;
     app_files := app_files d; blueprint_files := blueprint_files d;
     template_dirs := template_dirs d; static_dirs := static_dirs d;
     model_files := model_files d; route_files := route_files d;
     config_files := config_files d;
     app_instances := app_instances d;
     factory_functions := factory_functions d;
     detected_structure :=
       {| st_pattern := st_pattern st;
          st_factory_function := st_factory_function st;
          st_app_instance := st_app_instance st;
          st_database := st_database st; st_auth := Some info;
          st_project_path := st_project_path st;
          st_app_files := st_app_files st;
          st_blueprint_files := st_blueprint_files st;
          st_template_dirs := st_template_dirs st;
          st_static_dirs := st_static_dirs st;
          st_model_files := st_model_files st;
          st_route_files := st_route_files st;
          st_config_files := st_config_files st |};
     db_type := db_type d; auth_system := ty |}.

(** [_detect_auth_system] *)
Definition _detect_auth_system (t : tree) (d : FlaskProjectDetector)
    : FlaskProjectDetector :=
  match scan_files auth_patterns t d (app_files d) with
  | Some info => set_auth d (Some (k_type info)) info
  | None => set_auth d (auth_system d) (KindInfo "none" None)
  end.

(** [_build_structure_map] *)
Definition _build_structure_map (d : FlaskProjectDetector)
    : FlaskProjectDetector :=
  let st := detected_structure d in
  set_structure d
    {| st_pattern := st_pattern st;
       st_factory_function := st_factory_function st;
       st_app_instance := st_app_instance st;
       st_database := st_database st; st_auth := st_auth st;
       st_project_path := project_path d;
       st_app_files := app_files d;
       st_blueprint_files := blueprint_files d;
       st_template_dirs := template_dirs d;
       st_static_dirs := static_dirs d;
       st_model_files := model_files d;
       st_route_files := route_files d;
       st_config_files := config_files d |}.

(** [detect]: the detector after the call, whose [detected_structure] is
    the dictionary the call returns. *)
Definition detect (t : tree) (d : FlaskProjectDetector) : FlaskProjectDetector :=
  let d1 := _find_flask_files t d in
  let d2 := _analyze_app_files t d1 in
  let d3 := _detect_project_pattern d2 in
  let d4 := _detect_database t d3 in
  let d5 := _detect_auth_system t d4 in
  _build_structure_map d5.

(** [detect_flask_project(project_path)]: a new detector for each call. *)
Definition detect_flask_project (project_path : path) (t : tree) : Structure :=
  detected_structure (detect t (init project_path)).

End Analysis.

End Detector.

(** ** The records the three engines exchange *)

(** A route of [get_routes]: [methods] and [function] are [None] when the
    pattern read no method list and when no definition was found after the
    decorator. *)
Record Route : Type := {
  r_file : path;
  r_app_or_blueprint : string;
  r_path : string;
  r_methods : option string;
  r_function : option string
}.

(** A template of [get_templates]. *)
Record Template : Type := {
  t_path : path;
  t_relative_path : string;
  t_name : string
}.

(** An issue: the dictionary that diagnosis appends, by its ['type']. *)
Inductive Issue : Type :=
| missing_return (file : path) (function : string) (line : nat)
| duplicate_route (file : path) (route_path : string) (function : option string)
| unspecified_methods (file : path) (route_path : string) (function : option string)
| missing_template (template : string) (references : list path)
| unclosed_block (template : string) (block : string)
| invalid_url_for (template : string) (endpoint : string)
| unused_template (template : string)
| no_database
| empty_model (file : path) (model : string)
| user_model_without_password (file : path) (model : string)
| unused_import (file : path) (import : string) (line : nat)
| unused_variable (file : path) (variable : string) (line : nat)
| hardcoded_secret (file : path) (line : nat) (description : string)
| insecure_config (file : path) (description : string)
| n_plus_1_query (file : path) (line : nat)
| missing_eager_loading (file : path).

(** The value of the key ['type']. *)
Definition issue_type (i : Issue) : string :=
  match i with
  | missing_return _ _ _ => "missing_return"
  | duplicate_route _ _ _ => "duplicate_route"
  | unspecified_methods _ _ _ => "unspecified_methods"
  | missing_template _ _ => "missing_template"
  | unclosed_block _ _ => "unclosed_block"
  | invalid_url_for _ _ => "invalid_url_for"
  | unused_template _ => "unused_template"
  | no_database => "no_database"
  | empty_model _ _ => "empty_model"
  | user_model_without_password _ _ => "user_model_without_password"
  | unused_import _ _ _ => "unused_import"
  | unused_variable _ _ _ => "unused_variable"
  | hardcoded_secret _ _ _ => "hardcoded_secret"
  | insecure_config _ _ => "insecure_config"
  | n_plus_1_query _ _ => "n_plus_1_query"
  | missing_eager_loading _ => "missing_eager_loading"
  end.

(** The value of the key ['severity'], which the source writes as a literal
    in each dictionary. *)
Definition severity (i : Issue) : string :=
  match i with
  | missing_return _ _ _ | duplicate_route _ _ _ | missing_template _ _
  | unclosed_block _ _ | invalid_url_for _ _ | hardcoded_secret _ _ _ => "high"
  | unspecified_methods _ _ _ | no_database | empty_model _ _
  | user_model_without_password _ _ | insecure_config _ _
  | n_plus_1_query _ _ => "medium"
  | unused_template _ | unused_import _ _ _ | unused_variable _ _ _
  | missing_eager_loading _ => "low"
  end.

(** The dictionary [issues], one list for each category. *)
Record Issues : Type := {
  i_routes : list Issue;
  i_templates : list Issue;
  i_database : list Issue;
  i_code : list Issue;
  i_security : list Issue;
  i_performance : list Issue
}.

Definition no_issues : Issues :=
  {| i_routes := []; i_templates := []; i_database := []; i_code := [];
     i_security := []; i_performance := [] |}.

(** The files that diagnosis reads and healing rewrites: the regular files
    with their text, and the directories. *)
Record FS : Type := { files : gmap path string; dirs : gset path }.

(** [open(p, 'r').read()]: [None] when the open fails. *)
Definition read_text (fs : FS) (p : path) : option string := files fs !! p.

(** ** Diagnostic: [core/diagnostic.py] *)

Module Diagnostic.
Import Detector.

Section Diagnostic.

Variable ast_parse : string -> option (list Ast.node).

(** The decorator test of [_diagnose_routes]: a call of an attribute
    named [route]. *)
Definition is_route_decorator (e : Ast.expr) : bool :=
  match e with
  | Ast.Call (Ast.Attribute _ attr) => bool_decide (attr = "route")
  | _ => false
  end.

Definition has_return (n : Ast.node) : bool :=
  existsb Ast.is_Return (Ast.walk_node n).

(** The issue one node of the walk adds. *)
Definition node_missing_return (route_file : path) (n : Ast.node) : list Issue :=
  match n with
  | Ast.FunctionDef name decorator_list _ lineno _ =>
      if existsb is_route_decorator decorator_list && negb (has_return n)
      then [missing_return route_file name lineno] else []
  | _ => []
  end.

(** The first loop of [_diagnose_routes] for one file. *)
Definition file_missing_return (fs : FS) (route_file : path) : list Issue :=
  match read_text fs route_file with
  | Some content =>
      match ast_parse content with
      | Some body => Ast.walk body ≫= node_missing_return route_file
      | None => []
      end
  | None => []
  end.

(** The second loop: [route_paths] is the dictionary of the paths seen. *)
Fixpoint duplicate_routes (routes : list Route) (route_paths : gmap string Route)
    : list Issue :=
  match routes with
  | [] => []
  | route :: routes' =>
      match route_paths !! r_path route with
      | Some _ =>
          duplicate_route (r_file route) (r_path route) (r_function route)
          :: duplicate_routes routes' route_paths
      | None => duplicate_routes routes' (<[r_path route := route]> route_paths)
      end
  end.

(** The third loop: [not route.get('methods')]. *)
Definition route_unspecified (route : Route) : list Issue :=
  match r_methods route with
  | None | Some EmptyString =>
      [unspecified_methods (r_file route) (r_path route) (r_function route)]
  | Some _ => []
  end.

Definition add_routes (iss : Issues) (l : list Issue) : Issues :=
  {| i_routes := i_routes iss ++ l; i_templates := i_templates iss;
     i_database := i_database iss; i_code := i_code iss;
     i_security := i_security iss; i_performance := i_performance iss |}.

Definition add_templates (iss : Issues) (l : list Issue) : Issues :=
  {| i_routes := i_routes iss; i_templates := i_templates iss ++ l;
     i_database := i_database iss; i_code := i_code iss;
     i_security := i_security iss; i_performance := i_performance iss |}.

Definition add_security (iss : Issues) (l : list Issue) : Issues :=
  {| i_routes := i_routes iss; i_templates := i_templates iss;
     i_database := i_database iss; i_code := i_code iss;
     i_security := i_security iss ++ l; i_performance := i_performance iss |}.

(** [_diagnose_routes]; [routes] is [self.detector.get_routes()]. *)
Definition _diagnose_routes (structure : Structure) (fs : FS)
    (routes : list Route) (iss : Issues) : Issues :=
  add_routes iss
    ((st_route_files structure ≫= file_missing_return fs)
     ++ duplicate_routes routes ∅
     ++ (routes ≫= route_unspecified)).

(** The patterns of [_diagnose_templates]. *)
Definition block_re : Re.regex :=
  Re.seq [Re.Lit "{%"; Re.Rep Text.is_space 0; Re.Lit "block";
          Re.Rep Text.is_space 1; Re.Grp (Re.Rep Text.is_word 1);
          Re.Rep Text.is_space 0; Re.Lit "%}"].

Definition endblock_re (block : string) : Re.regex :=
  Re.seq [Re.Lit "{%"; Re.Rep Text.is_space 0; Re.Lit "endblock";
          Re.Rep Text.is_space 0; Re.Opt (Re.Lit block);
          Re.Rep Text.is_space 0; Re.Lit "%}"].

Definition url_for_re : Re.regex :=
  Re.seq [Re.Lit "url_for("; Re.Rep Text.is_space 0; Re.Chr Re.quote;
          Re.Grp (Re.Rep Re.not_quote 1); Re.Chr Re.quote].

Definition template_matches (name : string) (template : Template) : bool :=
  bool_decide (t_relative_path template = name) || bool_decide (t_name template = name).

(** The f-string [{route['app_or_blueprint']}.{route['function']}]. *)
Definition dotted (route : Route) : string :=
  r_app_or_blueprint route +:+ "." +:+ default "None" (r_function route).

Definition endpoint_exists (routes : list Route) (ref : string) : bool :=
  existsb (fun route => bool_decide (r_function route = Some ref) ||
                        bool_decide (dotted route = ref)) routes.

(** The unclosed blocks of one template text. *)
Definition unclosed_blocks (relative_path content : string) : list Issue :=
  Re.findall1 block_re content ≫= (fun block =>
    if bool_decide (is_Some (Re.search (endblock_re block) content))
    then [] else [unclosed_block relative_path block]).

(** The invalid [url_for] references of one template text. *)
Definition invalid_url_fors (routes : list Route) (relative_path content : string)
    : list Issue :=
  Re.findall1 url_for_re content ≫= (fun ref =>
    if endpoint_exists routes ref then []
    else [invalid_url_for relative_path ref]).

(** The second loop of [_diagnose_templates] for one template. *)
Definition template_issues (fs : FS) (routes : list Route) (template : Template)
    : list Issue :=
  match read_text fs (t_path template) with
  | Some content =>
      unclosed_blocks (t_relative_path template) content
      ++ invalid_url_fors routes (t_relative_path template) content
  | None => []
  end.

(** [_diagnose_templates]; [templates], [template_references] and
    [routes] are what the detector's accessors return, the references
    in the order of the dictionary. *)
Definition _diagnose_templates (fs : FS) (templates : list Template)
    (template_references : list (string * list path)) (routes : list Route)
    (iss : Issues) : Issues :=
  add_templates iss
    ((template_references ≫= (fun '(template_name, references) =>
        if existsb (template_matches template_name) templates then []
        else [missing_template template_name references]))
     ++ (templates ≫= template_issues fs routes)
     ++ (templates ≫= (fun template =>
           if existsb (fun '(referenced, _) => template_matches referenced template)
                      template_references
           then [] else [unused_template (t_relative_path template)]))).

(** The quoted literal of at least [n] characters of the secret
    patterns. *)
Definition secret_re (name : string) (n : nat) : Re.regex :=
  Re.seq [Re.LitI name; Re.Rep Text.is_space 0; Re.Lit "=";
          Re.Rep Text.is_space 0; Re.Chr Re.quote;
          Re.Grp (Re.Rep Re.not_quote n); Re.Chr Re.quote].

(** [secret_patterns], read under [re.IGNORECASE]. *)
Definition secret_patterns : list (Re.regex * string) :=
  [(secret_re "SECRET_KEY" 10, "SECRET_KEY hardcoded");
   (secret_re "password" 6, "Senha hardcoded");
   (secret_re "api_key" 10, "API key hardcoded");
   (secret_re "token" 10, "Token hardcoded")].

Definition config_re (name value : string) : Re.regex :=
  Re.seq [Re.Lit name; Re.Rep Text.is_space 0; Re.Lit "=";
          Re.Rep Text.is_space 0; Re.Lit value].

(** [insecure_configs] *)
Definition insecure_configs : list (Re.regex * string) :=
  [(config_re "DEBUG" "True",
    "DEBUG=True em produ" +:+ Text.c_cedilla +:+ Text.a_tilde +:+ "o "
    +:+ Text.e_acute +:+ " inseguro");
   (config_re "TESTING" "True",
    "TESTING=True em produ" +:+ Text.c_cedilla +:+ Text.a_tilde +:+ "o "
    +:+ Text.e_acute +:+ " inseguro");
   (config_re "WTF_CSRF_ENABLED" "False",
    "CSRF prote" +:+ Text.c_cedilla +:+ Text.a_tilde +:+ "o desativada");
   (config_re "SQLALCHEMY_TRACK_MODIFICATIONS" "True",
    "SQLALCHEMY_TRACK_MODIFICATIONS=True impacta performance")].

(** The hard-coded secrets of one file. *)
Definition file_secrets (fs : FS) (file_path : path) : list Issue :=
  match read_text fs file_path with
  | Some content =>
      secret_patterns ≫= (fun '(pattern, description) =>
        (fun m : nat * string * list string =>
           hardcoded_secret file_path
             (Text.count_nl (Text.stake (fst (fst m)) content) + 1)
             description) <$> Re.finditer pattern content)
  | None => []
  end.

(** The insecure settings of one file. *)
Definition file_configs (fs : FS) (file_path : path) : list Issue :=
  match read_text fs file_path with
  | Some content =>
      insecure_configs ≫= (fun '(pattern, description) =>
        if bool_decide (is_Some (Re.search pattern content))
        then [insecure_config file_path description] else [])
  | None => []
  end.

(** [_diagnose_security] *)
Definition _diagnose_security (structure : Structure) (fs : FS)
    (iss : Issues) : Issues :=
  let scanned := st_app_files structure ++ st_config_files structure in
  add_security iss
    ((scanned ≫= file_secrets fs) ++ (scanned ≫= file_configs fs)).

(** [diagnose] of a new engine, for the categories of routes, templates
    and security.  The passes over the database, the code and the
    performance append to their own three lists only. *)
Definition diagnose (structure : Structure) (fs : FS)
    (routes : list Route) (templates : list Template)
    (template_references : list (string * list path)) : Issues :=
  _diagnose_security structure fs
    (_diagnose_templates fs templates template_references routes
       (_diagnose_routes structure fs routes no_issues)).

End Diagnostic.

End Diagnostic.

(** ** Healing: [core/healing.py] *)

Module Healing.
Import Detector.

(** A fix: the dictionary that healing appends, by its ['type']. *)
Inductive Fix : Type :=
| added_return (file : path) (function template : string)
| created_template (template : string) (template_path : path)
| closed_block (template block : string)
| fixed_url_for (template old_endpoint new_endpoint : string)
| added_password_field (file : path) (model : string)
| removed_unused_import (file : path) (import : string)
| removed_unused_variable (file : path) (variable : string)
| fixed_hardcoded_secret (file : path) (line : nat)
| fixed_insecure_config (file : path)
| added_n_plus_1_warning (file : path) (line : nat)
| added_eager_loading_warning (file : path).

Inductive category : Type :=
| routes | templates | database | code | security | performance.

(** The dictionary [fixes]. *)
Record Fixes : Type := {
  f_routes : list Fix;
  f_templates : list Fix;
  f_database : list Fix;
  f_code : list Fix;
  f_security : list Fix;
  f_performance : list Fix
}.

Definition no_fixes : Fixes :=
  {| f_routes := []; f_templates := []; f_database := []; f_code := [];
     f_security := []; f_performance := [] |}.

Definition append_fix (c : category) (x : Fix) (f : Fixes) : Fixes :=
  {| f_routes := if c is routes then f_routes f ++ [x] else f_routes f;
     f_templates := if c is templates then f_templates f ++ [x] else f_templates f;
     f_database := if c is database then f_database f ++ [x] else f_database f;
     f_code := if c is code then f_code f ++ [x] else f_code f;
     f_security := if c is security then f_security f ++ [x] else f_security f;
     f_performance :=
       if c is performance then f_performance f ++ [x] else f_performance f |}.

(** The state a healing session changes: the files, [self.backup_dir] and
    [self.fixes]. *)
Record HealingEngine : Type := {
  disk : FS;
  backup_dir : option path;
  fixes : Fixes
}.

(** *** The file operations *)

Definition is_file (fs : FS) (p : path) : bool :=
  bool_decide (is_Some (files fs !! p)).

(** The root is a directory. *)
Definition is_dir (fs : FS) (p : path) : bool :=
  bool_decide (p = []) || bool_decide (p ∈ dirs fs).

(** [p.exists()] *)
Definition path_exists (fs : FS) (p : path) : bool := is_file fs p || is_dir fs p.

(** [p.parent] *)
Definition parent (p : path) : path := take (length p - 1) p.

(** [p.name] *)
Definition name_of (p : path) : string := default EmptyString (last p).

(** The path and its ancestors below the root, the nearest to the root
    first. *)
Definition prefixes (p : path) : list path :=
  (fun n => take n p) <$> seq 1 (length p).

(** [open(p, 'w').write(content)]: fails on a directory and where the
    parent is not a directory. *)
Definition open_write (fs : FS) (p : path) (content : string) : option FS :=
  if is_dir fs p then None
  else if is_dir fs (parent p)
       then Some {| files := <[p := content]> (files fs); dirs := dirs fs |}
       else None.

(** [p.mkdir(parents=True, exist_ok=True)]: fails where the path or an
    ancestor is a regular file. *)
Definition mkdir_parents (fs : FS) (p : path) : option FS :=
  if existsb (is_file fs) (prefixes p) then None
  else Some {| files := files fs; dirs := dirs fs ∪ list_to_set (prefixes p) |}.

(** Where [shutil.copy2(src, dst)] writes: into [dst] when it is a
    directory. *)
Definition copy_target (fs : FS) (src dst : path) : path :=
  if is_dir fs dst then dst ++ [name_of src] else dst.

(** [shutil.copy2(src, dst)] *)
Definition copy2 (fs : FS) (src dst : path) : option FS :=
  match read_text fs src with
  | Some content =>
      if bool_decide (src = copy_target fs src dst) then None
      else open_write fs (copy_target fs src dst) content
  | None => None
  end.

(** The components of a path written with slashes. *)
Definition components (s : string) : path :=
  filter (fun c => c ≠ EmptyString ∧ c ≠ ".") (Text.split "/" s).

(** [base / name] *)
Definition path_join (base : path) (name : string) : path :=
  if Text.startswith "/" name then components name else base ++ components name.

(** *** The healing monad: state, [continue] and exceptions *)

Inductive result (A : Type) : Type :=
| Ok (a : A)
| Skip          (* [continue]: the rest of the loop body is passed over *)
| Raised.       (* an exception on its way to the enclosing [except] *)
Arguments Ok {A} a.
Arguments Skip {A}.
Arguments Raised {A}.

Definition M (A : Type) : Type := HealingEngine -> HealingEngine * result A.

Definition ret {A} (a : A) : M A := fun s => (s, Ok a).

Definition bind {A B} (m : M A) (k : A -> M B) : M B :=
  fun s =>
    match m s with
    | (s', Ok a) => k a s'
    | (s', Skip) => (s', Skip)
    | (s', Raised) => (s', Raised)
    end.

Notation "'let*' x ':=' m 'in' k" := (bind m (fun x => k))
  (at level 10, x name, m at level 100, k at level 200, only parsing).

Definition raise {A} : M A := fun s => (s, Raised).
Definition continue {A} : M A := fun s => (s, Skip).

(** [try: m except Exception: log] as the body of a loop. *)
Definition try_ (m : M unit) (s : HealingEngine) : HealingEngine := fst (m s).

Definition get_disk : M FS := fun s => (s, Ok (disk s)).
Definition get_backup_dir : M (option path) := fun s => (s, Ok (backup_dir s)).

Definition set_backup_dir (b : path) : M unit :=
  fun s => ({| disk := disk s; backup_dir := Some b; fixes := fixes s |}, Ok tt).

Definition record_fix (c : category) (x : Fix) : M unit :=
  fun s => ({| disk := disk s; backup_dir := backup_dir s;
               fixes := append_fix c x (fixes s) |}, Ok tt).

(** A file operation that raises where it fails. *)
Definition on_disk (f : FS -> option FS) : M unit :=
  fun s =>
    match f (disk s) with
    | Some fs' => ({| disk := fs'; backup_dir := backup_dir s; fixes := fixes s |}, Ok tt)
    | None => (s, Raised)
    end.

Definition from_option {A} (o : option A) : M A :=
  match o with Some a => ret a | None => raise end.

(** [with open(p, 'r') as f: content = f.read()] *)
Definition read_file (p : path) : M string :=
  let* fs := get_disk in from_option (read_text fs p).

(** [with open(p, 'w') as f: f.write(content)] *)
Definition write_file (p : path) (content : string) : M unit :=
  on_disk (fun fs => open_write fs p content).

(** *** The text of each repair *)

Definition is_import_line (line : string) : bool :=
  Text.startswith "import " line || Text.startswith "from " line.

(** The loop that looks for the last import line: its index, [0] when
    there is none. *)
Fixpoint last_import_go (lines : list string) (i acc : nat) : nat :=
  match lines with
  | [] => acc
  | line :: lines' => last_import_go lines' (S i) (if is_import_line line then i else acc)
  end.

Definition last_import_line (lines : list string) : nat := last_import_go lines 0 0.

(** The three ways a name is added to an import line. *)
Definition extend_import (line name : string) : string :=
  if Text.endswith "," line then line +:+ " " +:+ name +:+ ","
  else if Text.endswith ")" line then Text.drop_last line +:+ ", " +:+ name +:+ ")"
  else line +:+ ", " +:+ name.

(** A loop over the lines that rewrites the first line with the property
    and breaks. *)
Fixpoint update_first (P : string -> bool) (f : string -> string)
    (lines : list string) : list string :=
  match lines with
  | [] => []
  | line :: lines' => if P line then f line :: lines' else line :: update_first P f lines'
  end.

(** [_infer_template_for_route] *)
Definition crud_mapping : list (string * string) :=
  [("list", "list.html"); ("show", "show.html"); ("create", "create.html");
   ("edit", "edit.html"); ("delete", "delete.html")].

Definition _infer_template_for_route (function_name : string) (file_path : path)
    : string :=
  let file_dir := name_of (parent file_path) in
  let blueprint_prefix :=
    if bool_decide (file_dir = "routes") then EmptyString else file_dir +:+ "/" in
  if bool_decide (function_name = "index") || bool_decide (function_name = "home")
  then blueprint_prefix +:+ "index.html"
  else
    match list_find (fun '(crud_action, _) =>
                       Text.startswith crud_action function_name ||
                       Text.endswith crud_action function_name) crud_mapping with
    | Some (_, (crud_action, template_suffix)) =>
        let resource :=
          Text.replace ("_" +:+ crud_action) EmptyString
            (Text.replace (crud_action +:+ "_") EmptyString function_name) in
        blueprint_prefix +:+ resource +:+ "/" +:+ template_suffix
    | None => blueprint_prefix +:+ function_name +:+ ".html"
    end.

(** The function definition the repair of a missing [return] works on:
    the first of the walk with the name whose lines are in the text. *)
Definition function_named (function_name content : string) (n : Ast.node) : bool :=
  match n with
  | Ast.FunctionDef name _ _ lineno end_lineno =>
      bool_decide (name = function_name) &&
      bool_decide (Text.slice (lineno - 1) end_lineno (Text.split_lines content) ≠ [])
  | _ => false
  end.

(** The import of [render_template], where the text does not mention it. *)
Definition import_render_template (content : string) (lines : list string)
    : list string :=
  if Text.contains "render_template" content then lines
  else if Text.contains "from flask import" content then
    update_first (Text.startswith "from flask import")
      (fun line => if Text.contains "render_template" line then line
                   else extend_import line "render_template")
      lines
  else Text.list_insert_at (last_import_line lines + 1)
         "from flask import render_template" lines.

(** The text written for a missing [return] in the definition found. *)
Definition add_return (content template_name : string) (body : list Ast.node)
    (lineno end_lineno : nat) : string :=
  let function_lines := Text.slice (lineno - 1) end_lineno (Text.split_lines content) in
  let first_line := default EmptyString (head function_lines) in
  let base_indent := Text.leading_space first_line in
  let body_indent := base_indent +:+ "    " in
  let function_end := end_lineno - 1 in
  let lines := import_render_template content (Text.split_lines content) in
  let return_line :=
    body_indent +:+ "return render_template('" +:+ template_name +:+ "')" in
  Text.join_lines
    (match body with
     | _ :: _ => Text.list_insert_at function_end return_line lines
     | [] => Text.list_insert_at lineno return_line lines
     end).

(** The patterns of the repair of an unclosed block. *)
Definition block_open_re (block : string) : Re.regex :=
  Re.seq [Re.Lit "{%"; Re.Rep Text.is_space 0; Re.Lit "block";
          Re.Rep Text.is_space 1; Re.Lit block; Re.Rep Text.is_space 0; Re.Lit "%}"].

Definition next_block_re : Re.regex :=
  Re.seq [Re.Lit "{%"; Re.Rep Text.is_space 0; Re.Lit "block"; Re.Rep Text.is_space 1].

Definition endblock_tag (block : string) : string := "{% endblock " +:+ block +:+ " %}".

(** The text written for an unclosed block, [None] where nothing is
    written. *)
Definition close_block (block content : string) : option string :=
  if bool_decide (is_Some (Re.search (Diagnostic.endblock_re block) content)) then None
  else
    match Re.search (block_open_re block) content with
    | Some (start, matched, _) =>
        let block_start := start + String.length matched in
        match Re.search next_block_re (Text.sdrop block_start content) with
        | Some (offset, _, _) =>
            let block_end := block_start + offset in
            Some (Text.stake block_end content +:+ endblock_tag block
                  +:+ String Text.nl (Text.sdrop block_end content))
        | None => Some (content +:+ String Text.nl (endblock_tag block))
        end
    | None => None
    end.

(** The endpoints the repair of [url_for] chooses from. *)
Definition route_endpoints (route : Route) : list (option string) :=
  r_function route ::
  match r_function route with
  | Some f =>
      if bool_decide (r_app_or_blueprint route ≠ EmptyString) &&
         bool_decide (f ≠ EmptyString)
      then [Some (r_app_or_blueprint route +:+ "." +:+ f)] else []
  | None => []
  end.

Definition url_for_ref_re (endpoint : string) : Re.regex :=
  Re.seq [Re.Lit "url_for("; Re.Rep Text.is_space 0; Re.Chr Re.quote;
          Re.Lit endpoint; Re.Rep Text.is_space 0; Re.Chr Re.quote].

(** The text written for an invalid endpoint, given the endpoint chosen. *)
Definition rewrite_url_for (endpoint similar content : string) : string :=
  Re.sub (url_for_ref_re endpoint) ("url_for('" +:+ similar +:+ "'") content.

(** The password field of a user model. *)
Definition class_named (model_name content : string) (n : Ast.node) : bool :=
  match n with
  | Ast.ClassDef name _ lineno end_lineno =>
      bool_decide (name = model_name) &&
      bool_decide (Text.slice (lineno - 1) end_lineno (Text.split_lines content) ≠ [])
  | _ => false
  end.

(** The loop over [imports_needed] on the first line that starts with
    [from sqlalchemy import]: each name is added to the line as it was
    read, so the line keeps the last name added. *)
Definition extend_sqlalchemy (imports_needed : list string) (line : string) : string :=
  foldl (fun acc imp => if Text.contains imp line then acc else extend_import line imp)
        line imports_needed.

Definition import_columns (content : string) (lines : list string) : list string :=
  let imports_needed :=
    (if Text.contains "Column" content then [] else ["Column"]) ++
    (if Text.contains "String" content then [] else ["String"]) in
  match imports_needed with
  | [] => lines
  | _ :: _ =>
      if Text.contains "from sqlalchemy import" content then
        update_first (Text.startswith "from sqlalchemy import")
                     (extend_sqlalchemy imports_needed) lines
      else Text.list_insert_at (last_import_line lines + 1)
             ("from sqlalchemy import " +:+ Text.join ", " imports_needed) lines
  end.

Definition is_column_line (line : string) : bool :=
  Text.contains "=" line &&
  (Text.contains "Column(" line || Text.contains "db.Column(" line).

(** The loop [for i in range(node.lineno, node.end_lineno)] that looks
    for the position after the last column. *)
Definition column_insert_pos (lines : list string) (lineno end_lineno : nat) : nat :=
  foldl (fun insert_pos i =>
           if is_column_line (default EmptyString (lines !! i)) then i + 1 else insert_pos)
        lineno (seq lineno (end_lineno - lineno)).

Definition add_password_field (content : string) (lineno end_lineno : nat) : string :=
  let model_lines := Text.slice (lineno - 1) end_lineno (Text.split_lines content) in
  let first_line := default EmptyString (head model_lines) in
  let attr_indent := Text.leading_space first_line +:+ "    " in
  let lines := import_columns content (Text.split_lines content) in
  let password_field := attr_indent +:+ "senha_hash = Column(String(128))" in
  Text.join_lines
    (Text.list_insert_at (column_insert_pos lines lineno end_lineno) password_field lines).

(** The line of an unused import: the lines after the repair, [None]
    where the repair raises. *)
Definition remove_import (import_name : string) (lines : list string)
    (line_index : nat) (line : string) : option (list string) :=
  if Text.startswith "import " line then
    if bool_decide (Text.strip line = "import " +:+ import_name)
    then Some (Text.list_pop line_index lines)
    else
      parts ← (λ rest, Text.split "," rest) <$> (Text.split "import " line !! 1);
      let new_parts := filter (fun part => Text.strip part ≠ import_name) parts in
      match new_parts with
      | _ :: _ => Some (<[line_index := "import " +:+ Text.join "," new_parts]> lines)
      | [] => Some (Text.list_pop line_index lines)
      end
  else if Text.startswith "from " line then
    from_rest ← Text.split "from " line !! 1;
    let module := Text.strip (default EmptyString (head (Text.split "import " from_rest))) in
    imports ← (λ rest, Text.split "," rest) <$> (Text.split "import " line !! 1);
    let import_item := default EmptyString (last (Text.split "." import_name)) in
    let new_imports := filter (fun imp => imp ≠ import_item) (Text.strip <$> imports) in
    match new_imports with
    | _ :: _ =>
        Some (<[line_index := "from " +:+ module +:+ " import "
                              +:+ Text.join ", " new_imports]> lines)
    | [] => Some (Text.list_pop line_index lines)
    end
  else Some lines.

(** [re.match] of the pattern for an assignment to the variable. *)
Definition assignment_re (variable_name : string) : Re.regex :=
  Re.seq [Re.Rep Text.is_space 0; Re.Lit variable_name; Re.Rep Text.is_space 0; Re.Lit "="].

Definition is_target (variable_name : string) (target : Ast.expr) : bool :=
  match target with
  | Ast.Name id => bool_decide (id = variable_name)
  | _ => false
  end.

(** The secret of a line. *)
Definition secret_key_re : Re.regex :=
  Re.seq [Re.Lit "SECRET_KEY"; Re.Rep Text.is_space 0; Re.Lit "=";
          Re.Rep Text.is_space 0; Re.Chr Re.quote;
          Re.Grp (Re.Rep Re.not_quote 1); Re.Chr Re.quote].

Definition secret_key_env : string :=
  "SECRET_KEY = os.environ.get('SECRET_KEY', 'development-key-CHANGE-ME-in-production')".

Definition secret_todo : string :=
  " # TODO: Mover para vari" +:+ Text.a_acute +:+ "vel de ambiente ou arquivo de configura"
  +:+ Text.c_cedilla +:+ Text.a_tilde +:+ "o".

(** The lines written for a hard-coded secret on the line [line_index],
    which is in range.  Where [import os] is added, the loop that looks
    for the last import leaves the last line of the file in the variable
    [line], and the substitution that follows reads it. *)
Definition replace_secret (content : string) (lines : list string)
    (line_index : nat) (line : string) : list string :=
  if Text.contains "SECRET_KEY" line then
    if negb (Text.contains "os.environ.get" content) &&
       negb (Text.contains "import os" content)
    then
      let line' := default line (last lines) in
      let lines' := Text.list_insert_at (last_import_line lines + 1) "import os" lines in
      <[line_index := Re.sub secret_key_re secret_key_env line']> lines'
    else <[line_index := Re.sub secret_key_re secret_key_env line]> lines
  else <[line_index := line +:+ secret_todo]> lines.

(** The text written for an insecure configuration. *)
Definition replace_configs (content : string) : string :=
  let content1 :=
    Text.replace "DEBUG = True"
      "DEBUG = os.environ.get('FLASK_ENV', 'production') != 'production'" content in
  let content2 :=
    Text.replace "TESTING = True"
      "TESTING = os.environ.get('FLASK_TESTING', 'False') == 'True'" content1 in
  let content3 :=
    Text.replace "WTF_CSRF_ENABLED = False"
      "WTF_CSRF_ENABLED = os.environ.get('FLASK_ENV', 'production') == 'production'"
      content2 in
  let content4 :=
    Text.replace "SQLALCHEMY_TRACK_MODIFICATIONS = True"
      "SQLALCHEMY_TRACK_MODIFICATIONS = False" content3 in
  if Text.contains "os.environ.get" content4 && negb (Text.contains "import os" content4)
  then
    let lines := Text.split_lines content4 in
    Text.join_lines (Text.list_insert_at (last_import_line lines + 1) "import os" lines)
  else content4.

Definition n_plus_1_todo : string :=
  " # TODO: Potencial problema de N+1 query, considere usar joinedload ou subqueryload".

Definition eager_todo : string :=
  " # TODO: Considere usar joinedload ou subqueryload para relacionamentos".

Definition query_re : Re.regex :=
  Re.seq [Re.Grp (Re.Rep Text.is_word 1); Re.Lit ".query.";
          Re.Alt (Re.Lit "all") (Re.Alt (Re.Lit "filter") (Re.Lit "get")); Re.Lit "("].

(** The lines the loop over the queries leaves: each round starts again
    from the text read, so the note is on the line of the last query;
    [None] where there is no query and [lines] is never bound. *)
Definition eager_lines (content : string) : option (list string) :=
  match last (Re.finditer query_re content) with
  | Some (start, _, _) =>
      let line_index := Text.count_nl (Text.stake start content) in
      let lines := Text.split_lines content in
      Some (match lines !! line_index with
            | Some line => <[line_index := line +:+ eager_todo]> lines
            | None => lines
            end)
  | None => None
  end.

(** The scaffold of [_ensure_template_exists] for a project without a
    base template. *)
Definition q : string := String Text.dquote EmptyString.
Definition pagina : string := "P" +:+ Text.a_acute +:+ "gina".

Definition template_standalone : string :=
  "<!DOCTYPE html>
<html lang=" +:+ q +:+ "pt-br" +:+ q +:+ ">
<head>
    <meta charset=" +:+ q +:+ "UTF-8" +:+ q +:+ ">
    <meta name=" +:+ q +:+ "viewport" +:+ q +:+ " content=" +:+ q
  +:+ "width=device-width, initial-scale=1.0" +:+ q +:+ ">
    <title>{{ title|default('" +:+ pagina +:+ "') }}</title>
    <link href=" +:+ q
  +:+ "https://cdn.jsdelivr.net/npm/bootstrap@5.3.0-alpha1/dist/css/bootstrap.min.css"
  +:+ q +:+ " rel=" +:+ q +:+ "stylesheet" +:+ q +:+ ">
</head>
<body>
    <div class=" +:+ q +:+ "container mt-4" +:+ q +:+ ">
        <div class=" +:+ q +:+ "card" +:+ q +:+ ">
            <div class=" +:+ q +:+ "card-header" +:+ q +:+ ">
                <h2>{{ title|default('" +:+ pagina +:+ "') }}</h2>
            </div>
            <div class=" +:+ q +:+ "card-body" +:+ q +:+ ">
                <p>Template gerado automaticamente.</p>
            </div>
        </div>
    </div>
    
    <script src=" +:+ q
  +:+ "https://cdn.jsdelivr.net/npm/bootstrap@5.3.0-alpha1/dist/js/bootstrap.bundle.min.js"
  +:+ q +:+ "></script>
</body>
</html>
".

Section Engine.

(** [ast.parse] *)
Variable ast_parse : string -> option (list Ast.node).

(** [self.detector.get_templates()] and [self.detector.get_routes()],
    which read the files as they are at the time of the call. *)
Variable get_templates : FS -> list Template.
Variable get_routes : FS -> list Route.

(** The three scores of [difflib.SequenceMatcher] for a candidate and
    the word looked for, [ratio] being [2.0*M/T] for [M] matched
    characters out of [T]; the scores are compared as rationals. *)
Variables real_quick_ratio quick_ratio ratio : string -> string -> Q.

(** The scaffold for a project with a base template.  The source writes
    it as an f-string whose Jinja braces are not escaped; its text is
    left open. *)
Variable template_extending : string -> string.

(** [self.structure], [self.issues] and the reading of the clock when
    the backup root is named. *)
Variable structure : Structure.
Variable issues : Issues.
Variable now : N.

(** [create_backups(backup_dir)] *)
Definition create_backups (backup_dir : option path) : M unit :=
  let root :=
    match backup_dir with
    | Some b => b
    | None => st_project_path structure ++ ["backups"; "backup_" +:+ pretty now]
    end in
  let* _ := set_backup_dir root in
  on_disk (fun fs => mkdir_parents fs root).

(** [backup_file(file_path)] *)
Definition backup_file (file_path : path) : M unit :=
  let* current := get_backup_dir in
  let* _ := (match current with
             | None => create_backups None
             | Some _ => ret tt
             end) in
  let* relative_path :=
    from_option (relative_to (st_project_path structure) file_path) in
  let* root := get_backup_dir in
  let* root := from_option root in
  let backup_path := root ++ relative_path in
  let* _ := on_disk (fun fs => mkdir_parents fs (parent backup_path)) in
  on_disk (fun fs => copy2 fs file_path backup_path).

(** [_ensure_template_exists(template_name)] *)
Definition _ensure_template_exists (template_name : string) : M unit :=
  match st_template_dirs structure with
  | [] => ret tt
  | template_dir :: _ =>
      let template_path := path_join template_dir template_name in
      let* fs := get_disk in
      if path_exists fs template_path then ret tt
      else
        let* _ := on_disk (fun fs => mkdir_parents fs (parent template_path)) in
        let* fs := get_disk in
        let base_template := "base.html" in
        let template_content :=
          if path_exists fs (path_join template_dir base_template)
          then template_extending base_template
          else template_standalone in
        let* _ := write_file template_path template_content in
        record_fix templates (created_template template_name template_path)
  end.

(** A loop [for x in l: try: body(x) except Exception: log]. *)
Definition for_each {A} (l : list A) (body : A -> M unit)
    (s : HealingEngine) : HealingEngine :=
  foldl (fun s x => try_ (body x) s) s l.

(** The body of the loop of [_heal_routes] for a missing [return]. *)
Definition heal_missing_return (file_path : path) (function_name : string) : M unit :=
  let* _ := backup_file file_path in
  let* content := read_file file_path in
  let* tree := from_option (ast_parse content) in
  match list_find (function_named function_name content) (Ast.walk tree) with
  | Some (_, Ast.FunctionDef _ _ body lineno end_lineno) =>
      let template_name := _infer_template_for_route function_name file_path in
      let* _ := write_file file_path
                  (add_return content template_name body lineno end_lineno) in
      let* _ := record_fix routes (added_return file_path function_name template_name) in
      _ensure_template_exists template_name
  | _ => ret tt
  end.

(** [_heal_routes] *)
Definition on_missing_return (issue : Issue) : M unit :=
  match issue with
  | missing_return file_path function_name _ =>
      heal_missing_return file_path function_name
  | _ => ret tt
  end.

Definition _heal_routes : HealingEngine -> HealingEngine :=
  for_each (i_routes issues) on_missing_return.

(** The loop that looks the template of an issue up, then the backup
    and the reading of its text. *)
Definition open_template (template : string) : M (path * string) :=
  let* fs := get_disk in
  match list_find (fun t => bool_decide (t_relative_path t = template))
                  (get_templates fs) with
  | Some (_, t) =>
      match t_path t with
      | [] => continue
      | _ :: _ =>
          let* _ := backup_file (t_path t) in
          let* content := read_file (t_path t) in
          ret (t_path t, content)
      end
  | None => continue
  end.

Definition heal_unclosed_block (template block : string) : M unit :=
  let* opened := open_template template in
  match close_block block opened.2 with
  | Some content =>
      let* _ := write_file opened.1 content in
      record_fix templates (closed_block template block)
  | None => ret tt
  end.

Definition cutoff : Q := 6 # 10.

(** The test of [get_close_matches] on a candidate. *)
Definition close_enough (word x : string) : bool :=
  Qle_bool cutoff (real_quick_ratio x word) &&
  Qle_bool cutoff (quick_ratio x word) &&
  Qle_bool cutoff (ratio x word).

(** The order of the pairs (score, candidate). *)
Definition greater (a b : Q * string) : bool :=
  negb (Qle_bool a.1 b.1) || (Qeq_bool a.1 b.1 && String.ltb b.2 a.2).

(** [difflib.get_close_matches(word, possibilities, n=1, cutoff=0.6)]:
    the scores are read from every candidate, which raises on [None];
    the greatest pair is the first one no later pair is greater than. *)
Definition get_close_matches (word : string) (possibilities : list (option string))
    : M (list string) :=
  if existsb (fun x => bool_decide (x = None)) possibilities then raise
  else
    let result :=
      (fun x => (ratio x word, x)) <$>
      filter (fun x => close_enough word x) (omap id possibilities) in
    match result with
    | [] => ret []
    | r :: rs => ret [(foldl (fun best x => if greater x best then x else best) r rs).2]
    end.

Definition heal_invalid_url_for (template endpoint : string) : M unit :=
  let* opened := open_template template in
  let* fs := get_disk in
  let endpoints := get_routes fs ≫= route_endpoints in
  match endpoints with
  | [] => ret tt
  | _ :: _ =>
      let* similar_endpoint := get_close_matches endpoint endpoints in
      match similar_endpoint with
      | similar :: _ =>
          let* _ := write_file opened.1 (rewrite_url_for endpoint similar opened.2) in
          record_fix templates (fixed_url_for template endpoint similar)
      | [] => ret tt
      end
  end.

(** [_heal_templates]: three loops over the issues of the templates. *)
Definition on_unclosed_block (issue : Issue) : M unit :=
  match issue with
  | unclosed_block template block => heal_unclosed_block template block
  | _ => ret tt
  end.

Definition on_invalid_url_for (issue : Issue) : M unit :=
  match issue with
  | invalid_url_for template endpoint => heal_invalid_url_for template endpoint
  | _ => ret tt
  end.

Definition on_missing_template (issue : Issue) : M unit :=
  match issue with
  | missing_template template _ => _ensure_template_exists template
  | _ => ret tt
  end.

Definition _heal_templates (s : HealingEngine) : HealingEngine :=
  let s1 := for_each (i_templates issues) on_unclosed_block s in
  let s2 := for_each (i_templates issues) on_invalid_url_for s1 in
  for_each (i_templates issues) on_missing_template s2.

Definition heal_user_model (file_path : path) (model_name : string) : M unit :=
  let* _ := backup_file file_path in
  let* content := read_file file_path in
  let* tree := from_option (ast_parse content) in
  match list_find (class_named model_name content) (Ast.walk tree) with
  | Some (_, Ast.ClassDef _ _ lineno end_lineno) =>
      let* _ := write_file file_path (add_password_field content lineno end_lineno) in
      record_fix database (added_password_field file_path model_name)
  | _ => ret tt
  end.

(** [_heal_database] *)
Definition on_user_model (issue : Issue) : M unit :=
  match issue with
  | user_model_without_password file_path model_name =>
      heal_user_model file_path model_name
  | _ => ret tt
  end.

Definition _heal_database : HealingEngine -> HealingEngine :=
  for_each (i_database issues) on_user_model.

(** The line [issue['line']] of the lines, or [continue]. *)
Definition line_at (lines : list string) (line : nat) : M (nat * string) :=
  match line with
  | 0 => continue
  | S line_index =>
      match lines !! line_index with
      | Some text => ret (line_index, text)
      | None => continue
      end
  end.

Definition heal_unused_import (file_path : path) (import_name : string) (line : nat)
    : M unit :=
  let* _ := backup_file file_path in
  let* content := read_file file_path in
  let lines := Text.split_lines content in
  let* at_line := line_at lines line in
  let* lines := from_option (remove_import import_name lines at_line.1 at_line.2) in
  let* _ := write_file file_path (Text.join_lines lines) in
  record_fix code (removed_unused_import file_path import_name).

(** The body of the walk of the repair of an unused variable, for one
    node: the loop over the targets writes at the first target with the
    name, where the line is an assignment to it, and breaks. *)
Definition remove_assignment (file_path : path) (variable_name content : string)
    (n : Ast.node) : M unit :=
  match n with
  | Ast.Assign targets _ lineno =>
      if existsb (is_target variable_name) targets then
        let line_index := lineno - 1 in
        let lines := Text.split_lines content in
        let* line := from_option (lines !! line_index) in
        if bool_decide (is_Some (Re.match_at (assignment_re variable_name) line)) then
          let* _ := write_file file_path
                      (Text.join_lines (Text.list_pop line_index lines)) in
          record_fix code (removed_unused_variable file_path variable_name)
        else ret tt
      else ret tt
  | _ => ret tt
  end.

Fixpoint for_nodes (body : Ast.node -> M unit) (nodes : list Ast.node) : M unit :=
  match nodes with
  | [] => ret tt
  | n :: nodes' => let* _ := body n in for_nodes body nodes'
  end.

Definition heal_unused_variable (file_path : path) (variable_name : string) : M unit :=
  let* _ := backup_file file_path in
  let* content := read_file file_path in
  let* tree := from_option (ast_parse content) in
  for_nodes (remove_assignment file_path variable_name content) (Ast.walk tree).

(** [_heal_code] *)
Definition on_unused_import (issue : Issue) : M unit :=
  match issue with
  | unused_import file_path import_name line =>
      heal_unused_import file_path import_name line
  | _ => ret tt
  end.

Definition on_unused_variable (issue : Issue) : M unit :=
  match issue with
  | unused_variable file_path variable_name _ =>
      heal_unused_variable file_path variable_name
  | _ => ret tt
  end.

Definition _heal_code (s : HealingEngine) : HealingEngine :=
  let s1 := for_each (i_code issues) on_unused_import s in
  for_each (i_code issues) on_unused_variable s1.

Definition heal_hardcoded_secret (file_path : path) (line : nat) : M unit :=
  let* _ := backup_file file_path in
  let* content := read_file file_path in
  let lines := Text.split_lines content in
  let* at_line := line_at lines line in
  let* _ := write_file file_path
              (Text.join_lines (replace_secret content lines at_line.1 at_line.2)) in
  record_fix security (fixed_hardcoded_secret file_path line).

Definition heal_insecure_config (file_path : path) : M unit :=
  let* _ := backup_file file_path in
  let* content := read_file file_path in
  let* _ := write_file file_path (replace_configs content) in
  record_fix security (fixed_insecure_config file_path).

(** [_heal_security] *)
Definition on_hardcoded_secret (issue : Issue) : M unit :=
  match issue with
  | hardcoded_secret file_path line _ => heal_hardcoded_secret file_path line
  | _ => ret tt
  end.

Definition on_insecure_config (issue : Issue) : M unit :=
  match issue with
  | insecure_config file_path _ => heal_insecure_config file_path
  | _ => ret tt
  end.

Definition _heal_security (s : HealingEngine) : HealingEngine :=
  let s1 := for_each (i_security issues) on_hardcoded_secret s in
  for_each (i_security issues) on_insecure_config s1.

Definition heal_n_plus_1 (file_path : path) (line : nat) : M unit :=
  let* _ := backup_file file_path in
  let* content := read_file file_path in
  let lines := Text.split_lines content in
  let* at_line := line_at lines line in
  let* _ := write_file file_path
              (Text.join_lines (<[at_line.1 := at_line.2 +:+ n_plus_1_todo]> lines)) in
  record_fix performance (added_n_plus_1_warning file_path line).

Definition heal_eager_loading (file_path : path) : M unit :=
  let* _ := backup_file file_path in
  let* content := read_file file_path in
  let* lines := from_option (eager_lines content) in
  let* _ := write_file file_path (Text.join_lines lines) in
  record_fix performance (added_eager_loading_warning file_path).

(** [_heal_performance] *)
Definition on_n_plus_1 (issue : Issue) : M unit :=
  match issue with
  | n_plus_1_query file_path line => heal_n_plus_1 file_path line
  | _ => ret tt
  end.

Definition on_eager_loading (issue : Issue) : M unit :=
  match issue with
  | missing_eager_loading file_path => heal_eager_loading file_path
  | _ => ret tt
  end.

Definition _heal_performance (s : HealingEngine) : HealingEngine :=
  let s1 := for_each (i_performance issues) on_n_plus_1 s in
  for_each (i_performance issues) on_eager_loading s1.

(** The bodies of the eleven loops of [heal], in the order in which the
    loops run them. *)
Definition repairs : list (M unit) :=
  (on_missing_return <$> i_routes issues)
  ++ (on_unclosed_block <$> i_templates issues)
  ++ (on_invalid_url_for <$> i_templates issues)
  ++ (on_missing_template <$> i_templates issues)
  ++ (on_user_model <$> i_database issues)
  ++ (on_unused_import <$> i_code issues)
  ++ (on_unused_variable <$> i_code issues)
  ++ (on_hardcoded_secret <$> i_security issues)
  ++ (on_insecure_config <$> i_security issues)
  ++ (on_n_plus_1 <$> i_performance issues)
  ++ (on_eager_loading <$> i_performance issues).

Definition passes (s : HealingEngine) : HealingEngine :=
  _heal_performance (_heal_security (_heal_code (_heal_database
    (_heal_templates (_heal_routes s))))).

(** [heal(create_backups)]: an exception of the first [create_backups]
    is not caught and ends the call. *)
Definition heal (with_backups : bool) : M Fixes :=
  let* _ := (if with_backups then create_backups None else ret tt) in
  fun s => let s' := passes s in (s', Ok (fixes s')).

(** [HealingEngine.__init__] on the files as they are. *)
Definition init (fs : FS) : HealingEngine :=
  {| disk := fs; backup_dir := None; fixes := no_fixes |}.

End Engine.

End Healing.

(** ** Difflib: the scores of [difflib.SequenceMatcher]

    The three scores [get_close_matches] reads, for sequences shorter than
    the 200 elements from which the matcher starts to set popular elements
    aside, and without a junk predicate.  A score is [2.0 * M / T] for [M]
    matched elements out of the [T] elements of the two sequences, and [1.0]
    when both are empty; it is given as the rational [2 * M / T]. *)

Module Difflib.

Fixpoint common_prefix (a b : string) : nat :=
  match a, b with
  | String x a', String y b' =>
      if Ascii.eqb x y then S (common_prefix a' b') else 0
  | _, _ => 0
  end.

(** The longest block that starts at the start of [a]: [b] is the rest of
    the second sequence from the position [j]; a block replaces the best
    one so far when it is strictly longer. *)
Fixpoint best_in_b (a b : string) (i j : nat) (best : nat * nat * nat)
    : nat * nat * nat :=
  let k := common_prefix a b in
  let best' := if best.2 <? k then (i, j, k) else best in
  match b with
  | String _ b' => best_in_b a b' i (S j) best'
  | EmptyString => best'
  end.

Fixpoint best_in_a (a b : string) (i : nat) (best : nat * nat * nat)
    : nat * nat * nat :=
  let best' := best_in_b a b i 0 best in
  match a with
  | String _ a' => best_in_a a' b (S i) best'
  | EmptyString => best'
  end.

(** [find_longest_match]: of the longest common blocks, the one that starts
    first in [a], and of those the one that starts first in [b]. *)
Definition find_longest_match (a b : string) : nat * nat * nat :=
  best_in_a a b 0 (0, 0, 0).

(** The sum of the sizes of [get_matching_blocks]: the longest block, then
    the blocks to its left and the blocks to its right. *)
Fixpoint matched (fuel : nat) (a b : string) : nat :=
  match fuel with
  | 0 => 0
  | S fuel' =>
      let '(i, j, k) := find_longest_match a b in
      if k =? 0 then 0
      else k + matched fuel' (Text.stake i a) (Text.stake j b)
             + matched fuel' (Text.sdrop (i + k) a) (Text.sdrop (j + k) b)
  end.

(** [_calculate_ratio(matches, length)] *)
Definition calculate_ratio (matches length : nat) : Q :=
  match length with
  | 0 => 1
  | S _ => Qmake (Z.of_nat (2 * matches)) (Pos.of_nat length)
  end.

(** [SequenceMatcher(None, a, b).ratio()] *)
Definition ratio (a b : string) : Q :=
  calculate_ratio (matched (S (String.length a)) a b)
                  (String.length a + String.length b).

(** The text without the first occurrence of the character. *)
Fixpoint remove_first (c : ascii) (b : string) : option string :=
  match b with
  | EmptyString => None
  | String x b' =>
      if Ascii.eqb x c then Some b'
      else String x <$> remove_first c b'
  end.

(** The elements of [a] that are still available in [b], counted with
    their multiplicity. *)
Fixpoint available (a b : string) : nat :=
  match a with
  | EmptyString => 0
  | String c a' =>
      match remove_first c b with
      | Some b' => S (available a' b')
      | None => available a' b
      end
  end.

(** [quick_ratio()] *)
Definition quick_ratio (a b : string) : Q :=
  calculate_ratio (available a b) (String.length a + String.length b).

(** [real_quick_ratio()] *)
Definition real_quick_ratio (a b : string) : Q :=
  calculate_ratio (String.length a `min` String.length b)
                  (String.length a + String.length b).

End Difflib.

(** * Properties *)

(** ** The detector *)

Section DatabaseDetection.
Import Detector.

(** The kind a file has for a table of markers: the first kind of the
    table one of whose markers occurs in the text of the file. *)
Definition file_kind (table : list (string * list Re.regex)) (t : tree)
    (d : FlaskProjectDetector) (file_path : path) : option string :=
  read t d file_path ≫= first_kind table.

Lemma scan_files_first table t d before f after kind :
  (∀ g, g ∈ before → file_kind table t d g = None) →
  file_kind table t d f = Some kind →
  scan_files table t d (before ++ f :: after) = Some (KindInfo kind (Some f)).
Proof.
  unfold file_kind. induction before as [|g before IH]; intros Hbefore Hf; simpl.
  - by rewrite Hf.
  - rewrite (Hbefore g) by set_solver. apply IH; [|done].
    intros g' Hg'. apply Hbefore. set_solver.
Qed.

Lemma scan_files_none table t d l :
  (∀ g, g ∈ l → file_kind table t d g = None) →
  scan_files table t d l = None.
Proof.
  unfold file_kind. induction l as [|g l IH]; intros Hl; simpl; [done|].
  rewrite (Hl g) by set_solver. apply IH. intros g' Hg'. apply Hl. set_solver.
Qed.

(** C9.  [_detect_database] scans the entry files and then the
    configuration files; the first file of that order in which a marker
    of any kind occurs gives the kind and the source file reported, and
    no later file is looked at. *)
Theorem detect_database_first_match t d before f after kind :
  app_files d ++ config_files d = before ++ f :: after →
  (∀ g, g ∈ before → file_kind db_patterns t d g = None) →
  file_kind db_patterns t d f = Some kind →
  st_database (detected_structure (_detect_database t d))
    = Some (KindInfo kind (Some f))
  ∧ db_type (_detect_database t d) = Some kind.
Proof.
  intros Hscan Hbefore Hf. unfold _detect_database. rewrite Hscan.
  by rewrite (scan_files_first _ _ _ _ _ _ kind Hbefore Hf).
Qed.

(** Where no file has a marker, the result is [unknown_sql] with the
    first model file, or [none]. *)
Lemma detect_database_no_match t d :
  (∀ g, g ∈ app_files d ++ config_files d → file_kind db_patterns t d g = None) →
  st_database (detected_structure (_detect_database t d))
    = Some (match model_files d with
            | m :: _ => KindInfo "unknown_sql" (Some m)
            | [] => KindInfo "none" None
            end).
Proof.
  intros Hnone. unfold _detect_database. rewrite (scan_files_none _ _ _ _ Hnone).
  by destruct (model_files d).
Qed.

End DatabaseDetection.

(** A project with three entry files: [__init__.py] names no database,
    [app.py] names MySQL and PostgreSQL, [config.py] names SQLite. *)
Definition three_files_tree : Detector.tree :=
  Detector.Dir []
    [("__init__.py", "from flask import Flask
");
     ("app.py", "from flask import Flask
import pymysql
import psycopg2
");
     ("config.py", "from flask import Flask
class Config:
    URI = 'sqlite:///x.db'
")].

Definition three_files_detector : Detector.FlaskProjectDetector :=
  Detector._find_flask_files three_files_tree (Detector.init ["srv"; "proj"]).

Lemma detect_database_first_match_witness :
  Detector.st_database
    (Detector.detected_structure
       (Detector._detect_database three_files_tree three_files_detector))
  = Some (Detector.KindInfo "postgresql" (Some ["srv"; "proj"; "app.py"])).
Proof.
  refine (proj1 (detect_database_first_match three_files_tree three_files_detector
                   [["srv"; "proj"; "__init__.py"]] ["srv"; "proj"; "app.py"]
                   [["srv"; "proj"; "config.py"]; ["srv"; "proj"; "config.py"]]
                   "postgresql" _ _ _)).
  - vm_compute. reflexivity.
  - intros g Hg. apply list_elem_of_singleton in Hg. subst g. vm_compute. reflexivity.
  - vm_compute. reflexivity.
Defined.

Section PatternDetection.
Import Detector.

Variable ast_parse : string -> option (list Ast.node).

(** What file discovery leaves as it found it. *)
Definition same_analysis (d d' : FlaskProjectDetector) : Prop :=
  app_instances d' = app_instances d ∧
  factory_functions d' = factory_functions d ∧
  detected_structure d' = detected_structure d ∧
  project_path d' = project_path d ∧
  db_type d' = db_type d ∧
  auth_system d' = auth_system d.

Lemma same_analysis_refl d : same_analysis d d.
Proof. by repeat split. Qed.

Lemma same_analysis_trans d1 d2 d3 :
  same_analysis d1 d2 → same_analysis d2 d3 → same_analysis d1 d3.
Proof.
  unfold same_analysis. intros (?&?&?&?&?&?) (?&?&?&?&?&?).
  repeat split; congruence.
Qed.

Lemma find_file_same root d f : same_analysis d (find_file root d f).
Proof.
  destruct f as [file content]. unfold find_file.
  repeat case_match; by repeat split.
Qed.

Lemma foldl_find_file_same root files d :
  same_analysis d (foldl (find_file root) d files).
Proof.
  revert d. induction files as [|f files IH]; intros d; simpl.
  - apply same_analysis_refl.
  - eapply same_analysis_trans; [apply find_file_same | apply IH].
Qed.

Lemma find_flask_files_in_same t : ∀ root d,
  same_analysis d (find_flask_files_in root t d).
Proof.
  revert t. fix IH 1. intros [dirs files] root d. simpl.
  assert (H2 : same_analysis d
            (add_dirs root (filter (fun n => kept n) (fst <$> dirs))
               (foldl (find_file root) d files))).
  { eapply same_analysis_trans; [apply foldl_find_file_same|]. by repeat split. }
  revert H2.
  generalize (add_dirs root (filter (fun n => kept n) (fst <$> dirs))
                (foldl (find_file root) d files)).
  induction dirs as [|[n sub] ds IHds]; intros d2 H2; [exact H2|].
  destruct (kept n).
  - apply IHds. eapply same_analysis_trans; [exact H2 | apply IH].
  - by apply IHds.
Qed.

Lemma analyze_app_files_foldl t d l d' :
  foldl (fun d' file_path =>
           set_analysis d'
             (app_instances d' ++ file_instances ast_parse t d file_path)
             (factory_functions d' ++ file_factories ast_parse t d file_path))
        d' l
  = set_analysis d'
      (app_instances d' ++ (l ≫= file_instances ast_parse t d))
      (factory_functions d' ++ (l ≫= file_factories ast_parse t d)).
Proof.
  revert d'. induction l as [|f l IH]; intros d'; simpl.
  - rewrite !app_nil_r. by destruct d'.
  - rewrite IH. unfold set_analysis; simpl. by rewrite <- !app_assoc.
Qed.

(** The keys of the structure that name the entry point. *)
Definition entry_keys (st : Structure) : option string * option entry * option entry :=
  (st_pattern st, st_factory_function st, st_app_instance st).

Lemma detect_database_keeps t d :
  entry_keys (detected_structure (_detect_database t d))
  = entry_keys (detected_structure d).
Proof. unfold _detect_database. by repeat case_match. Qed.

Lemma detect_auth_system_keeps t d :
  entry_keys (detected_structure (_detect_auth_system t d))
  = entry_keys (detected_structure d).
Proof. unfold _detect_auth_system. by repeat case_match. Qed.

Lemma build_structure_map_keeps d :
  entry_keys (detected_structure (_build_structure_map d))
  = entry_keys (detected_structure d).
Proof. done. Qed.

(** C6.  After [detect] on a new detector, the pattern is [factory] when
    a factory function was found, and the factory selected is the first
    one found, the entry files being read in the order of discovery;
    otherwise, when an application instance was found, the pattern is
    [modular] when there are blueprint files and [monolithic] when there
    are none, and the first instance is selected; otherwise the pattern
    is [unknown]. *)
Theorem pattern_priority (p : path) (t : tree) :
  let d1 := _find_flask_files t (init p) in
  let factories := app_files d1 ≫= file_factories ast_parse t d1 in
  let instances := app_files d1 ≫= file_instances ast_parse t d1 in
  let st := detect_flask_project ast_parse p t in
  st_pattern st
    = Some (match factories, instances with
            | _ :: _, _ => "factory"
            | [], _ :: _ =>
                match blueprint_files d1 with
                | _ :: _ => "modular"
                | [] => "monolithic"
                end
            | [], [] => "unknown"
            end)
  ∧ st_factory_function st = head factories
  ∧ st_app_instance st = match factories with
                         | [] => head instances
                         | _ :: _ => None
                         end.
Proof.
  intros d1 factories instances st.
  assert (Hsame : same_analysis (init p) d1) by apply find_flask_files_in_same.
  destruct Hsame as (Hi & Hf & Hs & _).
  unfold st, detect_flask_project, detect, _analyze_app_files.
  rewrite analyze_app_files_foldl. fold d1.
  rewrite Hi, Hf. simpl app. fold factories instances.
  assert (Hkeys : ∀ x y : Structure, entry_keys x = entry_keys y →
            st_pattern x = st_pattern y ∧
            st_factory_function x = st_factory_function y ∧
            st_app_instance x = st_app_instance y).
  { unfold entry_keys. intros x y Hxy. by simplify_eq. }
  set (d3 := _detect_project_pattern (set_analysis d1 instances factories)).
  destruct (Hkeys _ _
              (eq_trans (build_structure_map_keeps
                           (_detect_auth_system t (_detect_database t d3)))
              (eq_trans (detect_auth_system_keeps t (_detect_database t d3))
                        (detect_database_keeps t d3)))) as (-> & -> & ->).
  unfold d3, _detect_project_pattern. simpl.
  destruct factories, instances, (blueprint_files d1); simpl; by rewrite ?Hs.
Qed.

End PatternDetection.

(** ** Diagnosis of the routes *)

Section DuplicateRoutes.
Import Diagnostic.

Variable ast_parse : string -> option (list Ast.node).

(** The issues for a duplicate of the path [p]. *)
Definition is_duplicate_of (p : string) (i : Issue) : bool :=
  match i with
  | duplicate_route _ q _ => bool_decide (q = p)
  | _ => false
  end.

(** The routes declared with the path [p], in the order of extraction. *)
Definition occurrences (p : string) (routes : list Route) : list Route :=
  filter (fun r => r_path r = p) routes.

(** The issue that refers to a declaration. *)
Definition duplicate_of (r : Route) : Issue :=
  duplicate_route (r_file r) (r_path r) (r_function r).

Lemma duplicate_routes_filter p routes : ∀ seen : gmap string Route,
  filter (fun i => is_duplicate_of p i) (duplicate_routes routes seen)
  = duplicate_of <$> (match seen !! p with
                      | Some _ => occurrences p routes
                      | None => tail (occurrences p routes)
                      end).
Proof.
  unfold occurrences.
  induction routes as [|r routes IH]; intros seen; simpl.
  - by destruct (seen !! p).
  - rewrite filter_cons. destruct (decide (r_path r = p)) as [Heq|Hne].
    + rewrite Heq. destruct (seen !! p) as [r0|] eqn:Hseen.
      * rewrite filter_cons. simpl. rewrite bool_decide_eq_true_2 by done.
        rewrite decide_True by done. rewrite IH, Hseen. simpl.
        unfold duplicate_of at 2. by rewrite Heq.
      * rewrite IH. by rewrite lookup_insert_eq.
    + destruct (seen !! r_path r) as [r0|] eqn:Hseen.
      * rewrite filter_cons. simpl. rewrite bool_decide_eq_false_2 by done.
        rewrite decide_False by (by intros []). apply IH.
      * rewrite IH. by rewrite lookup_insert_ne.
Qed.

Lemma filter_none {B} (P : B → Prop) `{!∀ x, Decision (P x)} (l : list B) :
  (∀ b, b ∈ l → ¬ P b) → filter P l = [].
Proof.
  induction l as [|b l IH]; intros Hl; [done|].
  rewrite filter_cons_False by (apply Hl; set_solver).
  apply IH. intros b' Hb'. apply Hl. set_solver.
Qed.

Lemma filter_bind_nil {A B} (P : B → Prop) `{!∀ x, Decision (P x)}
    (f : A → list B) (l : list A) :
  (∀ a b, b ∈ f a → ¬ P b) → filter P (l ≫= f) = [].
Proof.
  intros Hf. apply filter_none. intros b Hb.
  apply list_elem_of_bind in Hb as (a & Hb & _). by apply (Hf a).
Qed.

Lemma missing_returns_not_duplicates p fs route_file i :
  i ∈ file_missing_return ast_parse fs route_file → ¬ is_duplicate_of p i.
Proof.
  unfold file_missing_return.
  destruct (read_text fs route_file) as [content|]; [|by intros ?%elem_of_nil].
  destruct (ast_parse content) as [body|]; [|by intros ?%elem_of_nil].
  intros (n & Hi & _)%list_elem_of_bind.
  destruct n; simpl in Hi; try by apply elem_of_nil in Hi.
  destruct (_ && _); [|by apply elem_of_nil in Hi].
  apply list_elem_of_singleton in Hi. subst i. by intros [].
Qed.

Lemma unspecified_not_duplicates p route i :
  i ∈ route_unspecified route → ¬ is_duplicate_of p i.
Proof.
  unfold route_unspecified.
  destruct (r_methods route) as [[|? ?]|]; intros Hi;
    try (by apply elem_of_nil in Hi);
    apply list_elem_of_singleton in Hi; subst i; by intros [].
Qed.

(** C2.  Where a path is declared [k + 1] times among the routes
    extracted, the issues [duplicate_route] that [diagnose] reports for
    the path are [k]: one for each declaration after the first, in the
    order of extraction and referring to that declaration, each of
    severity [high]. *)
Theorem duplicate_route_issues structure fs routes templates references p k :
  length (occurrences p routes) = S k →
  let dups :=
    filter (fun i => is_duplicate_of p i)
           (i_routes (diagnose ast_parse structure fs routes templates references)) in
  dups = duplicate_of <$> tail (occurrences p routes)
  ∧ length dups = k
  ∧ Forall (fun i => issue_type i = "duplicate_route" ∧ severity i = "high") dups.
Proof.
  intros Hk dups.
  assert (Hd : dups = duplicate_of <$> tail (occurrences p routes)).
  { unfold dups, diagnose, _diagnose_security, _diagnose_templates,
      _diagnose_routes. simpl.
    rewrite !filter_app.
    rewrite (filter_bind_nil _ _ _ (missing_returns_not_duplicates p fs)).
    rewrite (filter_bind_nil _ _ _ (unspecified_not_duplicates p)).
    rewrite app_nil_r. simpl. rewrite duplicate_routes_filter.
    by rewrite lookup_empty. }
  split; [exact Hd|]. split.
  - rewrite Hd, length_fmap. destruct (occurrences p routes); simpl in *; lia.
  - rewrite Hd. apply Forall_fmap, Forall_forall. by intros r _.
Qed.

End DuplicateRoutes.

(** Two routes declared with the path [/users]. *)
Definition users_routes : list Route :=
  [ {| r_file := ["srv"; "proj"; "app.py"]; r_app_or_blueprint := "app";
       r_path := "/users"; r_methods := None; r_function := Some "users" |};
    {| r_file := ["srv"; "proj"; "admin.py"]; r_app_or_blueprint := "admin";
       r_path := "/users"; r_methods := Some "'GET'"; r_function := Some "list_users" |} ].

Lemma duplicate_route_issues_witness :
  filter (fun i => is_duplicate_of "/users" i)
    (i_routes (Diagnostic.diagnose (fun _ => None) Detector.empty_structure
                 {| files := ∅; dirs := ∅ |} users_routes [] []))
  = [duplicate_route ["srv"; "proj"; "admin.py"] "/users" (Some "list_users")].
Proof.
  refine (proj1 (duplicate_route_issues (fun _ => None) Detector.empty_structure
                   {| files := ∅; dirs := ∅ |} users_routes [] [] "/users" 1 _)).
  vm_compute. reflexivity.
Defined.

(** ** Repeated detection *)

Section RepeatedDetection.
Import Detector.

Variable ast_parse : string -> option (list Ast.node).

Lemma find_file_app_files root d f :
  app_files (find_file root d f)
  = app_files d ++ app_files (find_file root (init []) f).
Proof.
  destruct f as [file content]. unfold find_file.
  repeat case_match; simpl; by rewrite ?app_nil_r.
Qed.

Lemma foldl_find_file_app_files root files : ∀ d,
  app_files (foldl (find_file root) d files)
  = app_files d ++ app_files (foldl (find_file root) (init []) files).
Proof.
  induction files as [|f files IH]; intros d; simpl.
  - by rewrite app_nil_r.
  - rewrite IH, (IH (find_file root (init []) f)), find_file_app_files.
    by rewrite app_assoc.
Qed.

(** File discovery appends what it finds to the lists of the detector. *)
Lemma find_flask_files_in_app_files t : ∀ root d,
  app_files (find_flask_files_in root t d)
  = app_files d ++ app_files (find_flask_files_in root t (init [])).
Proof.
  revert t. fix IH 1. intros [dirs files] root d. simpl.
  set (e := add_dirs root (filter (fun n => kept n) (fst <$> dirs))
              (foldl (find_file root) d files)).
  set (e0 := add_dirs root (filter (fun n => kept n) (fst <$> dirs))
               (foldl (find_file root) (init []) files)).
  assert (He : app_files e = app_files d ++ app_files e0).
  { simpl. apply foldl_find_file_app_files. }
  clearbody e e0. revert e e0 He. generalize (app_files d) as pre.
  induction dirs as [|[n sub] ds IHds]; intros pre e e0 He; [exact He|].
  destruct (kept n); [|by apply IHds].
  apply IHds. rewrite IH, (IH sub _ e0), He. by rewrite app_assoc.
Qed.

(** The steps of [detect] after file discovery leave [app_files] as it
    is, and [_build_structure_map] copies it into the structure. *)
Lemma detect_database_app_files t d :
  app_files (_detect_database t d) = app_files d
  ∧ project_path (_detect_database t d) = project_path d.
Proof. unfold _detect_database. by repeat case_match. Qed.

Lemma detect_auth_system_app_files t d :
  app_files (_detect_auth_system t d) = app_files d
  ∧ project_path (_detect_auth_system t d) = project_path d.
Proof. unfold _detect_auth_system. by repeat case_match. Qed.

Lemma detect_project_pattern_app_files d :
  app_files (_detect_project_pattern d) = app_files d
  ∧ project_path (_detect_project_pattern d) = project_path d.
Proof. unfold _detect_project_pattern. by repeat case_match. Qed.

(** The steps of [detect] after file discovery leave [app_files] as it
    is, and [_build_structure_map] copies it into the structure. *)
Lemma detect_keeps_app_files t d :
  app_files (detect ast_parse t d) = app_files (_find_flask_files t d)
  ∧ project_path (detect ast_parse t d) = project_path d.
Proof.
  destruct (find_flask_files_in_same t (project_path d) d) as (_&_&_&Hp&_).
  unfold detect. simpl.
  destruct (detect_auth_system_app_files t
              (_detect_database t (_detect_project_pattern
                 (_analyze_app_files ast_parse t (_find_flask_files t d)))))
    as [-> ->].
  destruct (detect_database_app_files t
              (_detect_project_pattern
                 (_analyze_app_files ast_parse t (_find_flask_files t d))))
    as [-> ->].
  destruct (detect_project_pattern_app_files
              (_analyze_app_files ast_parse t (_find_flask_files t d)))
    as [-> ->].
  unfold _analyze_app_files. by rewrite analyze_app_files_foldl.
Qed.

Lemma detect_app_files t d :
  st_app_files (detected_structure (detect ast_parse t d))
  = app_files (_find_flask_files t d).
Proof.
  rewrite <- (proj1 (detect_keeps_app_files t d)). unfold detect. simpl.
  by destruct (detect_auth_system_app_files t
              (_detect_database t (_detect_project_pattern
                 (_analyze_app_files ast_parse t (_find_flask_files t d)))))
    as [-> _].
Qed.

(** A second call of [detect] on the same detector returns every entry
    file twice. *)
Lemma detect_twice_app_files (p : path) (t : tree) :
  let first := detect ast_parse t (init p) in
  let second := detect ast_parse t first in
  st_app_files (detected_structure second)
  = st_app_files (detected_structure first) ++ st_app_files (detected_structure first).
Proof.
  intros first second.
  destruct (detect_keeps_app_files t (init p)) as [Ha Hp]. fold first in Ha, Hp.
  assert (Hfound : app_files (_find_flask_files t (init p))
                   = app_files (find_flask_files_in p t (init []))).
  { unfold _find_flask_files. simpl project_path.
    by rewrite find_flask_files_in_app_files. }
  unfold second. rewrite (detect_app_files t first).
  unfold first at 2 3. rewrite (detect_app_files t (init p)).
  unfold _find_flask_files at 1. rewrite Hp. simpl project_path.
  rewrite find_flask_files_in_app_files, Ha. by rewrite Hfound.
Qed.

End RepeatedDetection.

(** The project of one entry file and a template directory, and the tree
    [ast.parse] builds for the file: the import and the assignment of the
    application. *)
Definition small_app : string :=
  "from flask import Flask
app = Flask(__name__)
".

Definition small_tree : Detector.tree :=
  Detector.Dir [("templates", Detector.Dir [] [("index.html", "<h1>Index</h1>")])]
               [("app.py", small_app)].

Definition small_parse (content : string) : option (list Ast.node) :=
  if bool_decide (content = small_app)
  then Some [Ast.Other [];
             Ast.Assign [Ast.Name "app"] (Ast.Call (Ast.Name "Flask")) 2]
  else None.

(** C3.  Two calls of [detect] in a row on one detector and an unchanged
    tree: the second model lists the entry file and the template directory
    twice, and is not equal to the first. *)
Theorem detect_twice_differs :
  let first := Detector.detect small_parse small_tree (Detector.init ["srv"; "proj"]) in
  let second := Detector.detect small_parse small_tree first in
  Detector.st_pattern (Detector.detected_structure first) = Some "monolithic"
  ∧ Detector.st_pattern (Detector.detected_structure second) = Some "monolithic"
  ∧ Detector.st_app_files (Detector.detected_structure first)
    = [["srv"; "proj"; "app.py"]]
  ∧ Detector.st_app_files (Detector.detected_structure second)
    = [["srv"; "proj"; "app.py"]; ["srv"; "proj"; "app.py"]]
  ∧ Detector.st_template_dirs (Detector.detected_structure second)
    = [["srv"; "proj"; "templates"]; ["srv"; "proj"; "templates"]]
  ∧ Detector.detected_structure second ≠ Detector.detected_structure first.
Proof.
  vm_compute. repeat split; try reflexivity. intros H. discriminate H.
Qed.

(** ** The matcher and the language of a pattern *)

Module ReFacts.
Import Re.

Lemma app_cons c s t : String c s +:+ t = String c (s +:+ t).
Proof. reflexivity. Qed.

Lemma app_nil_l s : EmptyString +:+ s = s.
Proof. reflexivity. Qed.

Lemma app_nil_r s : s +:+ EmptyString = s.
Proof. induction s as [|c s IH]; [done|]. by rewrite app_cons, IH. Qed.

Lemma app_assoc s t u : (s +:+ t) +:+ u = s +:+ (t +:+ u).
Proof. induction s as [|c s IH]; [done|]. by rewrite !app_cons, IH. Qed.

Lemma length_app s t : String.length (s +:+ t) = String.length s + String.length t.
Proof. induction s as [|c s IH]; [done|]. rewrite app_cons. simpl. by rewrite IH. Qed.

(** Every character of the text is in the class. *)
Fixpoint all (p : ascii -> bool) (s : string) : bool :=
  match s with
  | EmptyString => true
  | String c t => p c && all p t
  end.

(** The text with its capital letters in lower case. *)
Fixpoint lower_string (s : string) : string :=
  match s with
  | EmptyString => EmptyString
  | String c t => String (lower c) (lower_string t)
  end.

(** The texts a pattern matches. *)
Inductive Matches : regex → string → Prop :=
| M_Chr p c : p c = true → Matches (Chr p) (String c EmptyString)
| M_Lit l : Matches (Lit l) l
| M_LitI l m : lower_string l = lower_string m → Matches (LitI l) m
| M_Rep p n m : all p m = true → n ≤ String.length m → Matches (Rep p n) m
| M_Opt_none r : Matches (Opt r) EmptyString
| M_Opt_some r m : Matches r m → Matches (Opt r) m
| M_Seq r1 r2 m1 m2 : Matches r1 m1 → Matches r2 m2 → Matches (Seq r1 r2) (m1 +:+ m2)
| M_Alt_l r1 r2 m : Matches r1 m → Matches (Alt r1 r2) m
| M_Alt_r r1 r2 m : Matches r2 m → Matches (Alt r1 r2) m
| M_Grp r m : Matches r m → Matches (Grp r) m.

Lemma strip_prefix_false l : ∀ s t,
  strip_prefix false l s = Some t ↔ s = l +:+ t.
Proof.
  induction l as [|a l IH]; intros s t; simpl.
  - rewrite app_nil_l. split; congruence.
  - destruct s as [|b s]; [by split|]. rewrite app_cons.
    destruct (Ascii.eqb_spec a b) as [->|Hne].
    + rewrite IH. split; [by intros ->|by intros [=]].
    + split; [done|]. intros [=]. congruence.
Qed.

Lemma strip_prefix_true l : ∀ s t,
  strip_prefix true l s = Some t
  ↔ ∃ m, s = m +:+ t ∧ lower_string l = lower_string m.
Proof.
  induction l as [|a l IH]; intros s t; simpl.
  - split.
    + intros [= ->]. by exists EmptyString.
    + intros (m & -> & Hm). destruct m; [done|discriminate].
  - destruct s as [|b s].
    + split; [done|]. intros ([|c m] & Hs & Hm); discriminate.
    + destruct (Ascii.eqb_spec (lower a) (lower b)) as [Hab|Hne].
      * rewrite IH. split.
        -- intros (m & -> & Hm). exists (String b m). simpl. by rewrite Hab, Hm.
        -- intros ([|c m] & Hs & Hm); [discriminate|].
           rewrite app_cons in Hs. simpl in Hm. simplify_eq. by exists m.
      * split; [done|]. intros ([|c m] & Hs & Hm); [discriminate|].
        rewrite app_cons in Hs. simpl in Hm. simplify_eq.
Qed.

Lemma rep_sound {R} p (k : string → option R) x : ∀ s n,
  rep p n s k = Some x →
  ∃ m t, s = m +:+ t ∧ all p m = true ∧ n ≤ String.length m ∧ k t = Some x.
Proof.
  assert (Hzero : ∀ s n, (if n =? 0 then k s else None) = Some x →
            ∃ m t, s = m +:+ t ∧ all p m = true ∧ n ≤ String.length m ∧ k t = Some x).
  { intros s n Hk. destruct (n =? 0) eqn:Hn; [|done].
    apply Nat.eqb_eq in Hn. subst n. by exists EmptyString, s. }
  induction s as [|c s IH]; intros n; simpl; [apply Hzero|].
  destruct (p c) eqn:Hc; [|apply Hzero].
  destruct (rep p (pred n) s k) as [y|] eqn:Hrep; [|apply Hzero].
  intros [= ->]. destruct (IH _ Hrep) as (m & t & -> & Hm & Hn & Hk).
  exists (String c m), t. simpl. rewrite Hc, Hm. repeat split; [lia|done].
Qed.

Lemma rep_complete {R} p (k : string → option R) t :
  is_Some (k t) → ∀ m n,
  all p m = true → n ≤ String.length m → is_Some (rep p n (m +:+ t) k).
Proof.
  intros Hk. induction m as [|c m IH]; intros n Hm Hn; simpl in *.
  - assert (n = 0) as -> by lia. rewrite app_nil_l.
    destruct t as [|c t]; simpl; [done|].
    destruct (p c); [|done]. by destruct (rep p 0 t k).
  - apply andb_true_iff in Hm as [Hc Hm]. rewrite ?app_cons. simpl. rewrite Hc.
    destruct (IH (pred n) Hm ltac:(lia)) as [y ->]. by eexists.
Qed.

Lemma run_sound {R} r : ∀ s caps (k : string → list string → option R) x,
  run r s caps k = Some x →
  ∃ m t caps', s = m +:+ t ∧ Matches r m ∧ k t caps' = Some x.
Proof.
  induction r as [p|l|l|p n|r IH|r1 IH1 r2 IH2|r1 IH1 r2 IH2|r IH];
    intros s caps k x; simpl.
  - destruct s as [|c s]; [done|]. destruct (p c) eqn:Hc; [|done].
    intros Hk. exists (String c EmptyString), s, caps. repeat split; [|done].
    by constructor.
  - destruct (strip_prefix false l s) as [t|] eqn:Hl; [|done].
    apply strip_prefix_false in Hl as ->. intros Hk.
    exists l, t, caps. repeat split; [constructor|done].
  - destruct (strip_prefix true l s) as [t|] eqn:Hl; [|done].
    apply strip_prefix_true in Hl as (m & -> & Hm). intros Hk.
    exists m, t, caps. repeat split; [by constructor|done].
  - intros (m & t & -> & Hm & Hn & Hk)%rep_sound.
    exists m, t, caps. repeat split; [by constructor|done].
  - destruct (run r s caps k) as [y|] eqn:Hr.
    + intros [= ->]. destruct (IH _ _ _ _ Hr) as (m & t & caps' & -> & Hm & Hk).
      exists m, t, caps'. repeat split; [by constructor|done].
    + intros Hk. exists EmptyString, s, caps. repeat split; [constructor|done].
  - intros Hr. destruct (IH1 _ _ _ _ Hr) as (m1 & t1 & caps1 & -> & Hm1 & Hr2).
    destruct (IH2 _ _ _ _ Hr2) as (m2 & t & caps2 & -> & Hm2 & Hk).
    exists (m1 +:+ m2), t, caps2. rewrite app_assoc.
    repeat split; [by constructor|done].
  - destruct (run r1 s caps k) as [y|] eqn:Hr.
    + intros [= ->]. destruct (IH1 _ _ _ _ Hr) as (m & t & caps' & -> & Hm & Hk).
      exists m, t, caps'. repeat split; [by constructor|done].
    + intros Hr2. destruct (IH2 _ _ _ _ Hr2) as (m & t & caps' & -> & Hm & Hk).
      exists m, t, caps'. repeat split; [by apply M_Alt_r|done].
  - intros Hr. destruct (IH _ _ _ _ Hr) as (m & t & caps' & -> & Hm & Hk).
    eexists m, t, _. repeat split; [by constructor|exact Hk].
Qed.

Lemma run_complete {R} r m :
  Matches r m → ∀ t caps (k : string → list string → option R),
  (∀ caps', is_Some (k t caps')) → is_Some (run r (m +:+ t) caps k).
Proof.
  induction 1 as [p c Hc|l|l m Hm|p n m Hm Hn|r|r m _ IH|r1 r2 m1 m2 _ IH1 _ IH2
                 |r1 r2 m _ IH|r1 r2 m _ IH|r m _ IH];
    intros t caps k Hk; simpl.
  - rewrite ?app_cons, ?app_nil_l. simpl. by rewrite Hc.
  - by rewrite (proj2 (strip_prefix_false l (l +:+ t) t) eq_refl).
  - rewrite (proj2 (strip_prefix_true l (m +:+ t) t)); [done|]. by exists m.
  - by apply rep_complete.
  - rewrite ?app_nil_l. destruct (run r t caps k); [done|apply Hk].
  - destruct (IH t caps k Hk) as [y ->]. by eexists.
  - rewrite app_assoc. apply IH1. intros caps'. by apply IH2.
  - destruct (IH t caps k Hk) as [y ->]. by eexists.
  - destruct (run r1 (m +:+ t) caps k); [done|by apply IH].
  - apply IH. intros caps'. apply Hk.
Qed.

(** [match_at] finds a match exactly where the text starts with a text
    of the language of the pattern. *)
Lemma match_at_iff r s :
  is_Some (match_at r s) ↔ ∃ m t, s = m +:+ t ∧ Matches r m.
Proof.
  unfold match_at. split.
  - intros [x Hx]. apply run_sound in Hx as (m & t & _ & -> & Hm & _). eauto.
  - intros (m & t & -> & Hm). by apply run_complete.
Qed.

Lemma search_from_iff r : ∀ s pos,
  is_Some (search_from r s pos) ↔ ∃ pre m post, s = pre +:+ m +:+ post ∧ Matches r m.
Proof.
  induction s as [|c s IH]; intros pos; simpl.
  - destruct (match_at r EmptyString) as [[t caps]|] eqn:Hm.
    + split; [|done]. intros _.
      destruct (proj1 (match_at_iff r EmptyString)) as (m & t' & Hs & HM);
        [by rewrite Hm|].
      by exists EmptyString, m, t'.
    + split; [by intros []|]. intros (pre & m & post & Hs & HM).
      destruct pre; [|discriminate]. rewrite app_nil_l in Hs.
      assert (is_Some (match_at r EmptyString)) as [? ?]; [|congruence].
      apply match_at_iff. eauto.
  - destruct (match_at r (String c s)) as [[t caps]|] eqn:Hm.
    + split; [|done]. intros _.
      destruct (proj1 (match_at_iff r (String c s))) as (m & t' & Hs & HM);
        [by rewrite Hm|].
      by exists EmptyString, m, t'.
    + rewrite IH. split.
      * intros (pre & m & post & -> & HM). by exists (String c pre), m, post.
      * intros ([|c' pre] & m & post & Hs & HM).
        -- rewrite app_nil_l in Hs.
           assert (is_Some (match_at r (String c s))) as [? ?]; [|congruence].
           apply match_at_iff. eauto.
        -- rewrite app_cons in Hs. simplify_eq. eauto.
Qed.

(** [re.search] finds a match exactly where a text of the language of the
    pattern occurs in the text searched. *)
Theorem search_iff r s :
  is_Some (search r s) ↔ ∃ pre m post, s = pre +:+ m +:+ post ∧ Matches r m.
Proof. apply search_from_iff. Qed.

End ReFacts.

(** ** Diagnosis of the blocks of a template *)

Section TemplateBlocks.
Import Diagnostic ReFacts.

Variable ast_parse : string -> option (list Ast.node).

Lemma Matches_Seq_inv r1 r2 m :
  Matches (Re.Seq r1 r2) m → ∃ m1 m2, m = m1 +:+ m2 ∧ Matches r1 m1 ∧ Matches r2 m2.
Proof. inversion 1; subst; eauto. Qed.

Lemma Matches_Lit_inv l m : Matches (Re.Lit l) m → m = l.
Proof. by inversion 1. Qed.

Lemma Matches_Rep_inv p n m :
  Matches (Re.Rep p n) m → all p m = true ∧ n ≤ String.length m.
Proof. by inversion 1. Qed.

Lemma Matches_Opt_inv r m : Matches (Re.Opt r) m → m = EmptyString ∨ Matches r m.
Proof. inversion 1; subst; eauto. Qed.

(** An [endblock] tag for a block: the tag is bare or carries the name of
    the block, with any white space between its parts. *)
Definition is_endblock_tag (block tag : string) : Prop :=
  ∃ ws1 ws2 name ws3,
    tag = "{%" +:+ ws1 +:+ "endblock" +:+ ws2 +:+ name +:+ ws3 +:+ "%}"
    ∧ all Text.is_space ws1 = true
    ∧ all Text.is_space ws2 = true
    ∧ all Text.is_space ws3 = true
    ∧ (name = EmptyString ∨ name = block).

(** The tag occurs in the text. *)
Definition occurs (tag content : string) : Prop :=
  ∃ pre post, content = pre +:+ tag +:+ post.

Lemma endblock_re_matches block tag :
  Matches (endblock_re block) tag ↔ is_endblock_tag block tag.
Proof.
  unfold endblock_re, is_endblock_tag. simpl. split.
  - intros (m1 & t1 & -> & H1%Matches_Lit_inv & H)%Matches_Seq_inv.
    apply Matches_Seq_inv in H as (ws1 & t2 & -> & [Hws1 _]%Matches_Rep_inv & H).
    apply Matches_Seq_inv in H as (m3 & t3 & -> & H3%Matches_Lit_inv & H).
    apply Matches_Seq_inv in H as (ws2 & t4 & -> & [Hws2 _]%Matches_Rep_inv & H).
    apply Matches_Seq_inv in H as (name & t5 & -> & Hname%Matches_Opt_inv & H).
    apply Matches_Seq_inv in H as (ws3 & t6 & -> & [Hws3 _]%Matches_Rep_inv & H).
    apply Matches_Lit_inv in H. subst m1 m3 t6.
    exists ws1, ws2, name, ws3. repeat split; try done.
    destruct Hname as [->|Hname%Matches_Lit_inv]; [by left|by right].
  - intros (ws1 & ws2 & name & ws3 & -> & Hws1 & Hws2 & Hws3 & Hname).
    repeat (apply M_Seq); try apply M_Lit; try (apply M_Rep; [done|lia]).
    destruct Hname as [->| ->]; [apply M_Opt_none|apply M_Opt_some, M_Lit].
Qed.

(** The pattern of the check finds a match exactly where an [endblock]
    tag for the block occurs somewhere in the text. *)
Lemma search_endblock_iff block content :
  is_Some (Re.search (endblock_re block) content)
  ↔ ∃ tag, is_endblock_tag block tag ∧ occurs tag content.
Proof.
  rewrite search_iff. split.
  - intros (pre & m & post & -> & Hm%endblock_re_matches).
    exists m. split; [done|]. by exists pre, post.
  - intros (tag & Htag%endblock_re_matches & pre & post & ->). eauto.
Qed.

Lemma unclosed_blocks_elem relative_path content block :
  unclosed_block relative_path block ∈ unclosed_blocks relative_path content
  ↔ block ∈ Re.findall1 block_re content
    ∧ ¬ is_Some (Re.search (endblock_re block) content).
Proof.
  unfold unclosed_blocks. rewrite list_elem_of_bind. split.
  - intros (b & Hi & Hb). case_bool_decide as Hs; [by apply elem_of_nil in Hi|].
    apply list_elem_of_singleton in Hi. by simplify_eq.
  - intros [Hb Hs]. exists block. split; [|done].
    rewrite bool_decide_eq_false_2 by done. by apply list_elem_of_singleton.
Qed.

Lemma invalid_url_fors_elem routes relative_path content template block :
  unclosed_block template block ∉ invalid_url_fors routes relative_path content.
Proof.
  unfold invalid_url_fors. rewrite list_elem_of_bind. intros (ref & Hi & _).
  destruct (endpoint_exists routes ref); [by apply elem_of_nil in Hi|].
  by apply list_elem_of_singleton in Hi.
Qed.


(** The reading of the check by position: a block tag is closed when an
    [endblock] tag for it is found in the text after the tag. *)
Definition closed_later (content : string) (m : nat * string * list string)
    (block : string) : bool :=
  bool_decide (is_Some (Re.search (endblock_re block)
                          (Text.sdrop (m.1.1 + String.length m.1.2) content))).

Definition reported_when_unclosed_later (relative_path content : string) : Prop :=
  ∀ m block, m ∈ Re.finditer block_re content → head m.2 = Some block →
    (unclosed_block relative_path block ∈ unclosed_blocks relative_path content
     ↔ closed_later content m block = false).

End TemplateBlocks.

(** A template whose first block is closed by a bare tag and whose second
    block is left open. *)
Definition second_block_open : string := "{% block a %}x{% endblock %}{% block b %}y".


Definition open_block_template : Template :=
  {| t_path := ["srv"; "proj"; "templates"; "page.html"];
     t_relative_path := "page.html"; t_name := "page.html" |}.

Definition open_block_fs : FS :=
  {| files := {[ ["srv"; "proj"; "templates"; "page.html"] := "{% block a %}x" ]};
     dirs := ∅ |}.


(** ** A hard-coded secret key *)

(** The parameters of a healing session that looks at no template, no
    route and no syntax tree. *)
Definition no_templates (fs : FS) : list Template := [].
Definition no_routes (fs : FS) : list Route := [].
Definition no_ratio (x word : string) : Q := 0.
Definition no_scaffold (base_template : string) : string := EmptyString.
Definition no_parse (content : string) : option (list Ast.node) := None.

(** An entry file that sets the secret key to a literal. *)
Definition secret_app : string :=
"from flask import Flask
SECRET_KEY = 'abcdef1234567890'
".

Definition secret_path : path := ["srv"; "proj"; "app.py"].

Definition secret_tree : Detector.tree := Detector.Dir [] [("app.py", secret_app)].

Definition secret_structure : Detector.Structure :=
  Detector.detect_flask_project no_parse ["srv"; "proj"] secret_tree.

Definition secret_fs : FS :=
  {| files := {[ secret_path := secret_app ]};
     dirs := {[ ["srv"]; ["srv"; "proj"] ]} |}.

Definition secret_issues : Issues :=
  Diagnostic.diagnose no_parse secret_structure secret_fs [] [] [].

Definition secret_healed : Healing.HealingEngine :=
  (Healing.heal no_parse no_templates no_routes no_ratio no_ratio no_ratio no_scaffold
     secret_structure secret_issues 1700000000 true (Healing.init secret_fs)).1.


(** ** Backups before repairs *)

Section BackupDiscipline.
Import Healing.

Variable structure : Detector.Structure.
Variable now : N.

Local Abbreviation project := (Detector.st_project_path structure).

(** The backup root a session names when it is given none. *)
Definition session_root : path := project ++ ["backups"; "backup_" +:+ pretty now].

(** A backup of the file [p] with the text [c] under the root: at the path
    that mirrors the path of the file in the project, or in the directory of
    that name. *)
Definition backup_of (fs : FS) (root p : path) (c : string) : Prop :=
  ∃ rel q, Detector.relative_to project p = Some rel
    ∧ (q = root ++ rel ∨ q = (root ++ rel) ++ [name_of p])
    ∧ files fs !! q = Some c.

(** A computation that leaves [backup_dir] as it is, removes no file and,
    of the files there are, changes those of [T] at most. *)
Definition touches {A} (T : path → Prop) (m : M A) : Prop :=
  ∀ s s' r, m s = (s', r) →
    backup_dir s' = backup_dir s
    ∧ ∀ p c, files (disk s) !! p = Some c →
        files (disk s') !! p = Some c ∨ (T p ∧ is_Some (files (disk s') !! p)).

(** The step from [s] to [s'] of a loop body that changes no file it has
    not copied under the backup root first: no file is removed, the backup
    root is kept, or named where there was none, and a file whose text is
    changed is under the backup root or has a backup of the text it had. *)
Definition backed_step (s s' : HealingEngine) : Prop :=
  (∀ p, is_Some (files (disk s) !! p) → is_Some (files (disk s') !! p))
  ∧ (backup_dir s' = backup_dir s
     ∨ (backup_dir s = None ∧ backup_dir s' = Some session_root))
  ∧ (∀ p c, files (disk s) !! p = Some c → files (disk s') !! p ≠ Some c →
       ∃ root, backup_dir s' = Some root
         ∧ (root `prefix_of` p ∨ backup_of (disk s') root p c)).

Definition backs_up (m : M unit) : Prop := ∀ s, backed_step s (try_ m s).

Definition nothing (p : path) : Prop := False.

Ltac unchanged := intros [= <- <-]; split; [done|intros ? ? ?; by left].

Lemma touches_mono {A} (T T' : path → Prop) (m : M A) :
  (∀ p, T p → T' p) → touches T m → touches T' m.
Proof.
  intros HT Hm s s' r Hrun. destruct (Hm s s' r Hrun) as [Hb Hf].
  split; [done|]. intros p c Hp.
  destruct (Hf p c Hp) as [|[? ?]]; [by left|right; split; [by apply HT|done]].
Qed.

Lemma touches_quiet {A} T (m : M A) :
  (∀ s s' r, m s = (s', r) → backup_dir s' = backup_dir s ∧ files (disk s') = files (disk s)) →
  touches T m.
Proof.
  intros Hm s s' r Hrun. destruct (Hm s s' r Hrun) as [Hb Hf].
  split; [done|]. intros p c Hp. left. by rewrite Hf.
Qed.

Lemma touches_ret {A} T (a : A) : touches T (ret a).
Proof. apply touches_quiet. by intros s s' r [= <- <-]. Qed.

Lemma touches_raise {A} T : touches T (@raise A).
Proof. apply touches_quiet. by intros s s' r [= <- <-]. Qed.

Lemma touches_continue {A} T : touches T (@continue A).
Proof. apply touches_quiet. by intros s s' r [= <- <-]. Qed.

Lemma touches_get_disk T : touches T get_disk.
Proof. apply touches_quiet. by intros s s' r [= <- <-]. Qed.

Lemma touches_from_option {A} T (o : option A) : touches T (from_option o).
Proof. destruct o; [apply touches_ret|apply touches_raise]. Qed.

Lemma touches_record_fix T c x : touches T (record_fix c x).
Proof. apply touches_quiet. by intros s s' r [= <- <-]. Qed.

Lemma touches_bind {A B} T (m : M A) (k : A → M B) :
  touches T m → (∀ a, touches T (k a)) → touches T (bind m k).
Proof.
  intros Hm Hk s s' r. unfold bind.
  destruct (m s) as [s1 [a| |]] eqn:Hrun; destruct (Hm _ _ _ Hrun) as [Hb1 Hf1].
  - intros Hrun2. destruct (Hk a _ _ _ Hrun2) as [Hb2 Hf2].
    split; [congruence|]. intros p c Hp.
    destruct (Hf1 p c Hp) as [Hp1|[HT [c1 Hc1]]]; [by apply Hf2|].
    right. split; [done|]. destruct (Hf2 p c1 Hc1) as [->|[_ ?]]; [by eexists|done].
  - by intros [= <- <-].
  - by intros [= <- <-].
Qed.

Lemma touches_read_file T p : touches T (read_file p).
Proof.
  apply touches_bind; [apply touches_get_disk|]. intros fs. apply touches_from_option.
Qed.

Lemma touches_line_at T lines line : touches T (line_at lines line).
Proof.
  unfold line_at. destruct line; [apply touches_continue|].
  destruct (lines !! line); [apply touches_ret|apply touches_continue].
Qed.

Lemma touches_write_file p content : touches (eq p) (write_file p content).
Proof.
  intros s s' r. unfold write_file, on_disk, open_write.
  destruct (is_dir (disk s) p); [unchanged|].
  destruct (is_dir (disk s) (parent p)); [|unchanged].
  intros [= <- <-]. split; [done|]. simpl. intros p' c Hp'.
  destruct (decide (p = p')) as [<-|Hne]; [right|left; by rewrite lookup_insert_ne].
  split; [done|]. rewrite lookup_insert_eq. by eexists.
Qed.

Lemma touches_mkdir T (f : FS → path) :
  touches T (on_disk (fun fs => mkdir_parents fs (f fs))).
Proof.
  apply touches_quiet. intros s s' r. unfold on_disk, mkdir_parents.
  destruct (existsb _ _); by intros [= <- <-].
Qed.

Lemma touches_ensure_template_exists template_extending T template_name :
  touches T (_ensure_template_exists template_extending structure template_name).
Proof.
  apply (touches_mono nothing); [by intros ? []|].
  intros s s' r. unfold _ensure_template_exists.
  destruct (Detector.st_template_dirs structure) as [|template_dir ?];
    [unchanged|].
  unfold bind, get_disk.
  destruct (path_exists (disk s) (path_join template_dir template_name)) eqn:Hexists;
    [unchanged|].
  unfold on_disk at 1, mkdir_parents.
  destruct (existsb _ _); [unchanged|]. simpl.
  match goal with |- context [write_file ?p ?c] => generalize c; intros content end.
  unfold write_file, on_disk, open_write. simpl.
  assert (Hnew : ∀ p c, files (disk s) !! p = Some c →
            <[path_join template_dir template_name := content]> (files (disk s)) !! p
            = Some c).
  { intros p c Hp. rewrite lookup_insert_ne; [done|]. intros <-.
    unfold path_exists, is_file in Hexists. apply orb_false_iff in Hexists as [Hfile _].
    apply bool_decide_eq_false in Hfile. apply Hfile. by eexists. }
  unfold bind, record_fix.
  destruct (is_dir _ (path_join template_dir template_name)); simpl;
    [intros [= <- <-]; split; [done|intros ? ? ?; by left]|].
  destruct (is_dir _ (parent (path_join template_dir template_name))); simpl;
    intros [= <- <-]; (split; [done|]); simpl; intros p c Hp; left;
    [by apply Hnew|done].
Qed.

(** What [backup_file] does: where it returns, the text of the file is at
    the backup path under the root, another path than that of the file, and
    no other file is changed; where it raises, no file is changed. *)
Lemma backup_file_spec p s :
  ∃ s' r, backup_file structure now p s = (s', r)
    ∧ fixes s' = fixes s
    ∧ (backup_dir s' = backup_dir s
       ∨ (backup_dir s = None ∧ backup_dir s' = Some session_root))
    ∧ match r with
      | Ok _ =>
          ∃ root rel c q,
            backup_dir s' = Some root
            ∧ Detector.relative_to project p = Some rel
            ∧ (q = root ++ rel ∨ q = (root ++ rel) ++ [name_of p])
            ∧ files (disk s) !! p = Some c
            ∧ q ≠ p
            ∧ files (disk s') = <[q := c]> (files (disk s))
      | _ => files (disk s') = files (disk s)
      end.
Proof.
  unfold backup_file, create_backups, bind, get_backup_dir, set_backup_dir,
    from_option, on_disk, ret, raise.
  fold session_root.
  assert (Hcopy : ∀ (fs : FS) (root rel : path) (d : gset path) bd fx,
    let fs1 := {| files := files fs; dirs := d |} in
    ∃ s' r,
      match copy2 fs1 p (root ++ rel) with
      | Some fs' => ({| disk := fs'; backup_dir := bd; fixes := fx |}, Ok ())
      | None => ({| disk := fs1; backup_dir := bd; fixes := fx |}, Raised)
      end = (s', r)
      ∧ fixes s' = fx ∧ backup_dir s' = bd
      ∧ match r with
        | Ok _ => ∃ c q, (q = root ++ rel ∨ q = (root ++ rel) ++ [name_of p])
                    ∧ files fs !! p = Some c ∧ q ≠ p
                    ∧ files (disk s') = <[q := c]> (files fs)
        | _ => files (disk s') = files fs
        end).
  { intros fs root rel d bd fx fs1. unfold copy2, read_text. simpl.
    destruct (files fs !! p) as [c|] eqn:Hc; [|by eexists _, _].
    case_bool_decide as Hsame; [by eexists _, _|].
    unfold open_write.
    destruct (is_dir fs1 (copy_target fs1 p (root ++ rel))); [by eexists _, _|].
    destruct (is_dir fs1 (parent (copy_target fs1 p (root ++ rel)))); [|by eexists _, _].
    eexists _, _. split; [done|]. repeat split.
    exists c, (copy_target fs1 p (root ++ rel)).
    split; [|split; [done|split; [congruence|done]]].
    unfold copy_target. destruct (is_dir fs1 (root ++ rel)); [by right|by left]. }
  destruct (backup_dir s) as [root|] eqn:Hroot; simpl.
  - destruct (Detector.relative_to project p) as [rel|] eqn:Hrel; simpl;
      [|eexists _, _; split; [done|]; split; [done|]; split; [by left|done]].
    rewrite Hroot. simpl. unfold mkdir_parents.
    destruct (existsb (is_file (disk s)) (prefixes (parent (root ++ rel)))); simpl;
      [eexists _, _; split; [done|]; split; [done|]; split; [by left|done]|].
    destruct (Hcopy (disk s) root rel
                (dirs (disk s) ∪ list_to_set (prefixes (parent (root ++ rel))))
                (backup_dir s) (fixes s))
      as (s' & r & Hrun & Hfix & Hbd & Hr).
    simpl in Hrun. exists s', r. rewrite Hrun. split; [done|].
    split; [done|]. split; [left; congruence|].
    destruct r; [|done..]. destruct Hr as (c & q & Hq & Hc & Hne & Hfiles).
    exists root, rel, c, q. repeat split; try done. congruence.
  - unfold mkdir_parents at 1.
    destruct (existsb (is_file (disk s)) (prefixes session_root)); simpl;
      [eexists _, _; split; [done|]; split; [done|]; split; [by right|done]|].
    destruct (Detector.relative_to project p) as [rel|] eqn:Hrel; simpl;
      [|eexists _, _; split; [done|]; split; [done|]; split; [by right|done]].
    unfold mkdir_parents.
    destruct (existsb _ (prefixes (parent (session_root ++ rel)))); simpl;
      [eexists _, _; split; [done|]; split; [done|]; split; [by right|done]|].
    destruct (Hcopy (disk s) session_root rel
                (dirs (disk s) ∪ list_to_set (prefixes session_root)
                 ∪ list_to_set (prefixes (parent (session_root ++ rel))))
                (Some session_root) (fixes s))
      as (s' & r & Hrun & Hfix & Hbd & Hr).
    simpl in Hrun. exists s', r. rewrite Hrun. split; [done|].
    split; [done|]. split; [right; by split|].
    destruct r; [|done..]. destruct Hr as (c & q & Hq & Hc & Hne & Hfiles).
    by exists session_root, rel, c, q.
Qed.

Lemma bind_assoc_run {A B C} (m : M A) (f : A → M B) (g : B → M C) s :
  bind (bind m f) g s = bind m (fun a => bind (f a) g) s.
Proof. unfold bind. by destruct (m s) as [s' [a| |]]. Qed.

Lemma bind_get_disk {A B} (f : FS → M A) (g : A → M B) s :
  bind (bind get_disk f) g s = bind (f (disk s)) g s.
Proof. reflexivity. Qed.

Lemma backed_step_refl s : backed_step s s.
Proof. split; [done|]. split; [by left|]. by intros p c Hp. Qed.

Lemma backs_up_touches_nothing (m : M unit) : touches nothing m → backs_up m.
Proof.
  intros Hm s. unfold try_.
  destruct (m s) as [s' r] eqn:Hrun. destruct (Hm s s' r Hrun) as [Hbd Hf]. simpl.
  split; [|split; [by left|]].
  - intros p [c Hp]. destruct (Hf p c Hp) as [->|[_ ?]]; [by eexists|done].
  - intros p c Hp Hchanged. by destruct (Hf p c Hp) as [|[[] _]].
Qed.

Lemma backs_up_ret : backs_up (ret ()).
Proof. apply backs_up_touches_nothing, touches_ret. Qed.

(** A body that copies the file and then changes no other file. *)
Lemma backed_step_backup_file p (rest : M unit) s :
  touches (eq p) rest →
  backed_step s (try_ (bind (backup_file structure now p) (fun _ => rest)) s).
Proof.
  intros Hrest. unfold try_, bind.
  destruct (backup_file_spec p s) as (s1 & r1 & -> & _ & Hbd1 & Hr1).
  destruct r1 as [[]| |]; simpl;
    [|split; [by rewrite Hr1|split; [done|by rewrite Hr1]]..].
  destruct Hr1 as (root & rel & c0 & q & Hroot & Hrel & Hq & Hc0 & Hne & Hfiles).
  destruct (rest s1) as [s2 r2] eqn:Hrun. simpl.
  destruct (Hrest s1 s2 r2 Hrun) as [Hbd Hf].
  assert (Hkeep : ∀ p', is_Some (files (disk s1) !! p') → is_Some (files (disk s2) !! p')).
  { intros p' [c Hp']. destruct (Hf p' c Hp') as [->|[_ ?]]; [by eexists|done]. }
  split; [|split; [by rewrite Hbd|]].
  { intros p' [c Hp']. apply Hkeep. rewrite Hfiles.
    destruct (decide (q = p')) as [<-|?];
      [rewrite lookup_insert_eq|rewrite lookup_insert_ne by done]; by eexists. }
  intros p' c Hp' Hchanged. exists root. split; [congruence|].
  destruct (decide (p' = q)) as [->|Hq'].
  { left. destruct Hq as [->| ->]; [by apply prefix_app_r|].
    rewrite <- app_assoc. by apply prefix_app_r. }
  assert (Hs1 : files (disk s1) !! p' = Some c)
    by (by rewrite Hfiles, lookup_insert_ne).
  destruct (Hf p' c Hs1) as [|[<- _]]; [done|]. right.
  pose proof (eq_trans (eq_sym Hc0) Hp') as [= ->].
  exists rel, q. split; [done|]. split; [done|].
  destruct (Hf q c) as [|[<- _]]; [|done..]. by rewrite Hfiles, lookup_insert_eq.
Qed.

Lemma backs_up_bind_backup_file p (rest : M unit) :
  touches (eq p) rest → backs_up (bind (backup_file structure now p) (fun _ => rest)).
Proof. intros Hrest s. by apply backed_step_backup_file. Qed.

Section Templates.
Variable get_templates : FS → list Template.

(** A body that looks the template up, copies it and then changes no
    other file. *)
Lemma backs_up_open_template template (rest : path * string → M unit) :
  (∀ o, touches (eq o.1) (rest o)) →
  backs_up (bind (open_template get_templates structure now template) rest).
Proof.
  intros Hrest s.
  assert (Hquiet : ∀ m : M unit, m s = (s, Skip) → backed_step s (try_ m s)).
  { intros m Hm. unfold try_. rewrite Hm. apply backed_step_refl. }
  unfold open_template.
  destruct (list_find (fun t => bool_decide (t_relative_path t = template))
              (get_templates (disk s))) as [[i t]|] eqn:Hfind.
  - destruct (t_path t) as [|x tp] eqn:Htp.
    + apply Hquiet. unfold bind, get_disk. by rewrite Hfind, Htp.
    + assert (Hsame : ∀ m : M unit, m s
                = bind (backup_file structure now (x :: tp))
                    (fun _ => bind (read_file (x :: tp))
                                (fun content => rest (x :: tp, content))) s →
                try_ m s = try_ (bind (backup_file structure now (x :: tp))
                    (fun _ => bind (read_file (x :: tp))
                                (fun content => rest (x :: tp, content)))) s).
      { intros m Hm. unfold try_. by rewrite Hm. }
      rewrite Hsame.
      * apply backed_step_backup_file.
        apply touches_bind; [apply touches_read_file|]. intros content.
        apply (Hrest (x :: tp, content)).
      * rewrite bind_get_disk, Hfind, Htp, bind_assoc_run. unfold bind.
        destruct (backup_file structure now (x :: tp) s) as [s1 [[]| |]]; try done.
        by destruct (read_file (x :: tp) s1) as [s2 [content| |]].
  - apply Hquiet. unfold bind, get_disk. by rewrite Hfind.
Qed.

End Templates.

Lemma touches_for_nodes T (body : Ast.node → M unit) nodes :
  (∀ n, touches T (body n)) → touches T (for_nodes body nodes).
Proof.
  intros Hbody. induction nodes as [|n nodes IH]; simpl; [apply touches_ret|].
  apply touches_bind; [apply Hbody|]. by intros [].
Qed.

Section Repairs.

Variable ast_parse : string → option (list Ast.node).
Variable get_templates : FS → list Template.
Variable get_routes : FS → list Route.
Variables real_quick_ratio quick_ratio ratio : string → string → Q.
Variable template_extending : string → string.
Variable issues : Issues.

Lemma touches_get_close_matches T word possibilities :
  touches T (get_close_matches real_quick_ratio quick_ratio ratio word possibilities).
Proof.
  unfold get_close_matches. destruct (existsb _ _); [apply touches_raise|].
  destruct (_ <$> _); apply touches_ret.
Qed.

Ltac touch :=
  repeat first
    [ apply touches_ret | apply touches_raise | apply touches_continue
    | apply touches_get_disk | apply touches_from_option | apply touches_record_fix
    | apply touches_read_file | apply touches_line_at | apply touches_write_file
    | apply touches_ensure_template_exists | apply touches_get_close_matches
    | apply touches_for_nodes; intros ?
    | apply touches_bind; [|intros ?]
    | progress cbv zeta
    | progress case_match ].

Lemma backs_up_on_missing_return issue :
  backs_up (on_missing_return ast_parse template_extending structure now issue).
Proof.
  destruct issue; try apply backs_up_ret.
  apply backs_up_bind_backup_file. touch.
Qed.

Lemma backs_up_on_unclosed_block issue :
  backs_up (on_unclosed_block get_templates structure now issue).
Proof.
  destruct issue; try apply backs_up_ret.
  apply backs_up_open_template. intros o. touch.
Qed.

Lemma backs_up_on_invalid_url_for issue :
  backs_up (on_invalid_url_for get_templates get_routes real_quick_ratio quick_ratio
              ratio structure now issue).
Proof.
  destruct issue; try apply backs_up_ret.
  apply backs_up_open_template. intros o. touch.
Qed.

Lemma backs_up_on_missing_template issue :
  backs_up (on_missing_template template_extending structure issue).
Proof.
  destruct issue; try apply backs_up_ret.
  apply backs_up_touches_nothing, touches_ensure_template_exists.
Qed.

Lemma backs_up_on_user_model issue :
  backs_up (on_user_model ast_parse structure now issue).
Proof.
  destruct issue; try apply backs_up_ret.
  apply backs_up_bind_backup_file. touch.
Qed.

Lemma backs_up_on_unused_import issue :
  backs_up (on_unused_import structure now issue).
Proof.
  destruct issue; try apply backs_up_ret.
  apply backs_up_bind_backup_file. touch.
Qed.

Lemma backs_up_on_unused_variable issue :
  backs_up (on_unused_variable ast_parse structure now issue).
Proof.
  destruct issue; try apply backs_up_ret.
  apply backs_up_bind_backup_file. unfold remove_assignment. touch.
Qed.

Lemma backs_up_on_hardcoded_secret issue :
  backs_up (on_hardcoded_secret structure now issue).
Proof.
  destruct issue; try apply backs_up_ret.
  apply backs_up_bind_backup_file. touch.
Qed.

Lemma backs_up_on_insecure_config issue :
  backs_up (on_insecure_config structure now issue).
Proof.
  destruct issue; try apply backs_up_ret.
  apply backs_up_bind_backup_file. touch.
Qed.

Lemma backs_up_on_n_plus_1 issue : backs_up (on_n_plus_1 structure now issue).
Proof.
  destruct issue; try apply backs_up_ret.
  apply backs_up_bind_backup_file. touch.
Qed.

Lemma backs_up_on_eager_loading issue :
  backs_up (on_eager_loading structure now issue).
Proof.
  destruct issue; try apply backs_up_ret.
  apply backs_up_bind_backup_file. touch.
Qed.

Local Abbreviation all_repairs :=
  (repairs ast_parse get_templates get_routes real_quick_ratio quick_ratio ratio
     template_extending structure issues now).

Local Abbreviation all_passes :=
  (passes ast_parse get_templates get_routes real_quick_ratio quick_ratio ratio
     template_extending structure issues now).

(** The step of one loop body. *)
Definition run (s : HealingEngine) (m : M unit) : HealingEngine := try_ m s.

(** The six passes of [heal] run the loop bodies of [repairs] one after the
    other. *)
Lemma passes_repairs s : all_passes s = foldl run s all_repairs.
Proof.
  unfold passes, repairs, _heal_performance, _heal_security, _heal_code,
    _heal_database, _heal_templates, _heal_routes, for_each.
  by rewrite !foldl_app, !foldl_fmap.
Qed.

Lemma repairs_back_up m : m ∈ all_repairs → backs_up m.
Proof.
  unfold repairs. rewrite !elem_of_app, !list_elem_of_fmap.
  intros [H|[H|[H|[H|[H|[H|[H|[H|[H|[H|H]]]]]]]]]]; destruct H as (issue & -> & _).
  - apply backs_up_on_missing_return.
  - apply backs_up_on_unclosed_block.
  - apply backs_up_on_invalid_url_for.
  - apply backs_up_on_missing_template.
  - apply backs_up_on_user_model.
  - apply backs_up_on_unused_import.
  - apply backs_up_on_unused_variable.
  - apply backs_up_on_hardcoded_secret.
  - apply backs_up_on_insecure_config.
  - apply backs_up_on_n_plus_1.
  - apply backs_up_on_eager_loading.
Qed.

(** What a session keeps from its start: no file is removed, a backup root
    once named is kept, and a file whose text is no longer the text it had
    is under the backup root or has a backup there. *)
Definition backed_session (s s' : HealingEngine) : Prop :=
  (∀ p, is_Some (files (disk s) !! p) → is_Some (files (disk s') !! p))
  ∧ (∀ root, backup_dir s = Some root → backup_dir s' = Some root)
  ∧ (backup_dir s = None → backup_dir s' = None ∨ backup_dir s' = Some session_root)
  ∧ (∀ p c, files (disk s) !! p = Some c → files (disk s') !! p ≠ Some c →
       ∃ root c', backup_dir s' = Some root
         ∧ (root `prefix_of` p ∨ backup_of (disk s') root p c')).

Lemma backed_session_step s1 s2 s3 :
  backed_session s1 s2 → backed_step s2 s3 → backed_session s1 s3.
Proof.
  intros (Hkeep1 & Hroot1 & Hnone1 & Hcopy1) (Hkeep2 & Hroot2 & Hcopy2).
  assert (Hstable : ∀ root, backup_dir s2 = Some root → backup_dir s3 = Some root).
  { intros root Hroot. destruct Hroot2 as [->|[? _]]; congruence. }
  split; [by intros p Hp; apply Hkeep2, Hkeep1|].
  split; [by intros root Hroot; apply Hstable, Hroot1|]. split.
  { intros Hnone. destruct (Hnone1 Hnone) as [Hn|Hs].
    - destruct Hroot2 as [->|[_ ->]]; [by left|by right].
    - right. by apply Hstable. }
  intros p c Hp Hchanged.
  destruct (decide (files (disk s2) !! p = Some c)) as [Hsame|Hdiff].
  - destruct (Hcopy2 p c Hsame Hchanged) as (root & Hroot & Hcopy). by exists root, c.
  - destruct (Hcopy1 p c Hp Hdiff) as (root & c' & Hroot & Hcopy).
    destruct Hcopy as [Hunder|(rel & q & Hrel & Hq & Hfile)].
    + exists root, c'. split; [by apply Hstable|by left].
    + destruct (Hkeep2 q) as [c'' Hc'']; [by eexists|].
      exists root, c''. split; [by apply Hstable|]. right. by exists rel, q.
Qed.

Lemma backed_session_refl s : backed_session s s.
Proof.
  split; [done|]. split; [done|]. split; [by left|]. by intros p c Hp.
Qed.

Lemma backed_session_foldl l : ∀ s,
  (∀ m, m ∈ l → backs_up m) → backed_session s (foldl run s l).
Proof.
  induction l as [|m l IH] using rev_ind; intros s Hl; [apply backed_session_refl|].
  rewrite foldl_app. simpl. eapply backed_session_step.
  - apply IH. intros m' Hm'. apply Hl. apply elem_of_app. by left.
  - apply Hl. apply elem_of_app. right. apply list_elem_of_here.
Qed.

Local Abbreviation heal_false :=
  (heal ast_parse get_templates get_routes real_quick_ratio quick_ratio ratio
     template_extending structure issues now false).


End Repairs.

End BackupDiscipline.

(** ** A session on a configuration file *)

(** A configuration file with the debug flag set.  File discovery lists it
    among the entry files and among the configuration files, and diagnosis
    scans the two lists one after the other: the setting is reported
    twice. *)
Definition config_text : string :=
"from flask import Flask
import os
class Config:
    DEBUG = True
".

Definition config_healed_text : string :=
"from flask import Flask
import os
class Config:
    DEBUG = os.environ.get('FLASK_ENV', 'production') != 'production'
".

Definition config_path : path := ["srv"; "proj"; "config.py"].

Definition config_backup_path : path :=
  ["srv"; "proj"; "backups"; "backup_1700000000"; "config.py"].

Definition config_tree : Detector.tree := Detector.Dir [] [("config.py", config_text)].

Definition config_structure : Detector.Structure :=
  Eval vm_compute in Detector.detect_flask_project no_parse ["srv"; "proj"] config_tree.

Definition config_fs : FS :=
  {| files := {[ config_path := config_text ]};
     dirs := {[ ["srv"]; ["srv"; "proj"] ]} |}.

Definition config_issues : Issues :=
  Eval vm_compute in Diagnostic.diagnose no_parse config_structure config_fs [] [] [].

Definition config_heal (with_backups : bool) : Healing.HealingEngine :=
  (Healing.heal no_parse no_templates no_routes no_ratio no_ratio no_ratio no_scaffold
     config_structure config_issues 1700000000 with_backups
     (Healing.init config_fs)).1.

Example config_structure_lists :
  Detector.st_app_files config_structure = [config_path]
  ∧ Detector.st_config_files config_structure = [config_path].
Proof. split; reflexivity. Qed.

Example config_issues_twice :
  Diagnostic.diagnose no_parse config_structure config_fs [] [] [] = config_issues
  ∧ i_security config_issues
    = [insecure_config config_path
         (snd (default (Re.Lit "", "") (head Diagnostic.insecure_configs)));
       insecure_config config_path
         (snd (default (Re.Lit "", "") (head Diagnostic.insecure_configs)))].
Proof. split; vm_compute; reflexivity. Qed.


(** The issue reported for the configuration file, the loop body that
    repairs it and the loop body of the secrets, which passes over it. *)
Definition config_issue : Issue := default no_database (head (i_security config_issues)).

Definition config_repair : Healing.M unit :=
  Healing.on_insecure_config config_structure 1700000000 config_issue.

Definition config_pass : Healing.M unit :=
  Healing.on_hardcoded_secret config_structure 1700000000 config_issue.

Definition config_before : Healing.HealingEngine :=
  foldl run (Healing.init config_fs) [config_pass; config_pass].


(** ** The repair of an invalid endpoint *)

Section UrlForRepair.
Import Healing.

Variable get_templates : FS → list Template.
Variable get_routes : FS → list Route.
Variables real_quick_ratio quick_ratio ratio : string → string → Q.
Variable structure : Detector.Structure.
Variable now : N.

(** The endpoints the repair chooses from, read from the files [fs]. *)
Definition candidates (fs : FS) : list string :=
  omap id (get_routes fs ≫= route_endpoints).

(** The file of the template an issue names. *)
Definition template_file (fs : FS) (template : string) : option path :=
  (fun found => t_path found.2)
  <$> list_find (fun t => bool_decide (t_relative_path t = template)) (get_templates fs).

Lemma foldl_greater_elem (r : Q * string) rs :
  foldl (fun best x => if greater x best then x else best) r rs ∈ r :: rs.
Proof.
  revert r. induction rs as [|x rs IH]; intros r; simpl; [apply list_elem_of_here|].
  destruct (greater x r).
  - apply list_elem_of_further, IH.
  - destruct (proj1 (elem_of_cons _ _ _) (IH r)) as [->|Hin];
      [apply list_elem_of_here|by do 2 apply list_elem_of_further].
Qed.

(** [get_close_matches] changes nothing, and an endpoint it returns is one
    of the candidates and passes the three tests against the cutoff. *)
Lemma get_close_matches_spec word possibilities s :
  ∃ r, get_close_matches real_quick_ratio quick_ratio ratio word possibilities s = (s, r)
    ∧ ∀ x l, r = Ok (x :: l) →
        Some x ∈ possibilities
        ∧ close_enough real_quick_ratio quick_ratio ratio word x = true.
Proof.
  unfold get_close_matches. destruct (existsb _ _); [by eexists|].
  destruct (_ <$> filter _ _) as [|r rs] eqn:Hresult; [by eexists|].
  eexists. split; [done|]. intros x l [= <- <-].
  pose proof (foldl_greater_elem r rs) as Hin. rewrite <- Hresult in Hin.
  apply list_elem_of_fmap in Hin as (y & -> & Hy). simpl.
  apply list_elem_of_filter in Hy as [Hclose Hy].
  apply list_elem_of_omap in Hy as (o & Ho & Hid). simpl in Hid. subst o.
  split; [done|]. by apply Is_true_true.
Qed.

(** What [open_template] does: where it returns, the file is that of the
    template, its text is the text read, and no file but the backup is
    changed. *)
Lemma open_template_spec template s :
  ∃ s1 r, open_template get_templates structure now template s = (s1, r)
    ∧ fixes s1 = fixes s
    ∧ (∀ tp, template_file (disk s) template = Some tp →
         files (disk s1) !! tp = files (disk s) !! tp)
    ∧ ∀ tp content, r = Ok (tp, content) →
        template_file (disk s) template = Some tp
        ∧ files (disk s) !! tp = Some content.
Proof.
  unfold open_template, template_file, bind at 1, get_disk.
  destruct (list_find _ _) as [[i t]|]; simpl; [|by eexists _, _].
  destruct (t_path t) as [|x tp0] eqn:Htp; [by eexists _, _|].
  unfold bind.
  destruct (backup_file_spec structure now (x :: tp0) s)
    as (s1 & r1 & -> & Hfix & _ & Hr1).
  destruct r1 as [[]| |].
  - destruct Hr1 as (root & rel & c & q & _ & _ & _ & Hc & Hne & Hfiles).
    assert (Hsame : files (disk s1) !! (x :: tp0) = files (disk s) !! (x :: tp0))
      by (by rewrite Hfiles, lookup_insert_ne).
    unfold read_file, bind, get_disk.
    destruct (read_text (disk s1) (x :: tp0)) as [content|] eqn:Hread;
      unfold from_option, ret, raise; simpl.
    + pose proof (eq_trans (eq_sym Hread) (eq_trans Hsame Hc)) as [= ->].
      eexists _, _. split; [done|]. split; [done|]. split.
      * by intros tp [= <-].
      * by intros tp content [= <- <-].
    + eexists _, _. split; [done|]. split; [done|]. split; [|done].
      by intros tp [= <-].
  - eexists _, _. split; [done|]. split; [done|]. split; [|done].
    intros tp [= <-]. by rewrite Hr1.
  - eexists _, _. split; [done|]. split; [done|]. split; [|done].
    intros tp [= <-]. by rewrite Hr1.
Qed.

(** The files the endpoints are read from: those the backup of the
    template leaves. *)
Definition opened (template : string) (s : HealingEngine) : FS :=
  disk (open_template get_templates structure now template s).1.

(** The two outcomes of the repair. *)
Definition left_alone (template : string) (s s' : HealingEngine) : Prop :=
  fixes s' = fixes s
  ∧ ∀ tp, template_file (disk s) template = Some tp →
      files (disk s') !! tp = files (disk s) !! tp.

Definition rewritten (template endpoint : string) (s s' : HealingEngine) : Prop :=
  ∃ tp content similar,
    template_file (disk s) template = Some tp
    ∧ files (disk s) !! tp = Some content
    ∧ similar ∈ candidates (opened template s)
    ∧ close_enough real_quick_ratio quick_ratio ratio endpoint similar = true
    ∧ fixes s' = append_fix templates (fixed_url_for template endpoint similar) (fixes s)
    ∧ files (disk s') !! tp = Some (rewrite_url_for endpoint similar content).

Lemma heal_invalid_url_for_outcome template endpoint s :
  let s' := try_ (heal_invalid_url_for get_templates get_routes real_quick_ratio
                    quick_ratio ratio structure now template endpoint) s in
  left_alone template s s' ∨ rewritten template endpoint s s'.
Proof.
  unfold try_.
  destruct (heal_invalid_url_for _ _ _ _ _ _ _ _ _ s) as [s' r] eqn:Hrun. simpl.
  unfold heal_invalid_url_for, bind at 1 in Hrun.
  destruct (open_template_spec template s) as (s1 & r1 & Hopen & Hfix & Hfiles & Hr1).
  rewrite Hopen in Hrun.
  assert (Hleft : left_alone template s s1) by (by split).
  destruct r1 as [[tp content]| |]; [|injection Hrun as <- <-; by left..].
  destruct (Hr1 tp content eq_refl) as [Htp Hcontent].
  unfold bind at 1, get_disk in Hrun. simpl in Hrun.
  destruct (get_routes (disk s1) ≫= route_endpoints) as [|e es] eqn:Hendpoints;
    [injection Hrun as <- <-; by left|].
  unfold bind at 1 in Hrun.
  destruct (get_close_matches_spec endpoint (e :: es) s1) as (r2 & Hclosest & Hr2).
  rewrite Hclosest in Hrun.
  destruct r2 as [[|similar l]| |];
    [injection Hrun as <- <-; by left| |injection Hrun as <- <-; by left..].
  destruct (Hr2 similar l eq_refl) as [Hin Hclose].
  unfold bind, write_file, on_disk, open_write, record_fix in Hrun.
  destruct (is_dir (disk s1) tp); [injection Hrun as <- <-; by left|].
  destruct (is_dir (disk s1) (parent tp)); [|injection Hrun as <- <-; by left].
  injection Hrun as <- <-.
  right. exists tp, content, similar. simpl.
  split; [done|]. split; [done|]. split.
  { unfold candidates, opened. rewrite Hopen. simpl. rewrite Hendpoints. apply list_elem_of_omap. by exists (Some similar). }
  split; [done|]. split; [by rewrite Hfix|]. apply lookup_insert_eq.
Qed.

(** C5.  The repair of an invalid endpoint leaves the template file and
    the fixes as they are when every candidate scores below the cutoff;
    and when it rewrites the file or records a fix, the endpoint written
    is a candidate that scores at or above the cutoff, so that the best
    candidate does. *)
Theorem invalid_url_for_cutoff template endpoint s :
  let s' := try_ (heal_invalid_url_for get_templates get_routes real_quick_ratio
                    quick_ratio ratio structure now template endpoint) s in
  let endpoints := candidates (opened template s) in
  ((∀ x, x ∈ endpoints → (ratio x endpoint < cutoff)%Q) → left_alone template s s')
  ∧ (¬ left_alone template s s' →
     ∃ tp content similar,
       template_file (disk s) template = Some tp
       ∧ files (disk s) !! tp = Some content
       ∧ files (disk s') !! tp = Some (rewrite_url_for endpoint similar content)
       ∧ fixes s' = append_fix templates (fixed_url_for template endpoint similar) (fixes s)
       ∧ similar ∈ endpoints
       ∧ (cutoff <= ratio similar endpoint)%Q
       ∧ ∀ best, best ∈ endpoints →
           (∀ x, x ∈ endpoints → (ratio x endpoint <= ratio best endpoint)%Q) →
           (cutoff <= ratio best endpoint)%Q).
Proof.
  intros s' endpoints.
  assert (Hscore : ∀ similar,
            close_enough real_quick_ratio quick_ratio ratio endpoint similar = true →
            (cutoff <= ratio similar endpoint)%Q).
  { intros similar Hclose. unfold close_enough in Hclose.
    apply andb_true_iff in Hclose as [_ Hclose]. by apply Qle_bool_iff. }
  destruct (heal_invalid_url_for_outcome template endpoint s) as [Hleft|Hwritten];
    fold s' in Hleft || fold s' in Hwritten.
  - split; [done|]. by intros [].
  - destruct Hwritten as (tp & content & similar & Htp & Hcontent & Hin & Hclose
                          & Hfix & Hfile).
    fold endpoints in Hin. split.
    + intros Hbelow. exfalso. apply (Qlt_not_le _ _ (Hbelow similar Hin)).
      by apply Hscore.
    + intros _. exists tp, content, similar. repeat split; try done.
      * by apply Hscore.
      * intros best Hbest Hmax. eapply Qle_trans; [by apply Hscore|by apply Hmax].
Qed.

End UrlForRepair.

(** A template that refers to the endpoint [show_usr], in a project whose
    only route is served by [list_all_items], or by [show_user] of the
    application [app]. *)
Definition url_template_text : string :=
  "<a href={{ url_for('show_usr') }}>user</a>".

Definition url_template_path : path := ["srv"; "proj"; "templates"; "index.html"].

Definition url_templates (fs : FS) : list Template :=
  [{| t_path := url_template_path; t_relative_path := "index.html";
      t_name := "index.html" |}].

Definition url_route (app function : string) : Route :=
  {| r_file := ["srv"; "proj"; "app.py"]; r_app_or_blueprint := app;
     r_path := "/"; r_methods := None; r_function := Some function |}.

Definition far_routes (fs : FS) : list Route := [url_route "" "list_all_items"].
Definition near_routes (fs : FS) : list Route := [url_route "app" "show_user"].

Definition url_structure : Detector.Structure :=
  Eval vm_compute in
  Detector.detect_flask_project no_parse ["srv"; "proj"]
    (Detector.Dir [("templates", Detector.Dir [] [("index.html", url_template_text)])] []).

Definition url_fs : FS :=
  {| files := {[ url_template_path := url_template_text ]};
     dirs := {[ ["srv"]; ["srv"; "proj"]; ["srv"; "proj"; "templates"] ]} |}.

Definition url_heal (routes : FS → list Route) : Healing.HealingEngine :=
  Healing.try_ (Healing.heal_invalid_url_for url_templates routes
                  Difflib.real_quick_ratio Difflib.quick_ratio Difflib.ratio
                  url_structure 1700000000 "index.html" "show_usr")
               (Healing.init url_fs).

Example url_scores :
  Difflib.ratio "list_all_items" "show_usr" = 6 # 22
  ∧ Difflib.ratio "show_user" "show_usr" = 16 # 17
  ∧ Difflib.ratio "app.show_user" "show_usr" = 16 # 21.
Proof. repeat split; vm_compute; reflexivity. Qed.

Example url_heal_near :
  files (Healing.disk (url_heal near_routes)) !! url_template_path
  = Some "<a href={{ url_for('show_user') }}>user</a>"
  ∧ Healing.f_templates (Healing.fixes (url_heal near_routes))
    = [Healing.fixed_url_for "index.html" "show_usr" "show_user"]
  ∧ files (Healing.disk (url_heal far_routes)) !! url_template_path
    = Some url_template_text
  ∧ Healing.fixes (url_heal far_routes) = Healing.no_fixes.
Proof. repeat split; vm_compute; reflexivity. Qed.

Lemma invalid_url_for_cutoff_witness :
  left_alone url_templates "index.html" (Healing.init url_fs) (url_heal far_routes)
  ∧ ∃ similar,
      files (Healing.disk (url_heal near_routes)) !! url_template_path
      = Some (Healing.rewrite_url_for "show_usr" similar url_template_text)
      ∧ (Healing.cutoff <= Difflib.ratio similar "show_usr")%Q.
Proof.
  split.
  - apply (proj1 (invalid_url_for_cutoff url_templates far_routes
                    Difflib.real_quick_ratio Difflib.quick_ratio Difflib.ratio
                    url_structure 1700000000 "index.html" "show_usr"
                    (Healing.init url_fs))).
    intros x Hx. apply list_elem_of_singleton in Hx as ->. vm_compute. reflexivity.
  - destruct (proj2 (invalid_url_for_cutoff url_templates near_routes
                       Difflib.real_quick_ratio Difflib.quick_ratio Difflib.ratio
                       url_structure 1700000000 "index.html" "show_usr"
                       (Healing.init url_fs)))
      as (tp & content & similar & Htp & Hcontent & Hfile & _ & _ & Hscore & _).
    + intros [Hfixes _]. vm_compute in Hfixes. discriminate Hfixes.
    + injection Htp as <-.
      assert (Htext : files url_fs !! url_template_path = Some url_template_text)
        by (vm_compute; reflexivity).
      pose proof (eq_trans (eq_sym Htext) Hcontent) as [= <-].
      exists similar. split; [exact Hfile|exact Hscore].
Defined.

(** ** The repair of a missing return *)

(** A route file of two blueprints, each with a view named [index] that
    returns nothing, and the texts after one and after two repairs. *)
Definition two_index_text : string :=
"from flask import Blueprint, render_template
users = Blueprint('users', __name__)
admin = Blueprint('admin', __name__)

@users.route('/users')
def index():
    pass

@admin.route('/admin')
def index():
    pass
".

Definition two_index_once : string :=
"from flask import Blueprint, render_template
users = Blueprint('users', __name__)
admin = Blueprint('admin', __name__)

@users.route('/users')
def index():
    return render_template('proj/index.html')
    pass

@admin.route('/admin')
def index():
    pass
".

Definition two_index_twice : string :=
"from flask import Blueprint, render_template
users = Blueprint('users', __name__)
admin = Blueprint('admin', __name__)

@users.route('/users')
def index():
    return render_template('proj/index.html')
    return render_template('proj/index.html')
    pass

@admin.route('/admin')
def index():
    pass
".

(** The trees [ast.parse] builds for the three texts: the import, the two
    assignments and the two definitions, every statement [pass] as a node
    without children. *)
Definition blueprint_assign (name : string) (lineno : nat) : Ast.node :=
  Ast.Assign [Ast.Name name] (Ast.Call (Ast.Name "Blueprint")) lineno.

Definition index_def (blueprint : string) (body : list Ast.node)
    (lineno end_lineno : nat) : Ast.node :=
  Ast.FunctionDef "index" [Ast.Call (Ast.Attribute (Ast.Name blueprint) "route")]
                  body lineno end_lineno.

Definition two_index_module (returns : list Ast.node) (n : nat) : list Ast.node :=
  [Ast.Other []; blueprint_assign "users" 2; blueprint_assign "admin" 3;
   index_def "users" (returns ++ [Ast.Other []]) 6 (7 + n);
   index_def "admin" [Ast.Other []] (10 + n) (11 + n)].

Definition two_index_parse (content : string) : option (list Ast.node) :=
  if bool_decide (content = two_index_text) then Some (two_index_module [] 0)
  else if bool_decide (content = two_index_once)
  then Some (two_index_module [Ast.Return] 1)
  else if bool_decide (content = two_index_twice)
  then Some (two_index_module [Ast.Return; Ast.Return] 2)
  else None.

Definition two_index_path : path := ["srv"; "proj"; "app.py"].

Definition two_index_structure : Detector.Structure :=
  Eval vm_compute in
  Detector.detect_flask_project two_index_parse ["srv"; "proj"]
    (Detector.Dir [] [("app.py", two_index_text)]).

Definition two_index_fs : FS :=
  {| files := {[ two_index_path := two_index_text ]};
     dirs := {[ ["srv"]; ["srv"; "proj"] ]} |}.

(** The routes of the file as [get_routes] lists them. *)
Definition two_index_routes (fs : FS) : list Route :=
  [{| r_file := two_index_path; r_app_or_blueprint := "users"; r_path := "/users";
      r_methods := None; r_function := None |};
   {| r_file := two_index_path; r_app_or_blueprint := "admin"; r_path := "/admin";
      r_methods := None; r_function := None |}].

(** Diagnosis of the files [fs], and the functions it reports without a
    return. *)
Definition two_index_diagnose (fs : FS) : Issues :=
  Diagnostic.diagnose two_index_parse two_index_structure fs (two_index_routes fs) [] [].

Definition is_missing_return (i : Issue) : bool :=
  match i with missing_return _ _ _ => true | _ => false end.

Definition missing_returns (fs : FS) : list Issue :=
  filter (fun i => is_missing_return i) (i_routes (two_index_diagnose fs)).

(** The repair of one issue, and the whole of [heal]. *)
Definition two_index_repair (issue : Issue) : Healing.HealingEngine :=
  Healing.try_ (Healing.on_missing_return two_index_parse no_scaffold two_index_structure
                  1700000000 issue)
               (Healing.init two_index_fs).

Definition two_index_healed : Healing.HealingEngine :=
  (Healing.heal two_index_parse no_templates two_index_routes
     Difflib.real_quick_ratio Difflib.quick_ratio Difflib.ratio no_scaffold
     two_index_structure (two_index_diagnose two_index_fs) 1700000000 true
     (Healing.init two_index_fs)).1.


(** * Further properties of the three modules *)

(** ** File discovery *)

Section FileDiscovery.
Import Detector.

Variable ast_parse : string -> option (list Ast.node).

(** A regular file of the tree, by its path below the root of the tree. *)
Inductive file_at : tree → path → string → Prop :=
| file_here dirs files file content :
    (file, content) ∈ files → file_at (Dir dirs files) [file] content
| file_below dirs files n sub rel content :
    (n, sub) ∈ dirs → file_at sub rel content →
    file_at (Dir dirs files) (n :: rel) content.

(** A directory of the tree, by its path below the root. *)
Inductive dir_at : tree → path → Prop :=
| dir_here dirs files n sub : (n, sub) ∈ dirs → dir_at (Dir dirs files) [n]
| dir_below dirs files n sub rel :
    (n, sub) ∈ dirs → dir_at sub rel → dir_at (Dir dirs files) (n :: rel).

(** Induction on a tree, with the property for every sub-directory. *)
Lemma tree_ind_dirs (P : tree → Prop) :
  (∀ dirs files, Forall (fun ns => P ns.2) dirs → P (Dir dirs files)) → ∀ t, P t.
Proof.
  intros HP. fix IH 1. intros [dirs files]. apply HP.
  induction dirs as [|[n sub] ds IHds]; constructor; [apply IH|apply IHds].
Qed.

(** The test [_find_flask_files] makes on the text of a Python file. *)
Definition flask_import (content : string) : bool :=
  Text.contains "import Flask" content || Text.contains "from flask import" content.

(** The seven lists of the detector. *)
Definition lists (d : FlaskProjectDetector) : list (list path) :=
  [app_files d; blueprint_files d; template_dirs d; static_dirs d;
   model_files d; route_files d; config_files d].

Definition structure_lists (st : Structure) : list (list path) :=
  [st_app_files st; st_blueprint_files st; st_template_dirs st; st_static_dirs st;
   st_model_files st; st_route_files st; st_config_files st].

Lemma analyze_app_files_lists t d : lists (_analyze_app_files ast_parse t d) = lists d.
Proof. unfold _analyze_app_files. by rewrite analyze_app_files_foldl. Qed.

Lemma detect_project_pattern_lists d : lists (_detect_project_pattern d) = lists d.
Proof. unfold _detect_project_pattern. by repeat case_match. Qed.

Lemma detect_database_lists t d : lists (_detect_database t d) = lists d.
Proof. unfold _detect_database. by repeat case_match. Qed.

Lemma detect_auth_system_lists t d : lists (_detect_auth_system t d) = lists d.
Proof. unfold _detect_auth_system. by repeat case_match. Qed.

(** The lists of the structure [detect] returns are those file discovery
    leaves. *)
Lemma detect_lists t d :
  structure_lists (detected_structure (detect ast_parse t d))
  = lists (_find_flask_files t d).
Proof.
  unfold detect. cbv zeta.
  rewrite <- (analyze_app_files_lists t (_find_flask_files t d)).
  rewrite <- (detect_project_pattern_lists (_analyze_app_files ast_parse t _)).
  rewrite <- (detect_database_lists t (_detect_project_pattern _)).
  rewrite <- (detect_auth_system_lists t (_detect_database t _)).
  reflexivity.
Qed.

Lemma detect_each_list t d :
  let st := detected_structure (detect ast_parse t d) in
  let d1 := _find_flask_files t d in
  st_app_files st = app_files d1
  ∧ st_blueprint_files st = blueprint_files d1
  ∧ st_template_dirs st = template_dirs d1
  ∧ st_static_dirs st = static_dirs d1
  ∧ st_model_files st = model_files d1
  ∧ st_route_files st = route_files d1
  ∧ st_config_files st = config_files d1.
Proof.
  intros st d1. pose proof (detect_lists t d) as Hlists.
  injection Hlists as H1 H2 H3 H4 H5 H6 H7.
  split; [exact H1|]. split; [exact H2|]. split; [exact H3|]. split; [exact H4|].
  split; [exact H5|]. split; [exact H6|exact H7].
Qed.

(** A list of the detector to which [find_file] appends the path of a
    Python file with a Flask import whose text passes the test [marker],
    and which the directories leave as it is. *)
Definition selects (sel : FlaskProjectDetector → list path) (marker : string → bool)
    : Prop :=
  (∀ root d file content,
     sel (find_file root d (file, content))
     = sel d ++ (if Text.endswith ".py" file && flask_import content && marker content
                 then [root ++ [file]] else []))
  ∧ ∀ root names d, sel (add_dirs root names d) = sel d.

Ltac selects_tac :=
  split; [|done]; intros root d file content; unfold find_file, flask_import, cond_append;
  destruct (Text.endswith ".py" file); simpl; [|by rewrite app_nil_r];
  destruct (_ || _); simpl; [|by rewrite app_nil_r];
  try (destruct (_ || _); simpl; by rewrite ?app_nil_r); done.

Lemma selects_app_files : selects app_files (fun _ => true).
Proof. selects_tac. Qed.

Lemma selects_blueprint_files :
  selects blueprint_files
    (fun content => Text.contains "Blueprint(" content || Text.contains "Blueprint (" content).
Proof. selects_tac. Qed.

Lemma selects_model_files :
  selects model_files
    (fun content => Text.contains "db.Model" content || Text.contains "SQLAlchemy" content).
Proof. selects_tac. Qed.

Lemma selects_route_files :
  selects route_files
    (fun content => Text.contains "@app.route" content ||
                    Text.contains "@blueprint.route" content ||
                    Text.contains ".route(" content).
Proof. selects_tac. Qed.

Lemma selects_config_files :
  selects config_files
    (fun content => Text.contains "app.config" content || Text.contains "Config" content).
Proof. selects_tac. Qed.


(** *** The categories are drawn from the entry files *)

Lemma find_file_within sel marker root d f :
  selects sel marker →
  sel d `sublist_of` app_files d →
  sel (find_file root d f) `sublist_of` app_files (find_file root d f).
Proof.
  intros [Hsel _] Hd. destruct f as [file content].
  rewrite Hsel, (proj1 selects_app_files). apply sublist_app; [done|].
  destruct (Text.endswith ".py" file), (flask_import content), (marker content); simpl;
    first [reflexivity|apply sublist_nil_l].
Qed.

Lemma foldl_find_file_within sel marker root files :
  selects sel marker → ∀ d,
  sel d `sublist_of` app_files d →
  sel (foldl (find_file root) d files) `sublist_of` app_files (foldl (find_file root) d files).
Proof.
  intros Hsel. induction files as [|f files IH]; intros d Hd; [done|].
  simpl. apply IH. by eapply find_file_within.
Qed.

Lemma find_flask_files_in_within sel marker t :
  selects sel marker → ∀ root d,
  sel d `sublist_of` app_files d →
  sel (find_flask_files_in root t d) `sublist_of` app_files (find_flask_files_in root t d).
Proof.
  intros Hsel. revert t. fix IH 1. intros [dirs files] root d Hd. simpl.
  assert (H2 : sel (add_dirs root (filter (fun n => kept n) (fst <$> dirs))
                      (foldl (find_file root) d files))
               `sublist_of`
               app_files (add_dirs root (filter (fun n => kept n) (fst <$> dirs))
                            (foldl (find_file root) d files))).
  { rewrite (proj2 Hsel). simpl. by eapply foldl_find_file_within. }
  revert H2.
  generalize (add_dirs root (filter (fun n => kept n) (fst <$> dirs))
                (foldl (find_file root) d files)).
  induction dirs as [|[n sub] ds IHds]; intros d2 H2; [exact H2|].
  destruct (kept n).
  - apply IHds. by apply IH.
  - by apply IHds.
Qed.

Lemma detect_categories_within (p : path) (t : tree) :
  let st := detect_flask_project ast_parse p t in
  st_blueprint_files st `sublist_of` st_app_files st
  ∧ st_model_files st `sublist_of` st_app_files st
  ∧ st_route_files st `sublist_of` st_app_files st
  ∧ st_config_files st `sublist_of` st_app_files st.
Proof.
  intros st.
  destruct (detect_each_list t (init p)) as (Ha & Hb & _ & _ & Hm & Hr & Hc).
  unfold st, detect_flask_project. rewrite Ha, Hb, Hm, Hr, Hc.
  repeat split; unfold _find_flask_files; simpl project_path.
  - by apply (find_flask_files_in_within _ _ t selects_blueprint_files).
  - by apply (find_flask_files_in_within _ _ t selects_model_files).
  - by apply (find_flask_files_in_within _ _ t selects_route_files).
  - by apply (find_flask_files_in_within _ _ t selects_config_files).
Qed.

(** X1.  Every blueprint, model, route and configuration file that [detect]
    lists for a project is one of the entry files it lists, in the same
    order. *)
Theorem categories_within_app_files (p : path) (t : tree) :
  let st := detect_flask_project ast_parse p t in
  st_blueprint_files st `sublist_of` st_app_files st
  ∧ st_model_files st `sublist_of` st_app_files st
  ∧ st_route_files st `sublist_of` st_app_files st
  ∧ st_config_files st `sublist_of` st_app_files st.
Proof. exact (detect_categories_within p t). Qed.

(** *** What is listed *)

(** The files of a directory listing that a list takes. *)
Lemma foldl_find_file_elem sel marker root files :
  selects sel marker → ∀ d f,
  f ∈ sel (foldl (find_file root) d files)
  ↔ f ∈ sel d
    ∨ ∃ file content, (file, content) ∈ files ∧ f = root ++ [file]
        ∧ Text.endswith ".py" file = true ∧ flask_import content = true
        ∧ marker content = true.
Proof.
  intros [Hsel _]. induction files as [|[file content] files IH]; intros d f; cbn [foldl].
  - split; [by left|]. intros [|(? & ? & Hin & _)]; [done|]. by apply elem_of_nil in Hin.
  - rewrite IH, Hsel, elem_of_app. split.
    + intros [[Hd|Hnew]|(file' & content' & Hin & Hrest)].
      * by left.
      * right. exists file, content. split; [apply list_elem_of_here|].
        destruct (Text.endswith ".py" file), (flask_import content), (marker content);
          simpl in Hnew; try by apply elem_of_nil in Hnew.
        by apply list_elem_of_singleton in Hnew.
      * right. exists file', content'. split; [by apply list_elem_of_further|done].
    + intros [Hd|(file' & content' & Hin & Hf & Hpy & Hflask & Hmarker)]; [by left; left|].
      apply elem_of_cons in Hin as [[= -> ->]|Hin].
      * left. right. rewrite Hpy, Hflask, Hmarker. simpl. by apply list_elem_of_singleton.
      * right. by exists file', content'.
Qed.

(** The files below a directory that a list takes: the Python files with
    a Flask import and the marker of the list that no ignored directory
    is above. *)
Lemma find_flask_files_in_elem sel marker t :
  selects sel marker → ∀ root d f,
  f ∈ sel (find_flask_files_in root t d)
  ↔ f ∈ sel d
    ∨ ∃ above file content,
        f = root ++ above ++ [file]
        ∧ file_at t (above ++ [file]) content
        ∧ Forall (fun n => n ∉ ignore_dirs) above
        ∧ Text.endswith ".py" file = true ∧ flask_import content = true
        ∧ marker content = true.
Proof.
  intros Hsel. induction t as [dirs files IH] using tree_ind_dirs.
  intros root d f. simpl.
  set (d2 := add_dirs root (filter (fun n => kept n) (fst <$> dirs))
               (foldl (find_file root) d files)).
  (* the files of the directory itself *)
  assert (H2 : f ∈ sel d2
               ↔ f ∈ sel d
                 ∨ ∃ file content, (file, content) ∈ files ∧ f = root ++ [file]
                     ∧ Text.endswith ".py" file = true ∧ flask_import content = true
                     ∧ marker content = true).
  { unfold d2. rewrite (proj2 Hsel). by apply foldl_find_file_elem. }
  (* the sub-directories *)
  assert (Hdirs : ∀ ds e, ds `suffix_of` dirs →
    f ∈ sel ((fix descend (ds : list (string * tree)) (d : FlaskProjectDetector) :=
                match ds with
                | [] => d
                | (n, sub) :: ds' =>
                    if kept n then descend ds' (find_flask_files_in (root ++ [n]) sub d)
                    else descend ds' d
                end) ds e)
    ↔ f ∈ sel e
      ∨ ∃ n sub above file content,
          (n, sub) ∈ ds ∧ (n ∉ ignore_dirs)
          ∧ f = (root ++ [n]) ++ above ++ [file]
          ∧ file_at sub (above ++ [file]) content
          ∧ Forall (fun n => n ∉ ignore_dirs) above
          ∧ Text.endswith ".py" file = true ∧ flask_import content = true
          ∧ marker content = true).
  { clear H2 d2. induction ds as [|[n sub] ds IHds]; intros e Hds.
    - split; [by left|]. intros [|(? & ? & ? & ? & ? & Hin & _)]; [done|].
      by apply elem_of_nil in Hin.
    - assert (Hsub : ∀ root d f, f ∈ sel (find_flask_files_in root sub d)
                ↔ f ∈ sel d
                  ∨ ∃ above file content,
                      f = root ++ above ++ [file]
                      ∧ file_at sub (above ++ [file]) content
                      ∧ Forall (fun n => n ∉ ignore_dirs) above
                      ∧ Text.endswith ".py" file = true ∧ flask_import content = true
                      ∧ marker content = true).
      { apply (proj1 (Forall_forall _ _) IH (n, sub)).
        destruct Hds as [pre ->]. apply elem_of_app. right. apply list_elem_of_here. }
      assert (Hds' : ds `suffix_of` dirs) by (by eapply suffix_cons_l).
      specialize (IHds (find_flask_files_in (root ++ [n]) sub e) Hds') as IHyes.
      specialize (IHds e Hds') as IHno.
      unfold kept. case_bool_decide as Hkept.
      + rewrite IHyes, Hsub. split.
        * intros [[He|(above & file & content & Hrest)]|Hlater].
          -- by left.
          -- right. exists n, sub, above, file, content.
             split; [apply list_elem_of_here|]. by split.
          -- right. destruct Hlater as (n' & sub' & above & file & content & Hin & Hrest).
             exists n', sub', above, file, content.
             split; [by apply list_elem_of_further|done].
        * intros [He|(n' & sub' & above & file & content & Hin & Hn' & Hrest)];
            [by left; left|].
          apply elem_of_cons in Hin as [[= -> ->]|Hin].
          -- left. right. by exists above, file, content.
          -- right. by exists n', sub', above, file, content.
      + rewrite IHno. split.
        * intros [He|(n' & sub' & above & file & content & Hin & Hrest)]; [by left|].
          right. exists n', sub', above, file, content.
          split; [by apply list_elem_of_further|done].
        * intros [He|(n' & sub' & above & file & content & Hin & Hn' & Hrest)]; [by left|].
          apply elem_of_cons in Hin as [[= -> ->]|Hin]; [done|].
          right. by exists n', sub', above, file, content. }
  rewrite Hdirs by done. rewrite H2. clear Hdirs H2. split.
  - intros [[Hd|(file & content & Hin & -> & Hrest)]|Hbelow].
    + by left.
    + right. exists [], file, content. split; [done|]. split; [by constructor|].
      by split.
    + right. destruct Hbelow as (n & sub & above & file & content & Hin & Hn & -> & Hfile
                                 & Habove & Hrest).
      exists (n :: above), file, content. split; [by rewrite <- !app_assoc|].
      split; [by econstructor|]. split; [by constructor|done].
  - intros [Hd|(above & file & content & -> & Hfile & Habove & Hrest)]; [by left; left|].
    destruct above as [|n above]; simpl in Hfile.
    + inversion Hfile as [? ? ? ? Hin|? ? ? ? ? ? ? Hsub]; subst.
      * left. right. by exists file, content.
      * inversion Hsub.
    + inversion Hfile as [|? ? ? sub ? ? Hin Hsub]; subst.
      * by destruct above.
      * right. apply Forall_cons in Habove as [Hn Habove].
        exists n, sub, above, file, content.
        split; [done|]. split; [done|]. split; [by rewrite <- app_assoc|]. by split.
Qed.



(** *** The directories of templates and of static files *)

(** A list of the detector to which [add_dirs] appends the directory
    [name] of the directory visited, and which the files leave as it
    is. *)
Definition selects_dir (sel : FlaskProjectDetector → list path) (name : string) : Prop :=
  (∀ root d f, sel (find_file root d f) = sel d)
  ∧ ∀ root names d,
      sel (add_dirs root names d)
      = cond_append (bool_decide (name ∈ names)) (root ++ [name]) (sel d).

Lemma selects_template_dirs : selects_dir template_dirs "templates".
Proof.
  split; [|done]. intros root d [file content]. unfold find_file.
  by repeat case_match.
Qed.

Lemma selects_static_dirs : selects_dir static_dirs "static".
Proof.
  split; [|done]. intros root d [file content]. unfold find_file.
  by repeat case_match.
Qed.

Lemma foldl_find_file_dirs sel name root files :
  selects_dir sel name → ∀ d, sel (foldl (find_file root) d files) = sel d.
Proof.
  intros [Hsel _]. induction files as [|f files IH]; intros d; [done|].
  cbn [foldl]. by rewrite IH, Hsel.
Qed.

Lemma find_flask_files_in_dir_elem sel name t :
  selects_dir sel name → name ∉ ignore_dirs → ∀ root d f,
  f ∈ sel (find_flask_files_in root t d)
  ↔ f ∈ sel d
    ∨ ∃ above,
        f = root ++ above ++ [name]
        ∧ dir_at t (above ++ [name])
        ∧ Forall (fun n => n ∉ ignore_dirs) above.
Proof.
  intros Hsel Hname. induction t as [dirs files IH] using tree_ind_dirs.
  intros root d f. simpl.
  set (d2 := add_dirs root (filter (fun n => kept n) (fst <$> dirs))
               (foldl (find_file root) d files)).
  assert (H2 : f ∈ sel d2 ↔ f ∈ sel d ∨ (f = root ++ [name] ∧ ∃ sub, (name, sub) ∈ dirs)).
  { unfold d2. rewrite (proj2 Hsel), (foldl_find_file_dirs _ _ _ _ Hsel).
    unfold cond_append. case_bool_decide as Hin.
    - apply list_elem_of_filter in Hin as [_ Hin].
      apply list_elem_of_fmap in Hin as ([n sub] & -> & Hin). simpl in *.
      rewrite elem_of_app, list_elem_of_singleton. split.
      + intros [|]; [by left|right]. split; [done|by exists sub].
      + intros [|[? _]]; [by left|by right].
    - split; [by left|]. intros [|[_ [sub Hsub]]]; [done|]. exfalso. apply Hin.
      apply list_elem_of_filter. split.
      + unfold kept. by apply bool_decide_pack.
      + apply list_elem_of_fmap. by exists (name, sub). }
  assert (Hdirs : ∀ ds e, ds `suffix_of` dirs →
    f ∈ sel ((fix descend (ds : list (string * tree)) (d : FlaskProjectDetector) :=
                match ds with
                | [] => d
                | (n, sub) :: ds' =>
                    if kept n then descend ds' (find_flask_files_in (root ++ [n]) sub d)
                    else descend ds' d
                end) ds e)
    ↔ f ∈ sel e
      ∨ ∃ n sub above,
          (n, sub) ∈ ds ∧ (n ∉ ignore_dirs)
          ∧ f = (root ++ [n]) ++ above ++ [name]
          ∧ dir_at sub (above ++ [name])
          ∧ Forall (fun n => n ∉ ignore_dirs) above).
  { clear H2 d2. induction ds as [|[n sub] ds IHds]; intros e Hds.
    - split; [by left|]. intros [|(? & ? & ? & Hin & _)]; [done|].
      by apply elem_of_nil in Hin.
    - assert (Hsub : ∀ root d f, f ∈ sel (find_flask_files_in root sub d)
                ↔ f ∈ sel d
                  ∨ ∃ above,
                      f = root ++ above ++ [name]
                      ∧ dir_at sub (above ++ [name])
                      ∧ Forall (fun n => n ∉ ignore_dirs) above).
      { apply (proj1 (Forall_forall _ _) IH (n, sub)).
        destruct Hds as [pre ->]. apply elem_of_app. right. apply list_elem_of_here. }
      assert (Hds' : ds `suffix_of` dirs) by (by eapply suffix_cons_l).
      specialize (IHds (find_flask_files_in (root ++ [n]) sub e) Hds') as IHyes.
      specialize (IHds e Hds') as IHno.
      unfold kept. case_bool_decide as Hkept.
      + rewrite IHyes, Hsub. split.
        * intros [[He|(above & Hrest)]|Hlater].
          -- by left.
          -- right. exists n, sub, above. split; [apply list_elem_of_here|]. by split.
          -- right. destruct Hlater as (n' & sub' & above & Hin & Hrest).
             exists n', sub', above. split; [by apply list_elem_of_further|done].
        * intros [He|(n' & sub' & above & Hin & Hn' & Hrest)]; [by left; left|].
          apply elem_of_cons in Hin as [[= -> ->]|Hin].
          -- left. right. by exists above.
          -- right. by exists n', sub', above.
      + rewrite IHno. split.
        * intros [He|(n' & sub' & above & Hin & Hrest)]; [by left|].
          right. exists n', sub', above. split; [by apply list_elem_of_further|done].
        * intros [He|(n' & sub' & above & Hin & Hn' & Hrest)]; [by left|].
          apply elem_of_cons in Hin as [[= -> ->]|Hin]; [done|].
          right. by exists n', sub', above. }
  rewrite Hdirs by done. rewrite H2. clear Hdirs H2. split.
  - intros [[Hd|[-> [sub Hsub]]]|Hbelow].
    + by left.
    + right. exists []. split; [done|]. split; [by econstructor|done].
    + right. destruct Hbelow as (n & sub & above & Hin & Hn & -> & Hdir & Habove).
      exists (n :: above). split; [by rewrite <- !app_assoc|].
      split; [by econstructor|]. by constructor.
  - intros [Hd|(above & -> & Hdir & Habove)]; [by left; left|].
    destruct above as [|n above]; simpl in Hdir.
    + inversion Hdir as [? ? ? sub Hin|? ? ? ? ? ? Hsub]; subst.
      * left. right. split; [done|by exists sub].
      * inversion Hsub.
    + inversion Hdir as [|? ? ? sub ? Hin Hsub]; subst.
      * by destruct above.
      * right. apply Forall_cons in Habove as [Hn Habove].
        exists n, sub, above.
        split; [done|]. split; [done|]. split; [by rewrite <- app_assoc|]. by split.
Qed.

(** X3.  The template directories and the static directories [detect] lists
    are the directories of the tree with those names above which no
    directory is ignored. *)
Theorem template_and_static_dirs_listed (p : path) (t : tree) (f : path) :
  let st := detect_flask_project ast_parse p t in
  (f ∈ st_template_dirs st
   ↔ ∃ above, f = p ++ above ++ ["templates"]
       ∧ dir_at t (above ++ ["templates"])
       ∧ Forall (fun n => n ∉ ignore_dirs) above)
  ∧ (f ∈ st_static_dirs st
     ↔ ∃ above, f = p ++ above ++ ["static"]
         ∧ dir_at t (above ++ ["static"])
         ∧ Forall (fun n => n ∉ ignore_dirs) above).
Proof.
  intros st.
  destruct (detect_each_list t (init p)) as (_ & _ & Ht & Hs & _).
  unfold st, detect_flask_project. rewrite Ht, Hs.
  unfold _find_flask_files. simpl project_path. split.
  - rewrite (find_flask_files_in_dir_elem _ _ t selects_template_dirs);
      [|apply (bool_decide_unpack _); by vm_compute].
    simpl. split; [intros [Hnil|]; [by apply elem_of_nil in Hnil|done]|by right].
  - rewrite (find_flask_files_in_dir_elem _ _ t selects_static_dirs);
      [|apply (bool_decide_unpack _); by vm_compute].
    simpl. split; [intros [Hnil|]; [by apply elem_of_nil in Hnil|done]|by right].
Qed.

End FileDiscovery.

(** ** Facts about the operations on text *)

Module TextFacts.
Import Text ReFacts.

Lemma prefix_iff p : ∀ s, String.prefix p s = true ↔ ∃ t, s = p +:+ t.
Proof.
  induction p as [|a p IH]; intros s.
  - destruct s; simpl; (split; [intros _; by eexists|done]).
  - destruct s as [|b s]; simpl.
    + split; [done|]. by intros [t Ht].
    + destruct (ascii_dec a b) as [->|Hne].
      * rewrite IH. split; intros [t Ht]; exists t; [by rewrite Ht|by injection Ht].
      * split; [done|]. intros [t Ht]. injection Ht as -> _. done.
Qed.

(** [needle in hay]: the needle occurs in the text. *)
Lemma contains_iff needle : ∀ hay,
  contains needle hay = true ↔ ∃ pre post, hay = pre +:+ needle +:+ post.
Proof.
  induction hay as [|c hay IH]; cbn [contains].
  - rewrite orb_false_r, prefix_iff. split.
    + intros [t Ht]. by exists EmptyString, t.
    + intros (pre & post & H). destruct pre; [by exists post|done].
  - rewrite orb_true_iff, prefix_iff, IH. split.
    + intros [[t Ht]|(pre & post & ->)]; [by exists EmptyString, t|].
      by exists (String c pre), post.
    + intros (pre & post & H). destruct pre as [|c' pre]; [left; by exists post|].
      right. injection H as -> ->. by exists pre, post.
Qed.

(** A literal pattern is found where the text contains the literal. *)
Lemma search_literal l s :
  bool_decide (is_Some (Re.search (Re.Lit l) s)) = contains l s.
Proof.
  apply eq_true_iff_eq. rewrite bool_decide_eq_true, search_iff, contains_iff.
  split.
  - intros (pre & m & post & -> & Hm). inversion Hm; subst. by exists pre, post.
  - intros (pre & post & ->). exists pre, l, post. split; [done|constructor].
Qed.

(** The lines of a text: one more than its line feeds, and joined again
    they are the text. *)
Lemma length_split_lines s : length (split_lines s) = S (count_nl s).
Proof.
  induction s as [|c s IH]; [done|]. simpl.
  destruct (Ascii.eqb c nl); simpl; [by rewrite IH|].
  destruct (split_lines s); simpl in *; [done|lia].
Qed.

Lemma split_lines_nonempty s : split_lines s ≠ [].
Proof. intros H. pose proof (length_split_lines s) as Hl. by rewrite H in Hl. Qed.

Lemma join_lines_cons l ls :
  ls ≠ [] → join_lines (l :: ls) = l +:+ String nl (join_lines ls).
Proof. by destruct ls. Qed.

Lemma join_split_lines s : join_lines (split_lines s) = s.
Proof.
  induction s as [|c s IH]; [done|]. cbn [split_lines].
  destruct (Ascii.eqb c nl) eqn:Hc.
  - apply Ascii.eqb_eq in Hc as ->.
    rewrite join_lines_cons by apply split_lines_nonempty. by rewrite IH.
  - destruct (split_lines s) as [|l ls] eqn:Hs; [by apply split_lines_nonempty in Hs|].
    destruct ls as [|l' ls]; [simpl in *; by rewrite IH|].
    rewrite join_lines_cons by done. rewrite join_lines_cons in IH by done.
    by rewrite <- IH.
Qed.

Lemma count_nl_stake n : ∀ s, count_nl (stake n s) ≤ count_nl s.
Proof.
  induction n as [|n IH]; intros [|c s]; simpl; try lia.
  specialize (IH s). lia.
Qed.

Lemma rev_string_acc s : ∀ acc, rev_string s acc = rev_string s EmptyString +:+ acc.
Proof.
  induction s as [|c s IH]; intros acc; [done|]. simpl.
  rewrite IH, (IH (String c EmptyString)), app_assoc. done.
Qed.

Lemma rev_string_app s t :
  rev_string (s +:+ t) EmptyString
  = rev_string t EmptyString +:+ rev_string s EmptyString.
Proof.
  induction s as [|c s IH]; simpl; [by rewrite app_nil_r|].
  rewrite rev_string_acc, IH, (rev_string_acc s (String c EmptyString)).
  by rewrite app_assoc.
Qed.

(** A text ends with what is appended to it last. *)
Lemma endswith_app p s : endswith p (s +:+ p) = true.
Proof.
  unfold endswith. rewrite rev_string_app. apply prefix_iff. by eexists.
Qed.

Lemma endswith_app_r p s t : endswith p t = true → endswith p (s +:+ t) = true.
Proof.
  unfold endswith. rewrite rev_string_app, !prefix_iff. intros [u ->].
  exists (u +:+ rev_string s EmptyString). by rewrite app_assoc.
Qed.

Lemma stake_sdrop n : ∀ s, stake n s +:+ sdrop n s = s.
Proof.
  induction n as [|n IH]; intros [|c s]; try done.
  cbn [stake sdrop]. by rewrite app_cons, IH.
Qed.

End TextFacts.

(** ** The database and the authentication system *)

Section Backends.
Import Detector.

(** The kind a table of literal markers gives a text: the first kind one
    of whose markers the text contains. *)
Fixpoint first_marked (table : list (string * list string)) (content : string)
    : option string :=
  match table with
  | [] => None
  | (kind, markers) :: table' =>
      if existsb (fun marker => Text.contains marker content) markers
      then Some kind else first_marked table' content
  end.

Definition literals (table : list (string * list string))
    : list (string * list Re.regex) :=
  (fun km : string * list string => (km.1, Re.Lit <$> km.2)) <$> table.

Lemma first_kind_literals table content :
  first_kind (literals table) content = first_marked table content.
Proof.
  induction table as [|[kind markers] table IH]; [done|]. simpl. rewrite IH.
  replace (existsb _ (Re.Lit <$> markers))
    with (existsb (fun marker => Text.contains marker content) markers); [done|].
  induction markers as [|m markers IHm]; [done|]. simpl.
  by rewrite TextFacts.search_literal, IHm.
Qed.

(** The markers of [db_patterns] and of [auth_patterns], as the texts
    they stand for. *)
Definition db_markers : list (string * list string) :=
  [("sqlite", ["sqlite://"; "sqlite:///"; ".db"]);
   ("postgresql", ["postgresql://"; "postgres://"; "psycopg2"]);
   ("mysql", ["mysql://"; "pymysql"; "mysqlclient"]);
   ("mongodb", ["mongodb://"; "pymongo"; "MongoEngine"])].

Definition auth_markers : list (string * list string) :=
  [("flask_login", ["flask_login"; "LoginManager"; "current_user"]);
   ("jwt", ["jwt"; "JWT"; "JWTManager"; "create_access_token"]);
   ("oauth", ["oauth"; "OAuth"; "OAuthlib"]);
   ("session", ["session["; "session."])].

(** X4.  Within one file, the kind of database and the kind of authentication
    are decided by substring tests in the order of the tables: the first
    kind one of whose markers the text contains, whatever markers of later
    kinds it contains as well. *)
Theorem kind_by_first_marker (content : string) :
  first_kind db_patterns content = first_marked db_markers content
  ∧ first_kind auth_patterns content = first_marked auth_markers content.
Proof.
  split.
  - exact (first_kind_literals db_markers content).
  - exact (first_kind_literals auth_markers content).
Qed.

Lemma first_kind_elem table content kind :
  first_kind table content = Some kind → kind ∈ table.*1.
Proof.
  induction table as [|[k patterns] table IH]; [done|]. simpl.
  destruct (existsb _ _).
  - intros [= ->]. apply list_elem_of_here.
  - intros H. by apply list_elem_of_further, IH.
Qed.

(** What [scan_files] returns is the first file of the list with a kind,
    and that kind. *)
Lemma scan_files_some table t d l info :
  scan_files table t d l = Some info →
  ∃ before f after,
    l = before ++ f :: after
    ∧ (∀ g, g ∈ before → file_kind table t d g = None)
    ∧ file_kind table t d f = Some (k_type info)
    ∧ k_file info = Some f.
Proof.
  unfold file_kind. induction l as [|g l IH]; [done|]. simpl.
  destruct (read t d g ≫= first_kind table) as [kind|] eqn:Hg.
  - intros [= <-]. exists [], g, l. split; [done|]. split; [|done].
    intros g' Hg'. by apply elem_of_nil in Hg'.
  - intros Hl. destruct (IH Hl) as (before & f & after & -> & Hbefore & Hf & Hfile).
    exists (g :: before), f, after. split; [done|]. split; [|done].
    intros g' Hg'. apply elem_of_cons in Hg' as [->|Hg']; [done|by apply Hbefore].
Qed.

Lemma scan_files_none_inv table t d l :
  scan_files table t d l = None → ∀ g, g ∈ l → file_kind table t d g = None.
Proof.
  unfold file_kind. induction l as [|g l IH]; simpl.
  - intros _ g Hg. by apply elem_of_nil in Hg.
  - destruct (read t d g ≫= first_kind table) as [kind|] eqn:Hg; [done|].
    intros Hl g' Hg'. apply elem_of_cons in Hg' as [->|Hg']; [done|by apply IH].
Qed.

(** X5.  [_detect_database] always sets the key [database].  Either a file has
    a marker: the first such file among the entry files followed by the
    configuration files is reported, with one of the four kinds.  Or none
    has: the result is [unknown_sql] with the first model file where there
    are model files, and [none] without a file where there are not, in
    which case the attribute [db_type] is left as it was. *)
Theorem detect_database_result (t : tree) (d : FlaskProjectDetector) :
  let d' := _detect_database t d in
  ∃ info, st_database (detected_structure d') = Some info
    ∧ ((∃ before f after,
          app_files d ++ config_files d = before ++ f :: after
          ∧ (∀ g, g ∈ before → file_kind db_patterns t d g = None)
          ∧ file_kind db_patterns t d f = Some (k_type info)
          ∧ k_file info = Some f
          ∧ k_type info ∈ ["sqlite"; "postgresql"; "mysql"; "mongodb"]
          ∧ db_type d' = Some (k_type info))
       ∨ ((∀ g, g ∈ app_files d ++ config_files d → file_kind db_patterns t d g = None)
          ∧ info = match model_files d with
                   | m :: _ => KindInfo "unknown_sql" (Some m)
                   | [] => KindInfo "none" None
                   end
          ∧ db_type d' = match model_files d with
                         | _ :: _ => Some "unknown_sql"
                         | [] => db_type d
                         end)).
Proof.
  intros d'. unfold d', _detect_database.
  destruct (scan_files db_patterns t d (app_files d ++ config_files d)) as [info|] eqn:Hscan.
  - exists info. split; [done|]. left.
    destruct (scan_files_some _ _ _ _ _ Hscan) as (before & f & after & Hl & Hbefore & Hf & Hfile).
    exists before, f, after. repeat split; try done.
    unfold file_kind in Hf. destruct (read t d f) as [content|]; [|done].
    apply (first_kind_elem db_patterns content). exact Hf.
  - pose proof (scan_files_none_inv _ _ _ _ Hscan) as Hnone.
    destruct (model_files d) as [|m ms]; eexists; (split; [done|]); by right.
Qed.

(** X6.  [_detect_auth_system] always sets the key [auth]: to the kind of the
    first entry file with a marker, one of the four kinds, or to [none]
    without a file where no entry file has a marker, the attribute
    [auth_system] being left as it was then. *)
Theorem detect_auth_system_result (t : tree) (d : FlaskProjectDetector) :
  let d' := _detect_auth_system t d in
  ∃ info, st_auth (detected_structure d') = Some info
    ∧ ((∃ before f after,
          app_files d = before ++ f :: after
          ∧ (∀ g, g ∈ before → file_kind auth_patterns t d g = None)
          ∧ file_kind auth_patterns t d f = Some (k_type info)
          ∧ k_file info = Some f
          ∧ k_type info ∈ ["flask_login"; "jwt"; "oauth"; "session"]
          ∧ auth_system d' = Some (k_type info))
       ∨ ((∀ g, g ∈ app_files d → file_kind auth_patterns t d g = None)
          ∧ info = KindInfo "none" None
          ∧ auth_system d' = auth_system d)).
Proof.
  intros d'. unfold d', _detect_auth_system.
  destruct (scan_files auth_patterns t d (app_files d)) as [info|] eqn:Hscan.
  - exists info. split; [done|]. left.
    destruct (scan_files_some _ _ _ _ _ Hscan) as (before & f & after & Hl & Hbefore & Hf & Hfile).
    exists before, f, after. repeat split; try done.
    unfold file_kind in Hf. destruct (read t d f) as [content|]; [|done].
    apply (first_kind_elem auth_patterns content). exact Hf.
  - pose proof (scan_files_none_inv _ _ _ _ Hscan) as Hnone.
    eexists. split; [done|]. by right.
Qed.

End Backends.

(** ** Diagnosis of the templates and of the security *)

Section TemplateUse.
Import Detector Diagnostic.

Variable ast_parse : string -> option (list Ast.node).

Lemma diagnose_templates_list structure fs routes templates references :
  i_templates (diagnose ast_parse structure fs routes templates references)
  = i_templates (_diagnose_templates fs templates references routes no_issues).
Proof. reflexivity. Qed.

Lemma template_issues_kinds fs routes template issue :
  issue ∈ template_issues fs routes template →
  (∃ rel block, issue = unclosed_block rel block)
  ∨ ∃ rel endpoint, issue = invalid_url_for rel endpoint.
Proof.
  unfold template_issues. destruct (read_text fs (t_path template)) as [content|];
    [|by intros H; apply elem_of_nil in H].
  rewrite elem_of_app. intros [H|H].
  - left. unfold unclosed_blocks in H.
    apply list_elem_of_bind in H as (block & H & _).
    case_bool_decide; [by apply elem_of_nil in H|].
    apply list_elem_of_singleton in H. by eexists _, _.
  - right. unfold invalid_url_fors in H.
    apply list_elem_of_bind in H as (ref & H & _).
    destruct (endpoint_exists routes ref); [by apply elem_of_nil in H|].
    apply list_elem_of_singleton in H. by eexists _, _.
Qed.

(** X7.  A template is reported missing exactly when it is a key of the
    references and no template has it as relative path or as file name;
    a template is reported unused exactly when neither its relative path
    nor its file name is a key of the references. *)
Theorem missing_and_unused_templates structure fs routes templates references :
  let issues := i_templates (diagnose ast_parse structure fs routes templates references) in
  (∀ name files,
     missing_template name files ∈ issues
     ↔ (name, files) ∈ references
       ∧ ∀ template, template ∈ templates →
           t_relative_path template ≠ name ∧ t_name template ≠ name)
  ∧ (∀ rel,
       unused_template rel ∈ issues
       ↔ ∃ template, template ∈ templates ∧ t_relative_path template = rel
           ∧ ∀ name files, (name, files) ∈ references →
               t_relative_path template ≠ name ∧ t_name template ≠ name).
Proof.
  intros issues. unfold issues. rewrite diagnose_templates_list.
  unfold _diagnose_templates. simpl.
  assert (Hmatch : ∀ name template,
            template_matches name template = false
            ↔ t_relative_path template ≠ name ∧ t_name template ≠ name).
  { intros name template. unfold template_matches.
    rewrite orb_false_iff, !bool_decide_eq_false. done. }
  split.
  - intros name files. rewrite !elem_of_app. split.
    + intros [H|[H|H]].
      * apply list_elem_of_bind in H as ([name' files'] & H & Hin).
        destruct (existsb (template_matches name') templates) eqn:Hex;
          [by apply elem_of_nil in H|].
        apply list_elem_of_singleton in H. injection H as -> ->.
        split; [done|]. intros template Htemplate. apply Hmatch.
        destruct (template_matches name' template) eqn:Hm; [|done].
        assert (existsb (template_matches name') templates = true); [|congruence].
        apply existsb_exists. exists template. split; [|done].
        by apply list_elem_of_In.
      * apply list_elem_of_bind in H as (template & H & _).
        apply template_issues_kinds in H as [(? & ? & ?)|(? & ? & ?)]; done.
      * apply list_elem_of_bind in H as (template & H & _).
        destruct (existsb _ references); [by apply elem_of_nil in H|].
        by apply list_elem_of_singleton in H.
    + intros [Hin Hnone]. left. apply list_elem_of_bind. exists (name, files).
      split; [|done].
      replace (existsb (template_matches name) templates) with false;
        [apply list_elem_of_here|].
      symmetry. apply not_true_is_false. intros Hex.
      apply existsb_exists in Hex as (template & Htemplate & Hm).
      apply list_elem_of_In in Htemplate.
      apply (proj2 (Hmatch name template)) in Hnone; [congruence|done].
  - intros rel. rewrite !elem_of_app. split.
    + intros [H|[H|H]].
      * apply list_elem_of_bind in H as ([name' files'] & H & Hin).
        destruct (existsb (template_matches name') templates);
          [by apply elem_of_nil in H|]. by apply list_elem_of_singleton in H.
      * apply list_elem_of_bind in H as (template & H & _).
        apply template_issues_kinds in H as [(? & ? & ?)|(? & ? & ?)]; done.
      * apply list_elem_of_bind in H as (template & H & Hin).
        destruct (existsb _ references) eqn:Hex; [by apply elem_of_nil in H|].
        apply list_elem_of_singleton in H. injection H as ->.
        exists template. split; [done|]. split; [done|].
        intros name files Href. apply Hmatch.
        destruct (template_matches name template) eqn:Hm; [|done].
        assert (existsb (fun '(referenced, _) => template_matches referenced template)
                  references = true); [|congruence].
        apply existsb_exists. exists (name, files). split; [|done].
        by apply list_elem_of_In.
    + intros (template & Hin & <- & Hnone). right. right.
      apply list_elem_of_bind. exists template. split; [|done].
      replace (existsb _ references) with false; [apply list_elem_of_here|].
      symmetry. apply not_true_is_false. intros Hex.
      apply existsb_exists in Hex as ([name files] & Href & Hm).
      apply list_elem_of_In in Href.
      assert (template_matches name template = false); [|congruence].
      apply Hmatch. by eapply Hnone.
Qed.

End TemplateUse.

Section SecurityScan.
Import Detector Diagnostic.

Variable ast_parse : string -> option (list Ast.node).

Lemma diagnose_security_list structure fs routes templates references :
  i_security (diagnose ast_parse structure fs routes templates references)
  = ((st_app_files structure ++ st_config_files structure) ≫= file_secrets fs)
    ++ ((st_app_files structure ++ st_config_files structure) ≫= file_configs fs).
Proof. reflexivity. Qed.

(** What is found in a file that two lists scanned one after the other
    both name is found twice. *)
Lemma bind_twice {A B} (g : A → list B) (l1 l2 : list A) x y :
  x ∈ l1 → x ∈ l2 → y ∈ g x →
  ∃ u1 u2 u3, (l1 ++ l2) ≫= g = u1 ++ y :: u2 ++ y :: u3.
Proof.
  intros H1 H2 Hy.
  apply list_elem_of_split in H1 as (a1 & a2 & ->).
  apply list_elem_of_split in H2 as (c1 & c2 & ->).
  apply list_elem_of_split in Hy as (g1 & g2 & Hg).
  rewrite !bind_app, !bind_cons, Hg.
  exists ((a1 ≫= g) ++ g1), (g2 ++ (a2 ≫= g) ++ (c1 ≫= g) ++ g1), (g2 ++ (c2 ≫= g)).
  by rewrite <- !app_assoc.
Qed.

(** X8.  A configuration file is an entry file as well, and the scan for
    secrets and for insecure settings reads the entry files and then the
    configuration files: whatever it finds in a configuration file, it
    reports twice. *)
Theorem config_file_reported_twice (p : path) (t : tree) fs routes templates references
    (f : path) (issue : Issue) :
  let st := detect_flask_project ast_parse p t in
  f ∈ st_config_files st →
  issue ∈ file_secrets fs f ++ file_configs fs f →
  ∃ l1 l2 l3,
    i_security (diagnose ast_parse st fs routes templates references)
    = l1 ++ issue :: l2 ++ issue :: l3.
Proof.
  intros st Hconfig Hissue. rewrite diagnose_security_list.
  assert (Happ : f ∈ st_app_files st).
  { eapply elem_of_sublist; [done|]. apply (detect_categories_within ast_parse p t). }
  apply elem_of_app in Hissue as [Hissue|Hissue].
  - destruct (bind_twice (file_secrets fs) _ _ f issue Happ Hconfig Hissue)
      as (u1 & u2 & u3 & ->).
    exists u1, u2, (u3 ++ ((st_app_files st ++ st_config_files st) ≫= file_configs fs)).
    by simplify_list_eq.
  - destruct (bind_twice (file_configs fs) _ _ f issue Happ Hconfig Hissue)
      as (u1 & u2 & u3 & ->).
    exists (((st_app_files st ++ st_config_files st) ≫= file_secrets fs) ++ u1), u2, u3.
    by simplify_list_eq.
Qed.

(** X9.  The line a hard-coded secret is reported on is a line of the file
    scanned: between one and the number of lines of its text. *)
Theorem secret_line_in_file fs (scanned f : path) (line : nat) (description : string) :
  hardcoded_secret f line description ∈ file_secrets fs scanned →
  f = scanned
  ∧ ∃ content, read_text fs f = Some content
      ∧ 1 ≤ line ≤ length (Text.split_lines content)
      ∧ is_Some (Text.split_lines content !! (line - 1)).
Proof.
  unfold file_secrets. destruct (read_text fs scanned) as [content|] eqn:Hread;
    [|by intros H; apply elem_of_nil in H].
  intros H. apply list_elem_of_bind in H as ([pattern description'] & H & _).
  apply list_elem_of_fmap in H as (m & [= -> -> ->] & _).
  split; [done|]. exists content. split; [done|].
  pose proof (TextFacts.count_nl_stake m.1.1 content) as Hle.
  rewrite TextFacts.length_split_lines. split; [lia|].
  apply lookup_lt_is_Some. rewrite TextFacts.length_split_lines. lia.
Qed.

End SecurityScan.

(** ** What a healing session leaves alone *)

Section HealingSession.
Import Healing.

Variable ast_parse : string → option (list Ast.node).
Variable get_templates : FS → list Template.
Variable get_routes : FS → list Route.
Variables real_quick_ratio quick_ratio ratio : string → string → Q.
Variable template_extending : string → string.
Variable structure : Detector.Structure.
Variable issues : Issues.
Variable now : N.

Local Abbreviation project := (Detector.st_project_path structure).

(** [create_backups] names the backup root and makes its directories; it
    changes no file. *)
Lemma create_backups_spec s :
  ∃ s' r, create_backups structure now None s = (s', r)
    ∧ files (disk s') = files (disk s)
    ∧ fixes s' = fixes s
    ∧ backup_dir s' = Some (session_root structure now).
Proof.
  unfold create_backups, bind, set_backup_dir, on_disk, mkdir_parents. simpl.
  destruct (existsb _ _); by eexists _, _.
Qed.

Lemma relative_to_prefix base : ∀ p,
  base `prefix_of` p → is_Some (Detector.relative_to base p).
Proof.
  induction base as [|b base IH]; intros p [rest ->]; simpl; [done|].
  rewrite bool_decide_eq_true_2 by done. apply IH. by exists rest.
Qed.

Lemma passes_session s :
  backed_session structure now s
    (passes ast_parse get_templates get_routes real_quick_ratio quick_ratio
       ratio template_extending structure issues now s).
Proof.
  rewrite passes_repairs. apply backed_session_foldl.
  intros m Hm. by eapply repairs_back_up.
Qed.

End HealingSession.

(** ** The backup of a file *)

Section BackupFile.
Import Healing.

Variable structure : Detector.Structure.
Variable now : N.

Local Abbreviation project := (Detector.st_project_path structure).

(** X10.  A backup that returns has copied the file: the text of the file is
    at the path under the backup root that mirrors its path in the
    project (or in the directory of that name), the file itself and
    every other file are as they were, and the backup root is the one of
    the engine, or the one of the session where the engine had none. *)
Theorem backup_file_copies (p : path) s s' :
  backup_file structure now p s = (s', Ok tt) →
  ∃ root rel c q,
    backup_dir s' = Some root
    ∧ (backup_dir s = Some root
       ∨ (backup_dir s = None ∧ root = session_root structure now))
    ∧ Detector.relative_to project p = Some rel
    ∧ (q = root ++ rel ∨ q = (root ++ rel) ++ [name_of p])
    ∧ files (disk s) !! p = Some c
    ∧ files (disk s') !! q = Some c
    ∧ files (disk s') !! p = Some c
    ∧ (∀ p', p' ≠ q → files (disk s') !! p' = files (disk s) !! p')
    ∧ fixes s' = fixes s.
Proof.
  intros Hrun.
  destruct (backup_file_spec structure now p s) as (s1 & r & Hspec & Hfix & Hroot & Hr).
  pose proof (eq_trans (eq_sym Hrun) Hspec) as [= <- <-].
  destruct Hr as (root & rel & c & q & Hbd & Hrel & Hq & Hc & Hne & Hfiles).
  exists root, rel, c, q. split; [done|]. split.
  { destruct Hroot as [Hsame|[Hnone Hs]]; [left|right]; [congruence|].
    split; [done|congruence]. }
  split; [done|]. split; [done|]. split; [done|].
  split; [by rewrite Hfiles, lookup_insert_eq|].
  split; [by rewrite Hfiles, lookup_insert_ne|].
  split; [|done]. intros p' Hp'. by rewrite Hfiles, lookup_insert_ne.
Qed.

(** X11.  The backup of a file that is not below the project directory raises,
    and no file is changed. *)
Theorem backup_file_outside_project (p : path) s :
  Detector.relative_to project p = None →
  ∃ s', backup_file structure now p s = (s', Raised)
    ∧ files (disk s') = files (disk s)
    ∧ fixes s' = fixes s.
Proof.
  intros Houtside.
  destruct (backup_file_spec structure now p s) as (s1 & r & Hspec & Hfix & Hroot & Hr).
  exists s1. destruct r as [[]| |].
  - destruct Hr as (? & ? & ? & ? & _ & Hrel & _). congruence.
  - exfalso. revert Hspec.
    unfold backup_file, create_backups, bind, get_backup_dir, set_backup_dir,
      from_option, on_disk, ret, raise.
    rewrite Houtside.
    destruct (backup_dir s); simpl; [done|].
    by destruct (mkdir_parents _ _).
  - done.
Qed.

End BackupFile.

(** ** The scaffold of a missing template *)

Section EnsureTemplate.
Import Healing.

Variable template_extending : string → string.
Variable structure : Detector.Structure.


End EnsureTemplate.

(** ** The template inferred for a route *)

Section InferTemplate.
Import Healing.

(** X13.  The template [_infer_template_for_route] names for a view is never
    empty and always a file with the extension [.html]; for the views
    [index] and [home] it is [index.html], below the directory of the
    file unless that directory is [routes]. *)
Theorem inferred_template_is_html (function_name : string) (file_path : path) :
  let template := _infer_template_for_route function_name file_path in
  Text.endswith ".html" template = true
  ∧ template ≠ EmptyString
  ∧ (function_name = "index" ∨ function_name = "home" →
     template = (if bool_decide (name_of (parent file_path) = "routes")
                 then EmptyString else name_of (parent file_path) +:+ "/")
                +:+ "index.html").
Proof.
  intros template.
  assert (Hhtml : Text.endswith ".html" template = true).
  { unfold template, _infer_template_for_route.
    destruct (_ || _).
    - apply TextFacts.endswith_app_r. by vm_compute.
    - destruct (list_find _ crud_mapping) as [[i [crud_action template_suffix]]|] eqn:Hfind.
      + apply list_find_Some in Hfind as (Hin & _ & _).
        apply list_elem_of_lookup_2 in Hin.
        repeat apply TextFacts.endswith_app_r.
        unfold crud_mapping in Hin.
        repeat (apply elem_of_cons in Hin as [[= _ ->]|Hin]; [by vm_compute|]).
        by apply elem_of_nil in Hin.
      + repeat apply TextFacts.endswith_app_r. by vm_compute. }
  split; [done|]. split.
  - intros Hempty. rewrite Hempty in Hhtml. by vm_compute in Hhtml.
  - intros Hname. unfold template, _infer_template_for_route.
    replace (bool_decide (function_name = "index") || bool_decide (function_name = "home"))
      with true; [done|].
    symmetry. apply orb_true_iff.
    destruct Hname as [->| ->]; [left|right]; by apply bool_decide_eq_true.
Qed.

End InferTemplate.

(** ** The repair of an unclosed block *)

Section CloseBlock.
Import Healing.

Lemma endblock_tag_is_tag block : is_endblock_tag block (endblock_tag block).
Proof.
  exists " ", " ", block, " ". split; [reflexivity|]. repeat split; by right.
Qed.

Lemma close_block_spec (block content content' : string) :
  close_block block content = Some content' →
  (∃ pre post inserted,
     content = pre +:+ post
     ∧ content' = pre +:+ inserted +:+ post
     ∧ (inserted = endblock_tag block +:+ String Text.nl EmptyString
        ∨ inserted = String Text.nl (endblock_tag block)))
  ∧ ¬ is_Some (Re.search (Diagnostic.endblock_re block) content)
  ∧ is_Some (Re.search (Diagnostic.endblock_re block) content')
  ∧ (∀ relative_path,
       unclosed_block relative_path block
       ∉ Diagnostic.unclosed_blocks relative_path content')
  ∧ close_block block content' = None.
Proof.
  intros Hclose.
  assert (Hshape : ¬ is_Some (Re.search (Diagnostic.endblock_re block) content)
            ∧ ∃ pre post inserted,
                content = pre +:+ post
                ∧ content' = pre +:+ inserted +:+ post
                ∧ (inserted = endblock_tag block +:+ String Text.nl EmptyString
                   ∨ inserted = String Text.nl (endblock_tag block))).
  { unfold close_block in Hclose. case_bool_decide as Hclosed; [done|].
    split; [done|]. revert Hclose.
    destruct (Re.search (block_open_re block) content) as [[[start matched] groups]|];
      [|done].
    destruct (Re.search next_block_re _) as [[[offset matched'] groups']|];
      intros [= <-].
    - exists (Text.stake (start + String.length matched + offset) content),
        (Text.sdrop (start + String.length matched + offset) content),
        (endblock_tag block +:+ String Text.nl EmptyString).
      split; [by rewrite TextFacts.stake_sdrop|]. split; [|by left].
      by rewrite !ReFacts.app_assoc, ReFacts.app_cons, ReFacts.app_nil_l.
    - exists content, EmptyString, (String Text.nl (endblock_tag block)).
      split; [by rewrite ReFacts.app_nil_r|]. split; [|by right].
      by rewrite ReFacts.app_nil_r. }
  destruct Hshape as (Hopen & pre & post & inserted & Hcontent & Hcontent' & Hinserted).
  assert (Hclosed : is_Some (Re.search (Diagnostic.endblock_re block) content')).
  { apply search_endblock_iff. exists (endblock_tag block).
    split; [apply endblock_tag_is_tag|]. rewrite Hcontent'.
    destruct Hinserted as [-> | ->].
    - exists pre, (String Text.nl post).
      by rewrite !ReFacts.app_assoc, ReFacts.app_cons, ReFacts.app_nil_l.
    - exists (pre +:+ String Text.nl EmptyString), post.
      by rewrite !ReFacts.app_assoc, !ReFacts.app_cons, ReFacts.app_nil_l. }
  split; [by exists pre, post, inserted|]. split; [done|]. split; [done|]. split.
  - intros relative_path Hin. apply unclosed_blocks_elem in Hin as [_ Hin]. done.
  - unfold close_block. by rewrite bool_decide_eq_true_2.
Qed.


(** X14.  The text [close_block] writes is the text read with one [endblock]
    tag for the block and one line feed inserted, nothing else changed;
    the diagnosis finds the block closed in it, and a second repair of
    the block writes nothing. *)
Theorem close_block_closes (block content content' : string) :
  close_block block content = Some content' →
  (∃ pre post inserted,
     content = pre +:+ post
     ∧ content' = pre +:+ inserted +:+ post
     ∧ (inserted = endblock_tag block +:+ String Text.nl EmptyString
        ∨ inserted = String Text.nl (endblock_tag block)))
  ∧ ¬ is_Some (Re.search (Diagnostic.endblock_re block) content)
  ∧ is_Some (Re.search (Diagnostic.endblock_re block) content')
  ∧ (∀ relative_path,
       unclosed_block relative_path block
       ∉ Diagnostic.unclosed_blocks relative_path content')
  ∧ close_block block content' = None.
Proof. exact (close_block_spec block content content'). Qed.

Variable get_templates : FS → list Template.
Variable structure : Detector.Structure.
Variable now : N.

(** X15.  The repair of an unclosed block either leaves the fixes and the file
    of the template as they are, or writes into that file the text read
    with the block closed and records the fix: then the diagnosis of the
    text written reports no unclosed block of that name. *)
Theorem unclosed_block_repair (template block : string) s :
  let s' := try_ (heal_unclosed_block get_templates structure now template block) s in
  left_alone get_templates template s s'
  ∨ ∃ tp content content',
      template_file get_templates (disk s) template = Some tp
      ∧ files (disk s) !! tp = Some content
      ∧ close_block block content = Some content'
      ∧ files (disk s') !! tp = Some content'
      ∧ fixes s' = append_fix templates (closed_block template block) (fixes s)
      ∧ ∀ relative_path,
          unclosed_block relative_path block
          ∉ Diagnostic.unclosed_blocks relative_path content'.
Proof.
  unfold try_.
  destruct (heal_unclosed_block _ _ _ _ _ s) as [s' r] eqn:Hrun. simpl.
  unfold heal_unclosed_block, bind at 1 in Hrun.
  destruct (open_template_spec get_templates structure now template s)
    as (s1 & r1 & Hopen & Hfix & Hfiles & Hr1).
  rewrite Hopen in Hrun.
  assert (Hleft : left_alone get_templates template s s1) by (by split).
  destruct r1 as [[tp content]| |]; [|injection Hrun as <- <-; by left..].
  destruct (Hr1 tp content eq_refl) as [Htp Hcontent]. simpl in Hrun.
  destruct (close_block block content) as [content'|] eqn:Hclose;
    [|injection Hrun as <- <-; by left].
  unfold bind, write_file, on_disk, open_write, record_fix in Hrun.
  destruct (is_dir (disk s1) tp); [injection Hrun as <- <-; by left|].
  destruct (is_dir (disk s1) (parent tp)); [|injection Hrun as <- <-; by left].
  injection Hrun as <- <-.
  right. exists tp, content, content'. simpl.
  split; [done|]. split; [done|]. split; [done|].
  split; [apply lookup_insert_eq|]. split; [by rewrite Hfix|].
  by apply (close_block_spec block content content').
Qed.

End CloseBlock.

(** ** The endpoint chosen for an invalid reference *)

Section ClosestMatch.
Import Healing.

Variables real_quick_ratio quick_ratio ratio : string → string → Q.

Lemma greater_le (x r : Q * string) :
  let r' := if greater x r then x else r in
  (r.1 <= r'.1)%Q ∧ (x.1 <= r'.1)%Q.
Proof.
  unfold greater. destruct (Qle_bool x.1 r.1) eqn:Hle; simpl.
  - apply Qle_bool_iff in Hle.
    destruct (Qeq_bool x.1 r.1 && String.ltb r.2 x.2) eqn:Heq; simpl.
    + apply andb_true_iff in Heq as [Heq _]. apply Qeq_bool_iff in Heq.
      split; [rewrite Heq|]; apply Qle_refl.
    + split; [apply Qle_refl|done].
  - split; [|apply Qle_refl]. apply Qlt_le_weak, Qnot_le_lt.
    intros H. apply Qle_bool_iff in H. congruence.
Qed.

Lemma foldl_greater_max rs : ∀ (r y : Q * string),
  y ∈ r :: rs →
  (y.1 <= (foldl (fun best x => if greater x best then x else best) r rs).1)%Q.
Proof.
  induction rs as [|x rs IH]; intros r y Hy; simpl.
  - apply list_elem_of_singleton in Hy as ->. apply Qle_refl.
  - destruct (greater_le x r) as [Hr Hx].
    apply elem_of_cons in Hy as [->|Hy].
    + eapply Qle_trans; [exact Hr|]. apply IH, list_elem_of_here.
    + apply elem_of_cons in Hy as [->|Hy].
      * eapply Qle_trans; [exact Hx|]. apply IH, list_elem_of_here.
      * apply IH. by apply list_elem_of_further.
Qed.

Lemma closest_match_raises (word : string) (possibilities : list (option string)) s :
  (None ∈ possibilities →
   get_close_matches real_quick_ratio quick_ratio ratio word possibilities s = (s, Raised))
  ∧ (None ∉ possibilities →
     existsb (fun x : option string => bool_decide (x = None)) possibilities = false).
Proof.
  unfold get_close_matches. split.
  - intros Hnone. replace (existsb _ possibilities) with true; [done|].
    symmetry. apply existsb_exists. exists None. split; [by apply list_elem_of_In|].
    by apply bool_decide_eq_true.
  - intros Hsome. apply not_true_is_false. intros Hex.
    apply existsb_exists in Hex as (o & Hin & Ho).
    apply bool_decide_eq_true in Ho as ->. by apply list_elem_of_In in Hin.
Qed.

(** [get_close_matches] with [n=1] raises where a candidate is [None];
    otherwise it changes nothing and returns at most one candidate, which
    passes the three tests against the cutoff and whose score no other
    candidate that passes them exceeds. *)
Theorem closest_match_is_best (word : string) (possibilities : list (option string)) s :
  (None ∈ possibilities →
   get_close_matches real_quick_ratio quick_ratio ratio word possibilities s = (s, Raised))
  ∧ (None ∉ possibilities →
     ∃ result,
       get_close_matches real_quick_ratio quick_ratio ratio word possibilities s
       = (s, Ok result)
       ∧ length result ≤ 1
       ∧ (result = [] ↔
          ∀ y, Some y ∈ possibilities →
            close_enough real_quick_ratio quick_ratio ratio word y = false)
       ∧ ∀ x, x ∈ result →
           Some x ∈ possibilities
           ∧ close_enough real_quick_ratio quick_ratio ratio word x = true
           ∧ ∀ y, Some y ∈ possibilities →
               close_enough real_quick_ratio quick_ratio ratio word y = true →
               (ratio y word <= ratio x word)%Q).
Proof.
  split; [apply closest_match_raises|].
  intros Hsome. unfold get_close_matches.
  rewrite (proj2 (closest_match_raises word possibilities s) Hsome).
  - set (close := filter (fun x => close_enough real_quick_ratio quick_ratio ratio word x)
                    (omap id possibilities)).
    assert (Hclose : ∀ y, y ∈ close ↔ Some y ∈ possibilities
              ∧ close_enough real_quick_ratio quick_ratio ratio word y = true).
    { intros y. unfold close. rewrite list_elem_of_filter, list_elem_of_omap. split.
      - intros [Hy (o & Ho & Hid)]. simpl in Hid. subst o. split; [done|].
        by apply Is_true_true.
      - intros [Hy Hc]. split; [by apply Is_true_true|]. by exists (Some y). }
    destruct close as [|c cs] eqn:Hcs; simpl.
    + eexists. split; [done|]. split; [simpl; lia|]. split.
      * split; [|done]. intros _ y Hy.
        destruct (close_enough _ _ _ word y) eqn:Hc; [|done].
        assert (y ∈ []) as Hin by (by apply Hclose). by apply elem_of_nil in Hin.
      * intros x Hx. by apply elem_of_nil in Hx.
    + eexists. split; [done|]. split; [simpl; lia|]. split.
      * split; [done|]. intros Hall. exfalso.
        assert (Hc : c ∈ c :: cs) by apply list_elem_of_here.
        apply Hclose in Hc as [Hin Hc]. rewrite (Hall c Hin) in Hc. done.
      * intros x Hx. apply list_elem_of_singleton in Hx.
        set (pairs := (fun x => (ratio x word, x)) <$> cs) in *.
        set (best := foldl (fun best x => if greater x best then x else best)
                       (ratio c word, c) pairs) in *.
        assert (Hbest : best ∈ (ratio c word, c) :: pairs) by apply foldl_greater_elem.
        change ((ratio c word, c) :: pairs)
          with ((fun x => (ratio x word, x)) <$> (c :: cs)) in Hbest.
        apply list_elem_of_fmap in Hbest as (b & Hb & Hin).
        assert (x = b) as -> by (change (x = best.2) in Hx; by rewrite Hx, Hb).
        apply Hclose in Hin as [Hin Hc]. split; [done|]. split; [done|].
        intros y Hy Hyc.
        assert (Hyin : (ratio y word, y) ∈ (ratio c word, c) :: pairs).
        { change ((ratio c word, c) :: pairs)
            with ((fun x => (ratio x word, x)) <$> (c :: cs)).
          apply list_elem_of_fmap. exists y. split; [done|]. by apply Hclose. }
        pose proof (foldl_greater_max pairs _ _ Hyin) as Hmax. fold best in Hmax.
        by rewrite Hb in Hmax.
Qed.

End ClosestMatch.

Section UrlForWithoutFunction.
Import Healing.

Variable get_templates : FS → list Template.
Variable get_routes : FS → list Route.
Variables real_quick_ratio quick_ratio ratio : string → string → Q.
Variable structure : Detector.Structure.
Variable now : N.

(** X16.  One route for which [get_routes] found no function is enough for the
    repair of an invalid endpoint to be given up: the list of candidates
    then holds [None], the comparison raises, and the template file and
    the fixes are left as they are. *)
Theorem url_for_repair_needs_every_function (template endpoint : string) s :
  (∃ route, route ∈ get_routes (opened get_templates structure now template s)
            ∧ r_function route = None) →
  left_alone get_templates template s
    (try_ (heal_invalid_url_for get_templates get_routes real_quick_ratio
             quick_ratio ratio structure now template endpoint) s).
Proof.
  intros (route & Hroute & Hnone). unfold try_, opened in *.
  destruct (heal_invalid_url_for _ _ _ _ _ _ _ _ _ s) as [s' r] eqn:Hrun. simpl.
  unfold heal_invalid_url_for, bind at 1 in Hrun.
  destruct (open_template_spec get_templates structure now template s)
    as (s1 & r1 & Hopen & Hfix & Hfiles & Hr1).
  rewrite Hopen in Hrun, Hroute. simpl in Hroute.
  assert (Hleft : left_alone get_templates template s s1) by (by split).
  destruct r1 as [[tp content]| |]; [|by injection Hrun as <- <-..].
  unfold bind at 1, get_disk in Hrun. simpl in Hrun.
  assert (Hin : None ∈ get_routes (disk s1) ≫= route_endpoints).
  { apply list_elem_of_bind. exists route. split; [|done].
    unfold route_endpoints. rewrite Hnone. apply list_elem_of_here. }
  destruct (get_routes (disk s1) ≫= route_endpoints) as [|e es] eqn:Hendpoints;
    [by apply elem_of_nil in Hin|].
  unfold bind at 1 in Hrun.
  rewrite (proj1 (closest_match_raises real_quick_ratio quick_ratio ratio endpoint
                    (e :: es) s1) Hin) in Hrun.
  by injection Hrun as <- <-.
Qed.

End UrlForWithoutFunction.

(** ** The variable [lines] of [_heal_performance]

    The two loops of [_heal_performance] assign the same local variable
    [lines].  The body of the second loop assigns it inside its loop over
    the queries of the file and reads it after that loop: where the file
    has no query of the pattern, it reads what an earlier body left.
    [heal_eager_loading] is that body on entry to the method, when the
    variable is not bound; [heal_eager_loading_from] is the body for any
    value of the variable, [None] standing for the unbound variable. *)

Section SharedLines.
Import Healing.

Variable structure : Detector.Structure.
Variable now : N.

Definition lines_read (lines : option (list string)) (content : string)
    : option (list string) :=
  match eager_lines content with
  | Some written => Some written
  | None => lines
  end.

Definition heal_eager_loading_from (lines : option (list string)) (file_path : path)
    : M unit :=
  let* _ := backup_file structure now file_path in
  let* content := read_file file_path in
  let* lines := from_option (lines_read lines content) in
  let* _ := write_file file_path (Text.join_lines lines) in
  record_fix performance (added_eager_loading_warning file_path).

Definition on_eager_loading_from (lines : option (list string)) (issue : Issue) : M unit :=
  match issue with
  | missing_eager_loading file_path => heal_eager_loading_from lines file_path
  | _ => ret tt
  end.

(** The variable after the body of each loop: assigned where the body
    has read the file. *)
Definition lines_after_n_plus_1 (issue : Issue) (lines : option (list string))
    (s : HealingEngine) : option (list string) :=
  match issue with
  | n_plus_1_query file_path line =>
      match backup_file structure now file_path s with
      | (s1, Ok _) =>
          match read_text (disk s1) file_path with
          | Some content =>
              let read := Text.split_lines content in
              match line with
              | S line_index =>
                  match read !! line_index with
                  | Some text => Some (<[line_index := text +:+ n_plus_1_todo]> read)
                  | None => Some read
                  end
              | 0 => Some read
              end
          | None => lines
          end
      | _ => lines
      end
  | _ => lines
  end.

Definition lines_after_eager_loading (issue : Issue) (lines : option (list string))
    (s : HealingEngine) : option (list string) :=
  match issue with
  | missing_eager_loading file_path =>
      match backup_file structure now file_path s with
      | (s1, Ok _) =>
          match read_text (disk s1) file_path with
          | Some content => lines_read lines content
          | None => lines
          end
      | _ => lines
      end
  | _ => lines
  end.

(** [_heal_performance] with the variable: the engine and the variable
    after the two loops. *)
Definition _heal_performance_shared (issues : Issues) (s : HealingEngine)
    : HealingEngine * option (list string) :=
  let first :=
    foldl (fun (acc : HealingEngine * option (list string)) issue =>
             (try_ (on_n_plus_1 structure now issue) acc.1,
              lines_after_n_plus_1 issue acc.2 acc.1))
          (s, None) (i_performance issues) in
  foldl (fun (acc : HealingEngine * option (list string)) issue =>
           (try_ (on_eager_loading_from acc.2 issue) acc.1,
            lines_after_eager_loading issue acc.2 acc.1))
        first (i_performance issues).

(** On entry to the method the body is [heal_eager_loading]. *)
Lemma heal_eager_loading_from_None file_path s :
  heal_eager_loading_from None file_path s = heal_eager_loading structure now file_path s.
Proof.
  unfold heal_eager_loading_from, heal_eager_loading, bind.
  destruct (backup_file structure now file_path s) as [s1 [[]| |]]; try done.
  destruct (read_file file_path s1) as [s2 [content| |]]; try done.
  unfold lines_read. by destruct (eager_lines content).
Qed.


(** The backup of a file leaves it readable with the text it had. *)
Lemma backup_file_keeps_text file_path s s1 :
  backup_file structure now file_path s = (s1, Ok tt) →
  read_text (disk s1) file_path = files (disk s) !! file_path
  ∧ is_Some (files (disk s) !! file_path)
  ∧ fixes s1 = fixes s.
Proof.
  intros Hrun.
  destruct (backup_file_spec structure now file_path s) as (s' & r & Hspec & Hfix & _ & Hr).
  pose proof (eq_trans (eq_sym Hrun) Hspec) as [= <- <-].
  destruct Hr as (root & rel & c & q & _ & _ & _ & Hc & Hne & Hfiles).
  unfold read_text. rewrite Hfiles, lookup_insert_ne by done. by rewrite Hc.
Qed.


(** X18.  Where the variable holds the lines an earlier body left and the file
    has no query of the pattern, the body keeps the variable, and either
    gives up before it writes, the file and the fixes being as they were,
    or writes those lines, joined, over the file and records the fix. *)
Theorem eager_loading_writes_lines_left (stale : list string) (file_path : path)
    (content : string) s :
  files (disk s) !! file_path = Some content →
  eager_lines content = None →
  let s' := try_ (heal_eager_loading_from (Some stale) file_path) s in
  lines_after_eager_loading (missing_eager_loading file_path) (Some stale) s = Some stale
  ∧ ((fixes s' = fixes s ∧ files (disk s') !! file_path = Some content)
     ∨ (files (disk s') !! file_path = Some (Text.join_lines stale)
        ∧ fixes s' = append_fix performance (added_eager_loading_warning file_path)
                       (fixes s))).
Proof.
  intros Hcontent Hquery s'. split.
  - unfold lines_after_eager_loading.
    destruct (backup_file structure now file_path s) as [s1 [[]| |]] eqn:Hbackup; try done.
    destruct (backup_file_keeps_text _ _ _ Hbackup) as (Hread & _ & _).
    rewrite Hread, Hcontent. unfold lines_read. by rewrite Hquery.
  - unfold s', try_.
    destruct (heal_eager_loading_from (Some stale) file_path s) as [s2 r2] eqn:Hrun. simpl.
    unfold heal_eager_loading_from, bind at 1 in Hrun.
    destruct (backup_file_spec structure now file_path s)
      as (s1 & r & Hspec & Hfix & _ & Hr).
    rewrite Hspec in Hrun.
    destruct r as [[]| |];
      [|injection Hrun as <- <-; left; split;
        [done|exact (eq_trans (f_equal (fun m => m !! file_path) Hr) Hcontent)]..].
    assert (Hbackup : ∃ q, q ≠ file_path
              ∧ files (disk s1) = <[q := content]> (files (disk s))).
    { destruct Hr as (root & rel & c & q & _ & _ & _ & Hc & Hne & Hfiles).
      exists q. split; [done|]. by pose proof (eq_trans (eq_sym Hc) Hcontent) as [= ->]. }
    destruct Hbackup as (q & Hne & Hfiles).
    assert (Hread : files (disk s1) !! file_path = Some content).
    { by rewrite Hfiles, lookup_insert_ne. }
    unfold read_file, bind, get_disk, read_text in Hrun. rewrite Hread in Hrun.
    simpl in Hrun. unfold lines_read in Hrun. rewrite Hquery in Hrun. simpl in Hrun.
    unfold write_file, on_disk, open_write, record_fix in Hrun.
    destruct (is_dir (disk s1) file_path); [injection Hrun as <- <-; by left|].
    destruct (is_dir (disk s1) (parent file_path)); [|injection Hrun as <- <-; by left].
    injection Hrun as <- <-. right. simpl.
    split; [apply lookup_insert_eq|by rewrite Hfix].
Qed.

End SharedLines.

Section SharedSession.
Import Healing.

Variable ast_parse : string → option (list Ast.node).
Variable get_templates : FS → list Template.
Variable get_routes : FS → list Route.
Variables real_quick_ratio quick_ratio ratio : string → string → Q.
Variable template_extending : string → string.
Variable structure : Detector.Structure.
Variable issues : Issues.
Variable now : N.

Local Abbreviation project := (Detector.st_project_path structure).

(** The five passes of [heal] before [_heal_performance]. *)
Definition early_passes (s : HealingEngine) : HealingEngine :=
  _heal_security structure issues now
    (_heal_code ast_parse structure issues now
       (_heal_database ast_parse structure issues now
          (_heal_templates get_templates get_routes real_quick_ratio quick_ratio ratio
             template_extending structure issues now
             (_heal_routes ast_parse template_extending structure issues now s)))).

(** [heal(create_backups)] with the variable [lines] of its last pass. *)
Definition heal_shared (with_backups : bool) : M Fixes :=
  let* _ := (if with_backups then create_backups structure now None else ret tt) in
  fun s =>
    let s' := (_heal_performance_shared structure now issues (early_passes s)).1 in
    (s', Ok (fixes s')).

Definition is_n_plus_1 (issue : Issue) : bool :=
  match issue with n_plus_1_query _ _ => true | _ => false end.

Definition is_eager_loading (issue : Issue) : bool :=
  match issue with missing_eager_loading _ => true | _ => false end.

Local Abbreviation step_n_plus_1 :=
  (fun (acc : HealingEngine * option (list string)) issue =>
     (try_ (on_n_plus_1 structure now issue) acc.1,
      lines_after_n_plus_1 structure now issue acc.2 acc.1)).

Local Abbreviation step_eager_loading :=
  (fun (acc : HealingEngine * option (list string)) issue =>
     (try_ (on_eager_loading_from structure now acc.2 issue) acc.1,
      lines_after_eager_loading structure now issue acc.2 acc.1)).

Lemma foldl_step_n_plus_1 l : ∀ acc,
  (foldl step_n_plus_1 acc l).1 = for_each l (on_n_plus_1 structure now) acc.1
  ∧ (Forall (fun issue => is_n_plus_1 issue = false) l →
     (foldl step_n_plus_1 acc l).2 = acc.2).
Proof.
  unfold for_each. induction l as [|issue l IH]; intros acc; [done|]. cbn [foldl].
  destruct (IH (step_n_plus_1 acc issue)) as [IH1 IH2]. split; [exact IH1|].
  intros Hl. apply Forall_cons in Hl as [Hissue Hl]. rewrite (IH2 Hl).
  by destruct issue.
Qed.

Lemma foldl_step_eager_loading_none l : ∀ acc,
  Forall (fun issue => is_eager_loading issue = false) l →
  foldl step_eager_loading acc l
  = (for_each l (on_eager_loading structure now) acc.1, acc.2).
Proof.
  unfold for_each. induction l as [|issue l IH]; intros acc Hl; [by destruct acc|].
  apply Forall_cons in Hl as [Hissue Hl]. cbn [foldl]. rewrite (IH _ Hl).
  by destruct issue.
Qed.

Lemma foldl_step_eager_loading_one l : ∀ s,
  length (filter (fun issue => is_eager_loading issue = true) l) ≤ 1 →
  (foldl step_eager_loading (s, None) l).1
  = for_each l (on_eager_loading structure now) s.
Proof.
  induction l as [|issue l IH]; intros s Hl; [done|].
  destruct (is_eager_loading issue) eqn:Hissue.
  - rewrite filter_cons_True in Hl by done. simpl in Hl.
    assert (Hnone : Forall (fun issue => is_eager_loading issue = false) l).
    { apply Forall_forall. intros x Hx. apply not_true_is_false. intros Hx'.
      assert (x ∈ filter (fun issue => is_eager_loading issue = true) l) as Hin
        by (by apply list_elem_of_filter).
      destruct (filter _ l); [by apply elem_of_nil in Hin|simpl in Hl; lia]. }
    cbn [foldl]. rewrite (foldl_step_eager_loading_none _ _ Hnone).
    destruct issue; try done. unfold for_each. cbn [foldl fst snd].
    unfold on_eager_loading_from, on_eager_loading, try_.
    by rewrite heal_eager_loading_from_None.
  - rewrite filter_cons_False in Hl by (by rewrite Hissue).
    cbn [foldl]. unfold for_each in *. cbn [foldl]. rewrite <- (IH _ Hl).
    by destruct issue.
Qed.



(** *** The session with the variable *)

Lemma backs_up_on_eager_loading_from lines issue :
  backs_up structure now (on_eager_loading_from structure now lines issue).
Proof.
  destruct issue; try apply backs_up_ret.
  apply backs_up_bind_backup_file.
  apply touches_bind; [apply touches_read_file|]. intros content.
  apply touches_bind; [apply touches_from_option|]. intros written.
  apply touches_bind; [apply touches_write_file|]. intros _.
  apply touches_record_fix.
Qed.

Lemma foldl_session (step : HealingEngine * option (list string) → Issue
                            → HealingEngine * option (list string)) s0 l :
  (∀ acc issue, backed_step structure now acc.1 (step acc issue).1) →
  ∀ acc, backed_session structure now s0 acc.1 →
  backed_session structure now s0 (foldl step acc l).1.
Proof.
  intros Hstep. induction l as [|issue l IH]; intros acc Hacc; [done|].
  cbn [foldl]. apply IH. eapply backed_session_step; [exact Hacc|apply Hstep].
Qed.

Lemma performance_shared_session s0 s :
  backed_session structure now s0 s →
  backed_session structure now s0 (_heal_performance_shared structure now issues s).1.
Proof.
  intros Hs. unfold _heal_performance_shared. cbv zeta.
  apply foldl_session.
  { intros acc issue. apply backs_up_on_eager_loading_from. }
  apply foldl_session; [|done].
  intros acc issue. apply backs_up_on_n_plus_1.
Qed.

Lemma early_passes_session s : backed_session structure now s (early_passes s).
Proof.
  exact (passes_session ast_parse get_templates get_routes real_quick_ratio quick_ratio
           ratio template_extending structure
           {| i_routes := i_routes issues; i_templates := i_templates issues;
              i_database := i_database issues; i_code := i_code issues;
              i_security := i_security issues; i_performance := [] |} now s).
Qed.

Lemma heal_shared_passes_session s :
  backed_session structure now s
    (_heal_performance_shared structure now issues (early_passes s)).1.
Proof. apply performance_shared_session, early_passes_session. Qed.

Lemma heal_shared_session with_backups s :
  backup_dir s = None →
  backed_session structure now s (heal_shared with_backups s).1.
Proof.
  intros Hnone. unfold heal_shared, bind.
  destruct with_backups; [|apply heal_shared_passes_session].
  destruct (create_backups_spec structure now s) as (s1 & r & -> & Hfiles & _ & Hroot).
  assert (Hstart : backed_session structure now s s1).
  { split; [by rewrite Hfiles|]. split; [by rewrite Hnone|].
    split; [by right|]. intros p c Hp Hchanged. by rewrite Hfiles in Hchanged. }
  destruct r as [[]| |]; [|exact Hstart..]. simpl.
  destruct (heal_shared_passes_session s1) as (Hkeep & Hstable & _ & Hcopy).
  split; [intros p Hp; apply Hkeep; by rewrite Hfiles|].
  split; [by rewrite Hnone|]. split; [right; by apply Hstable|].
  intros p c Hp Hchanged. apply (Hcopy p c); [by rewrite Hfiles|done].
Qed.

(** X20.  [heal], with the variable of its last pass, removes no file,
    whatever the issues and the option. *)
Theorem heal_removes_no_file with_backups s (p : path) :
  is_Some (files (disk s) !! p) →
  is_Some (files (disk (heal_shared with_backups s).1) !! p).
Proof.
  intros Hp. unfold heal_shared, bind. destruct with_backups.
  - destruct (create_backups_spec structure now s) as (s1 & r & -> & Hfiles & _ & _).
    destruct r as [[]| |]; simpl; [|by rewrite Hfiles..].
    apply (proj1 (heal_shared_passes_session s1)). by rewrite Hfiles.
  - simpl. by apply (proj1 (heal_shared_passes_session s)).
Qed.




(** X23.  Where a regular file is in the way of the backup directory,
    [heal(create_backups=True)] raises before any repair: the backup root
    is named, and no file, no directory and no fix is changed. *)
Theorem heal_backup_dir_blocked s :
  existsb (is_file (disk s)) (prefixes (session_root structure now)) = true →
  heal_shared true s
  = ({| disk := disk s; backup_dir := Some (session_root structure now);
        fixes := fixes s |}, Raised).
Proof.
  intros Hblocked. unfold heal_shared, create_backups, bind, set_backup_dir, on_disk,
    mkdir_parents. cbn [disk]. fold (session_root structure now).
  by rewrite Hblocked.
Qed.

End SharedSession.

Section NothingToHeal.
Import Healing.

Variable ast_parse : string → option (list Ast.node).
Variable get_templates : FS → list Template.
Variable get_routes : FS → list Route.
Variables real_quick_ratio quick_ratio ratio : string → string → Q.
Variable template_extending : string → string.
Variable structure : Detector.Structure.
Variable now : N.

(** X24.  Without issues, [heal] changes no file and records no fix.  With the
    backups on, it names the backup root and makes its directories all the
    same. *)
Theorem heal_without_issues (with_backups : bool) (fs : FS) :
  let outcome := heal_shared ast_parse get_templates get_routes real_quick_ratio
                   quick_ratio ratio template_extending structure no_issues now
                   with_backups (init fs) in
  files (disk outcome.1) = files fs
  ∧ fixes outcome.1 = no_fixes
  ∧ (if with_backups
     then backup_dir outcome.1 = Some (session_root structure now)
          ∧ (outcome.2 = Ok no_fixes →
             dirs (disk outcome.1)
             = dirs fs ∪ list_to_set (prefixes (session_root structure now)))
     else outcome = (init fs, Ok no_fixes)).
Proof.
  unfold heal_shared, create_backups, bind, set_backup_dir, on_disk, mkdir_parents.
  destruct with_backups; [|done]. cbn [disk init].
  fold (session_root structure now).
  destruct (existsb _ _); simpl; by repeat split.
Qed.

End NothingToHeal.

(** ** The repairs of the security settings *)

Section InsecureConfig.
Import Healing.

Lemma replace_absent old new : ∀ s,
  Text.contains old s = false → Text.replace old new s = s.
Proof.
  unfold Text.replace. induction s as [|c s IH]; [done|].
  cbn [Text.contains Text.replace_go]. intros Hs.
  apply orb_false_iff in Hs as [Hprefix Hs]. rewrite Hprefix. by rewrite IH.
Qed.

(** The four settings [replace_configs] rewrites, as it looks for them. *)
Definition rewritten_settings : list string :=
  ["DEBUG = True"; "TESTING = True"; "WTF_CSRF_ENABLED = False";
   "SQLALCHEMY_TRACK_MODIFICATIONS = True"].

Lemma replace_configs_absent (content : string) :
  Forall (fun setting => Text.contains setting content = false) rewritten_settings →
  Text.contains "os.environ.get" content = false
  ∨ Text.contains "import os" content = true →
  replace_configs content = content.
Proof.
  intros Hnone Hos. unfold rewritten_settings in Hnone.
  apply Forall_cons in Hnone as [H1 Hnone]. apply Forall_cons in Hnone as [H2 Hnone].
  apply Forall_cons in Hnone as [H3 Hnone]. apply Forall_cons in Hnone as [H4 _].
  unfold replace_configs.
  rewrite (replace_absent _ _ content H1), (replace_absent _ _ content H2),
    (replace_absent _ _ content H3), (replace_absent _ _ content H4).
  destruct Hos as [-> | ->]; [done|]. by rewrite andb_false_r.
Qed.


Variable structure : Detector.Structure.
Variable now : N.

(** X25.  The repair of an insecure setting rewrites the settings written with
    one space on each side of the sign only, where the diagnosis allows
    any spacing.  A file in which none of the four occurs in that form,
    and which needs no import of [os], has the text it had after the
    repair, so that the diagnosis reports for it what it reported. *)
Theorem insecure_config_other_spacing_survives (file_path : path) (content : string) s :
  files (disk s) !! file_path = Some content →
  Forall (fun setting => Text.contains setting content = false) rewritten_settings →
  Text.contains "os.environ.get" content = false
  ∨ Text.contains "import os" content = true →
  let s' := try_ (heal_insecure_config structure now file_path) s in
  replace_configs content = content
  ∧ files (disk s') !! file_path = Some content
  ∧ Diagnostic.file_configs (disk s') file_path = Diagnostic.file_configs (disk s) file_path.
Proof.
  intros Hcontent Hnone Hos s'.
  pose proof (replace_configs_absent content Hnone Hos) as Hsame.
  assert (Hfile : files (disk s') !! file_path = Some content).
  { unfold s', try_.
    destruct (heal_insecure_config structure now file_path s) as [s2 r2] eqn:Hrun. simpl.
    unfold heal_insecure_config, bind at 1 in Hrun.
    destruct (backup_file_spec structure now file_path s)
      as (s1 & r & Hspec & _ & _ & Hr).
    rewrite Hspec in Hrun.
    destruct r as [[]| |];
      [|injection Hrun as <- <-;
        exact (eq_trans (f_equal (fun m => m !! file_path) Hr) Hcontent)..].
    assert (Hread : files (disk s1) !! file_path = Some content).
    { destruct Hr as (root & rel & c & q & _ & _ & _ & Hc & Hne & Hfiles).
      by rewrite Hfiles, lookup_insert_ne. }
    unfold read_file, bind, get_disk, read_text in Hrun. rewrite Hread in Hrun.
    simpl in Hrun. rewrite Hsame in Hrun.
    unfold write_file, on_disk, open_write, record_fix in Hrun.
    destruct (is_dir (disk s1) file_path); [by injection Hrun as <- <-|].
    destruct (is_dir (disk s1) (parent file_path)); [|by injection Hrun as <- <-].
    injection Hrun as <- <-. simpl. apply lookup_insert_eq. }
  split; [done|]. split; [done|].
  unfold Diagnostic.file_configs, read_text. by rewrite Hfile, Hcontent.
Qed.

End InsecureConfig.

Section SecretKey.
Import Healing.

Lemma rep_all {R} p (k : string → option R) x c rest : ∀ v n,
  ReFacts.all p v = true → p c = false → n ≤ String.length v →
  k (String c rest) = Some x →
  Re.rep p n (v +:+ String c rest) k = Some x.
Proof.
  induction v as [|a v IH]; intros n Hv Hc Hn Hk.
  - simpl in *. rewrite Hc. by replace n with 0 by lia.
  - simpl in Hv. apply andb_true_iff in Hv as [Ha Hv].
    rewrite ReFacts.app_cons. cbn [Re.rep]. rewrite Ha.
    rewrite (IH (pred n)); [done..| |done]. simpl in Hn. lia.
Qed.

Lemma stake_app_length v : ∀ t, Text.stake (String.length v) (v +:+ t) = v.
Proof. induction v as [|a v IH]; intros t; [by destruct t|]. simpl. by rewrite IH. Qed.

(** The pattern of the repair on an assignment of a quoted literal. *)
Lemma match_secret_key q1 v q2 rest :
  Re.quote q1 = true → Re.quote q2 = true →
  ReFacts.all Re.not_quote v = true → v ≠ EmptyString →
  Re.match_at secret_key_re ("SECRET_KEY = " +:+ String q1 (v +:+ String q2 rest))
  = Some (rest, [v]).
Proof.
  intros Hq1 Hq2 Hv Hne. unfold Re.match_at, secret_key_re.
  assert (Hs1 : Text.is_space q1 = false).
  { unfold Re.quote in Hq1. apply orb_true_iff in Hq1 as [H|H];
      apply Ascii.eqb_eq in H; by subst. }
  simpl. rewrite Hs1, Hq1.
  rewrite (rep_all Re.not_quote _ (rest, [v]) q2 rest); try done.
  - unfold Re.not_quote. by rewrite Hq2.
  - destruct v; [done|simpl; lia].
  - rewrite Hq2. do 3 f_equal. rewrite ReFacts.length_app. simpl.
    replace (_ - _) with (String.length v) by lia. by rewrite stake_app_length.
Qed.

Lemma sub_go_skip r repl a : ∀ b,
  Re.sub_go r repl (a +:+ b) (String.length a) = Re.sub_go r repl b 0.
Proof. induction a as [|c a IH]; intros b; [done|]. simpl. apply IH. Qed.

Lemma sub_indent r repl indent : ∀ s,
  (∀ c t, Text.is_space c = true → Re.match_at r (String c t) = None) →
  ReFacts.all Text.is_space indent = true →
  Re.sub r repl (indent +:+ s) = indent +:+ Re.sub r repl s.
Proof.
  intros s Hr. unfold Re.sub. induction indent as [|c indent IH]; intros Hindent; [done|].
  simpl in Hindent. apply andb_true_iff in Hindent as [Hc Hindent].
  rewrite !ReFacts.app_cons. cbn [Re.sub_go]. rewrite (Hr c _ Hc). by rewrite IH.
Qed.

Lemma sub_go_match r repl c s t groups n :
  Re.match_at r (String c s) = Some (t, groups) →
  String.length (String c s) - String.length t = S n →
  Re.sub_go r repl (String c s) 0 = repl +:+ Re.sub_go r repl s n.
Proof. intros Hmatch Hlength. cbn [Re.sub_go]. by rewrite Hmatch, Hlength. Qed.

Lemma match_secret_key_space c t :
  Text.is_space c = true → Re.match_at secret_key_re (String c t) = None.
Proof.
  intros Hc. unfold Re.match_at, secret_key_re. cbn [Re.seq Re.run Re.strip_prefix].
  destruct (Ascii.eqb "S" c) eqn:HS; [|done].
  apply Ascii.eqb_eq in HS. subst c. by vm_compute in Hc.
Qed.

(** X26.  Where the file mentions [os.environ.get] or [import os] already, the
    line of the issue, holding the assignment of a quoted literal to
    [SECRET_KEY] after its indentation, is replaced by the line that
    reads the key from the environment, with what followed the literal
    on the line kept; the other lines are as they were. *)
Theorem secret_key_rewritten_when_os_imported (content : string) (lines : list string)
    (line_index : nat) (indent : string) (q1 q2 : ascii) (v rest : string) :
  Text.contains "os.environ.get" content = true
  ∨ Text.contains "import os" content = true →
  ReFacts.all Text.is_space indent = true →
  Re.quote q1 = true → Re.quote q2 = true →
  ReFacts.all Re.not_quote v = true → v ≠ EmptyString →
  lines !! line_index
  = Some (indent +:+ "SECRET_KEY = " +:+ String q1 (v +:+ String q2 rest)) →
  replace_secret content lines line_index
    (indent +:+ "SECRET_KEY = " +:+ String q1 (v +:+ String q2 rest))
  = <[line_index := indent +:+ secret_key_env
                    +:+ Re.sub secret_key_re secret_key_env rest]> lines.
Proof.
  intros Hos Hindent Hq1 Hq2 Hv Hne _. unfold replace_secret.
  replace (Text.contains "SECRET_KEY" _) with true.
  2:{ symmetry. apply TextFacts.contains_iff.
      by exists indent, (" = " +:+ String q1 (v +:+ String q2 rest)). }
  replace (negb _ && negb _) with false.
  2:{ symmetry. destruct Hos as [H|H]; rewrite H; [reflexivity|apply andb_false_r]. }
  f_equal. rewrite sub_indent; [|apply match_secret_key_space|done].
  f_equal. unfold Re.sub.
  assert (Htail : "ECRET_KEY = " +:+ String q1 (v +:+ String q2 rest)
                  = ("ECRET_KEY = " +:+ String q1 (v +:+ String q2 EmptyString)) +:+ rest).
  { rewrite (ReFacts.app_assoc "ECRET_KEY = "). f_equal.
    rewrite ReFacts.app_cons. f_equal.
    by rewrite ReFacts.app_assoc, ReFacts.app_cons, ReFacts.app_nil_l. }
  pose proof (match_secret_key q1 v q2 rest Hq1 Hq2 Hv Hne) as Hmatch.
  change ("SECRET_KEY = " +:+ String q1 (v +:+ String q2 rest))
    with (String "S" ("ECRET_KEY = " +:+ String q1 (v +:+ String q2 rest))) in *.
  rewrite (sub_go_match _ _ _ _ _ _
             (String.length ("ECRET_KEY = " +:+ String q1 (v +:+ String q2 EmptyString)))
             Hmatch).
  - by rewrite Htail, sub_go_skip.
  - rewrite Htail. cbn [String.length]. rewrite !ReFacts.length_app. lia.
Qed.

End SecretKey.

(** ** The diagnosis of eager loading and its repair *)

Module Performance.

(** The test of the second loop of [_diagnose_performance] on the text of
    a route file. *)
Definition needs_eager_loading (content : string) : bool :=
  Text.contains ".query." content &&
  negb (Text.contains ".join(" content) &&
  negb (Text.contains ".options(" content).

(** The issue the second loop of [_diagnose_performance] adds for one
    route file; a file that cannot be read adds nothing. *)
Definition file_eager_loading (fs : FS) (route_file : path) : list Issue :=
  match read_text fs route_file with
  | Some content =>
      if needs_eager_loading content then [missing_eager_loading route_file] else []
  | None => []
  end.

(** The second loop of [_diagnose_performance]. *)
Definition eager_loading_issues (structure : Detector.Structure) (fs : FS) : list Issue :=
  Detector.st_route_files structure ≫= file_eager_loading fs.

End Performance.

Section EagerLoading.
Import Healing Performance.

(** The character occurs in the text. *)
Fixpoint mentions (c : ascii) (s : string) : bool :=
  match s with
  | EmptyString => false
  | String a s' => Ascii.eqb a c || mentions c s'
  end.

Lemma prefix_app_sep c : ∀ pat X Y,
  mentions c pat = false →
  String.prefix pat (X +:+ String c Y) = String.prefix pat X.
Proof.
  induction pat as [|a pat IH]; intros X Y Hc.
  - by destruct X.
  - simpl in Hc. apply orb_false_iff in Hc as [Hac Hc].
    destruct X as [|b X]; simpl.
    + destruct (ascii_dec a c) as [->|]; [|done]. by rewrite Ascii.eqb_refl in Hac.
    + destruct (ascii_dec a b); [|done]. by apply IH.
Qed.

(** A text that does not hold the character [c] occurs in two texts
    joined by [c] where it occurs in one of them. *)
Lemma contains_app_sep c pat Y : ∀ X,
  mentions c pat = false →
  Text.contains pat (X +:+ String c Y) = Text.contains pat X || Text.contains pat Y.
Proof.
  intros X Hc. induction X as [|b X IH].
  - pose proof (prefix_app_sep c pat EmptyString Y Hc) as Hp.
    rewrite ReFacts.app_nil_l in *. cbn [Text.contains].
    rewrite Hp. by rewrite orb_false_r.
  - pose proof (prefix_app_sep c pat (String b X) Y Hc) as Hp.
    rewrite ReFacts.app_cons in *. cbn [Text.contains]. rewrite IH, Hp.
    by rewrite orb_assoc.
Qed.

(** The lines joined, before and after a note is added to one of them. *)
Lemma join_lines_note note : ∀ ls i l,
  ls !! i = Some l →
  ∃ before after,
    Text.join_lines ls = before +:+ after
    ∧ Text.join_lines (<[i := l +:+ note]> ls) = before +:+ note +:+ after
    ∧ (after = EmptyString ∨ ∃ rest, after = String Text.nl rest).
Proof.
  induction ls as [|l0 ls IH]; intros i l Hl; [done|].
  destruct i as [|i]; simpl in Hl.
  - injection Hl as ->.
    change (<[0 := l +:+ note]> (l :: ls)) with ((l +:+ note) :: ls).
    destruct ls as [|l1 ls].
    + exists l, EmptyString. cbn [Text.join_lines]. rewrite !ReFacts.app_nil_r.
      split; [done|]. split; [done|by left].
    + exists l, (String Text.nl (Text.join_lines (l1 :: ls))).
      rewrite (TextFacts.join_lines_cons l), (TextFacts.join_lines_cons (l +:+ note))
        by done.
      split; [done|]. split; [|by right; eexists].
      by rewrite ReFacts.app_assoc.
  - destruct (IH i l Hl) as (before & after & Hjoin & Hnote & Hafter).
    assert (Hne : ls ≠ []) by (by destruct ls).
    assert (Hne' : <[i := l +:+ note]> ls ≠ []) by (by destruct ls, i).
    exists (l0 +:+ String Text.nl before), after.
    change (<[S i := l +:+ note]> (l0 :: ls)) with (l0 :: <[i := l +:+ note]> ls).
    rewrite (TextFacts.join_lines_cons l0 ls),
      (TextFacts.join_lines_cons l0 (<[i := l +:+ note]> ls)) by done.
    rewrite Hjoin, Hnote. split; [|split; [|done]].
    + by rewrite ReFacts.app_assoc, ReFacts.app_cons.
    + by rewrite ReFacts.app_assoc, ReFacts.app_cons.
Qed.


Definition note_text : string :=
  "# TODO: Considere usar joinedload ou subqueryload para relacionamentos".

Lemma note_keeps_contains pat before after :
  after = EmptyString ∨ (∃ rest, after = String Text.nl rest) →
  mentions " " pat = false → mentions Text.nl pat = false →
  Text.contains pat note_text = false →
  Text.contains pat (before +:+ eager_todo +:+ after)
  = Text.contains pat (before +:+ after).
Proof.
  intros Hafter Hspace Hnl Hnote.
  change eager_todo with (String " " note_text). rewrite ReFacts.app_cons.
  rewrite (contains_app_sep " " pat _ before Hspace).
  destruct Hafter as [->|[rest ->]].
  - by rewrite !ReFacts.app_nil_r, Hnote, orb_false_r.
  - by rewrite !(contains_app_sep Text.nl pat rest _ Hnl), Hnote.
Qed.

(** The text the repair of eager loading writes for a file with a query
    passes the test of the diagnosis where the text read passes it: the
    note is a comment, and the file is reported again. *)
Lemma eager_loading_note_keeps_test (content : string) (written : list string) :
  eager_lines content = Some written →
  needs_eager_loading (Text.join_lines written) = needs_eager_loading content.
Proof.
  unfold eager_lines. destruct (last (Re.finditer query_re content)) as [[[start m] g]|];
    [|done].
  intros [= <-].
  destruct (Text.split_lines content !! _) as [line|] eqn:Hline;
    [|by rewrite TextFacts.join_split_lines].
  destruct (join_lines_note eager_todo _ _ _ Hline)
    as (before & after & Hjoin & -> & Hafter).
  rewrite TextFacts.join_split_lines in Hjoin. rewrite Hjoin.
  unfold needs_eager_loading.
  by rewrite !(note_keeps_contains _ before after Hafter).
Qed.

Variable structure : Detector.Structure.
Variable now : N.


End EagerLoading.

(** ** A project to run the properties on

    An entry file that is a configuration file as well, with a setting
    written without spaces and a secret key; a route file with a query;
    a route file whose only query is not one the repair looks for; and a
    file outside the project. *)

Definition shop_app : string :=
"from flask import Flask
import os
app = Flask(__name__)
app.config['X'] = 1
DEBUG=True
SECRET_KEY = 'abcdef1234567890'
".

Definition shop_views : string :=
"from flask import Flask
@app.route('/users')
def users():
    return User.query.all()
".

Definition shop_reports : string :=
"from flask import Flask
@app.route('/reports')
def reports():
    return Report.query.order_by(Report.id)
".

Definition shop_hosts : string := "127.0.0.1 localhost
".

Definition shop_root : path := ["srv"; "proj"].
Definition shop_app_path : path := ["srv"; "proj"; "app.py"].
Definition shop_views_path : path := ["srv"; "proj"; "views.py"].
Definition shop_reports_path : path := ["srv"; "proj"; "reports.py"].
Definition shop_hosts_path : path := ["etc"; "hosts"].

Definition shop_tree : Detector.tree :=
  Detector.Dir [] [("app.py", shop_app); ("views.py", shop_views);
                   ("reports.py", shop_reports)].

Definition shop_structure : Detector.Structure :=
  Eval vm_compute in Detector.detect_flask_project no_parse shop_root shop_tree.

Definition shop_fs : FS :=
  {| files := {[ shop_app_path := shop_app; shop_views_path := shop_views;
                 shop_reports_path := shop_reports; shop_hosts_path := shop_hosts ]};
     dirs := {[ ["srv"]; ["srv"; "proj"]; ["etc"] ]} |}.

Definition shop_now : N := 1700000000.

(** The issues of a session: the secret key of the entry file, the N+1
    query reported on the last line of the views, and the eager loading
    of the reports. *)
Definition shop_issues : Issues :=
  {| i_routes := []; i_templates := []; i_database := []; i_code := [];
     i_security := [hardcoded_secret shop_app_path 6 "SECRET_KEY hardcoded"];
     i_performance := [n_plus_1_query shop_views_path 4;
                       missing_eager_loading shop_reports_path] |}.

Definition shop_heal (with_backups : bool) : Healing.HealingEngine :=
  (heal_shared no_parse no_templates no_routes no_ratio no_ratio no_ratio no_scaffold
     shop_structure shop_issues shop_now with_backups (Healing.init shop_fs)).1.

(** The texts the session leaves. *)
Definition shop_app_healed : string :=
"from flask import Flask
import os
app = Flask(__name__)
app.config['X'] = 1
DEBUG=True
SECRET_KEY = os.environ.get('SECRET_KEY', 'development-key-CHANGE-ME-in-production')
".

Definition shop_views_healed : string :=
"from flask import Flask
@app.route('/users')
def users():
    return User.query.all() # TODO: Potencial problema de N+1 query, considere usar joinedload ou subqueryload
".

(** The session on the project: the secret key is read from the
    environment, the note is on the query of the views, and the reports,
    which have no query the repair looks for, hold the lines of the views;
    the three files have their backups. *)
Example shop_session :
  Detector.st_config_files shop_structure = [shop_app_path]
  ∧ Detector.st_route_files shop_structure = [shop_views_path; shop_reports_path]
  ∧ Performance.eager_loading_issues shop_structure shop_fs
    = [missing_eager_loading shop_views_path; missing_eager_loading shop_reports_path]
  ∧ Healing.eager_lines shop_reports = None
  ∧ files (Healing.disk (shop_heal true)) !! shop_app_path = Some shop_app_healed
  ∧ files (Healing.disk (shop_heal true)) !! shop_views_path = Some shop_views_healed
  ∧ files (Healing.disk (shop_heal true)) !! shop_reports_path = Some shop_views_healed
  ∧ files (Healing.disk (shop_heal true))
      !! (session_root shop_structure shop_now ++ ["reports.py"]) = Some shop_reports
  ∧ files (Healing.disk (shop_heal true)) !! shop_hosts_path = Some shop_hosts.
Proof. repeat split; vm_compute; reflexivity. Qed.

(** *** The properties on the project *)

Lemma config_file_reported_twice_witness :
  ∃ l1 l2 l3,
    i_security (Diagnostic.diagnose no_parse
                  (Detector.detect_flask_project no_parse shop_root shop_tree)
                  shop_fs [] [] [])
    = l1 ++ hardcoded_secret shop_app_path 6 "SECRET_KEY hardcoded"
         :: l2 ++ hardcoded_secret shop_app_path 6 "SECRET_KEY hardcoded" :: l3.
Proof.
  apply (config_file_reported_twice no_parse shop_root shop_tree shop_fs [] [] []
           shop_app_path).
  - change (shop_app_path ∈ Detector.st_config_files shop_structure).
    apply list_elem_of_here.
  - replace (Diagnostic.file_secrets shop_fs shop_app_path)
      with [hardcoded_secret shop_app_path 6 "SECRET_KEY hardcoded"]
      by (vm_compute; reflexivity).
    apply list_elem_of_here.
Defined.

Lemma secret_line_in_file_witness :
  shop_app_path = shop_app_path
  ∧ ∃ content, read_text shop_fs shop_app_path = Some content
      ∧ 1 ≤ 6 ≤ length (Text.split_lines content)
      ∧ is_Some (Text.split_lines content !! (6 - 1)).
Proof.
  apply (secret_line_in_file shop_fs shop_app_path shop_app_path 6 "SECRET_KEY hardcoded").
  replace (Diagnostic.file_secrets shop_fs shop_app_path)
    with [hardcoded_secret shop_app_path 6 "SECRET_KEY hardcoded"]
    by (vm_compute; reflexivity).
  apply list_elem_of_here.
Defined.

Definition shop_backup : Healing.HealingEngine * Healing.result unit :=
  Healing.backup_file shop_structure shop_now shop_app_path (Healing.init shop_fs).

Lemma backup_file_copies_witness :
  ∃ root rel c q,
    Healing.backup_dir shop_backup.1 = Some root
    ∧ (Healing.backup_dir (Healing.init shop_fs) = Some root
       ∨ (Healing.backup_dir (Healing.init shop_fs) = None
          ∧ root = session_root shop_structure shop_now))
    ∧ Detector.relative_to (Detector.st_project_path shop_structure) shop_app_path
      = Some rel
    ∧ (q = root ++ rel ∨ q = (root ++ rel) ++ [Healing.name_of shop_app_path])
    ∧ files (Healing.disk (Healing.init shop_fs)) !! shop_app_path = Some c
    ∧ files (Healing.disk shop_backup.1) !! q = Some c
    ∧ files (Healing.disk shop_backup.1) !! shop_app_path = Some c
    ∧ (∀ p', p' ≠ q →
         files (Healing.disk shop_backup.1) !! p'
         = files (Healing.disk (Healing.init shop_fs)) !! p')
    ∧ Healing.fixes shop_backup.1 = Healing.fixes (Healing.init shop_fs).
Proof.
  apply (backup_file_copies shop_structure shop_now shop_app_path (Healing.init shop_fs)).
  assert (Hok : shop_backup.2 = Healing.Ok tt) by (vm_compute; reflexivity).
  fold shop_backup. destruct shop_backup as [s' r]. simpl in *. by rewrite Hok.
Defined.

Lemma backup_file_outside_project_witness :
  ∃ s', Healing.backup_file shop_structure shop_now shop_hosts_path (Healing.init shop_fs)
        = (s', Healing.Raised)
    ∧ files (Healing.disk s') = files (Healing.disk (Healing.init shop_fs))
    ∧ Healing.fixes s' = Healing.fixes (Healing.init shop_fs).
Proof.
  apply (backup_file_outside_project shop_structure shop_now shop_hosts_path
           (Healing.init shop_fs)).
  reflexivity.
Defined.

Lemma close_block_closes_witness :
  (∃ pre post inserted,
     "{% block a %}x" = pre +:+ post
     ∧ "{% block a %}x
{% endblock a %}" = pre +:+ inserted +:+ post
     ∧ (inserted = Healing.endblock_tag "a" +:+ String Text.nl EmptyString
        ∨ inserted = String Text.nl (Healing.endblock_tag "a")))
  ∧ ¬ is_Some (Re.search (Diagnostic.endblock_re "a") "{% block a %}x")
  ∧ is_Some (Re.search (Diagnostic.endblock_re "a") "{% block a %}x
{% endblock a %}")
  ∧ (∀ relative_path,
       unclosed_block relative_path "a"
       ∉ Diagnostic.unclosed_blocks relative_path "{% block a %}x
{% endblock a %}")
  ∧ Healing.close_block "a" "{% block a %}x
{% endblock a %}" = None.
Proof.
  apply (close_block_closes "a" "{% block a %}x"). vm_compute. reflexivity.
Defined.

Definition anonymous_routes (fs : FS) : list Route :=
  [{| r_file := ["srv"; "proj"; "app.py"]; r_app_or_blueprint := "app";
      r_path := "/"; r_methods := None; r_function := None |}].

Lemma url_for_repair_needs_every_function_witness :
  left_alone url_templates "index.html" (Healing.init url_fs)
    (Healing.try_
       (Healing.heal_invalid_url_for url_templates anonymous_routes
          Difflib.real_quick_ratio Difflib.quick_ratio Difflib.ratio
          url_structure 1700000000 "index.html" "show_usr")
       (Healing.init url_fs)).
Proof.
  apply (url_for_repair_needs_every_function url_templates anonymous_routes
           Difflib.real_quick_ratio Difflib.quick_ratio Difflib.ratio
           url_structure 1700000000 "index.html" "show_usr" (Healing.init url_fs)).
  eexists. split; [apply list_elem_of_here|reflexivity].
Defined.


Lemma eager_loading_writes_lines_left_witness :
  let s := Healing.init shop_fs in
  let s' := Healing.try_
              (heal_eager_loading_from shop_structure shop_now
                 (Some (Text.split_lines shop_views)) shop_reports_path) s in
  lines_after_eager_loading shop_structure shop_now
    (missing_eager_loading shop_reports_path) (Some (Text.split_lines shop_views)) s
  = Some (Text.split_lines shop_views)
  ∧ ((Healing.fixes s' = Healing.fixes s
      ∧ files (Healing.disk s') !! shop_reports_path = Some shop_reports)
     ∨ (files (Healing.disk s') !! shop_reports_path
        = Some (Text.join_lines (Text.split_lines shop_views))
        ∧ Healing.fixes s'
          = Healing.append_fix Healing.performance
              (Healing.added_eager_loading_warning shop_reports_path)
              (Healing.fixes s))).
Proof.
  apply (eager_loading_writes_lines_left shop_structure shop_now
           (Text.split_lines shop_views) shop_reports_path shop_reports
           (Healing.init shop_fs)).
  - vm_compute. reflexivity.
  - vm_compute. reflexivity.
Defined.


Lemma heal_removes_no_file_witness :
  is_Some (files (Healing.disk (shop_heal true)) !! shop_reports_path).
Proof.
  apply (heal_removes_no_file no_parse no_templates no_routes no_ratio no_ratio no_ratio
           no_scaffold shop_structure shop_issues shop_now true (Healing.init shop_fs)
           shop_reports_path).
  exists shop_reports. vm_compute. reflexivity.
Defined.



(** The files of the project with a regular file where the directory of
    the backups would be. *)
Definition blocked_fs : FS :=
  {| files := {[ shop_app_path := shop_app; ["srv"; "proj"; "backups"] := "x" ]};
     dirs := {[ ["srv"]; ["srv"; "proj"] ]} |}.

Lemma heal_backup_dir_blocked_witness :
  heal_shared no_parse no_templates no_routes no_ratio no_ratio no_ratio no_scaffold
    shop_structure shop_issues shop_now true (Healing.init blocked_fs)
  = ({| Healing.disk := blocked_fs;
        Healing.backup_dir := Some (session_root shop_structure shop_now);
        Healing.fixes := Healing.no_fixes |}, Healing.Raised).
Proof.
  apply (heal_backup_dir_blocked no_parse no_templates no_routes no_ratio no_ratio
           no_ratio no_scaffold shop_structure shop_issues shop_now
           (Healing.init blocked_fs)).
  vm_compute. reflexivity.
Defined.

Lemma insecure_config_other_spacing_survives_witness :
  let s' := Healing.try_ (Healing.heal_insecure_config shop_structure shop_now
                            shop_app_path) (Healing.init shop_fs) in
  Healing.replace_configs shop_app = shop_app
  ∧ files (Healing.disk s') !! shop_app_path = Some shop_app
  ∧ Diagnostic.file_configs (Healing.disk s') shop_app_path
    = Diagnostic.file_configs (Healing.disk (Healing.init shop_fs)) shop_app_path.
Proof.
  apply (insecure_config_other_spacing_survives shop_structure shop_now shop_app_path
           shop_app (Healing.init shop_fs)).
  - vm_compute. reflexivity.
  - repeat constructor; vm_compute; reflexivity.
  - right. vm_compute. reflexivity.
Defined.

Lemma secret_key_rewritten_when_os_imported_witness :
  Healing.replace_secret shop_app (Text.split_lines shop_app) 5
    (EmptyString +:+ "SECRET_KEY = "
     +:+ String "'" ("abcdef1234567890" +:+ String "'" EmptyString))
  = <[5 := EmptyString +:+ Healing.secret_key_env
           +:+ Re.sub Healing.secret_key_re Healing.secret_key_env EmptyString]>
      (Text.split_lines shop_app).
Proof.
  apply (secret_key_rewritten_when_os_imported shop_app (Text.split_lines shop_app) 5
           EmptyString "'" "'" "abcdef1234567890" EmptyString).
  - right. vm_compute. reflexivity.
  - reflexivity.
  - reflexivity.
  - reflexivity.
  - vm_compute. reflexivity.
  - discriminate.
  - vm_compute. reflexivity.
Defined.


(** The setting without spaces is reported, and the repair that leaves
    it is recorded as a fix. *)
Example shop_setting_reported_and_kept :
  length (Diagnostic.file_configs shop_fs shop_app_path) = 1
  ∧ Healing.f_security
      (Healing.fixes (Healing.try_ (Healing.heal_insecure_config shop_structure shop_now
                                      shop_app_path) (Healing.init shop_fs)))
    = [Healing.fixed_insecure_config shop_app_path].
Proof. split; vm_compute; reflexivity. Qed.
